(** * AWS Cloud Practitioner quiz web application: session store, scorer,
      durable storage and offline queue

    A shallow embedding of the TypeScript sources

    - the scorer (class [QuizScorer]),
    - the quiz store [createQuizStore] with its derived stores, and the
      guarded navigation handlers of the exam page,
    - [StorageManager] (file [src/lib/utils/storage.ts]),
    - the offline store [createOfflineStore],

    followed by sample data and by the properties proved about them.

    Conventions of the embedding.
    - A JavaScript [number] that holds an index, a counter or a time in
      milliseconds is a [Z]; a [Date] is the [Z] of its [getTime()].
      A [number] computed in floating point (a percentage, an average) is
      the rational value [Q] of the IEEE 754 double: [js_div] and [js_mul]
      round the exact quotient and product to the nearest double
      ([binary64]).
    - A JavaScript string is a [string]; the default [Array.prototype.sort]
      orders strings by their code units, which is the lexicographic order
      on the characters of a [string].
    - [Map<string, string[]>] is [gmap string (list string)] and
      [Set<string>] is [gset string]: the sources never depend on the
      insertion order of either.
    - [new Date()] is an explicit argument [now] of the operation that calls
      it. *)

From Stdlib Require Import ZArith QArith Qround Qabs Qpower Qreduction Lia Lqa.
From Stdlib Require Import OrdersEx.
From Stdlib Require Import SpecFloat.
From stdpp Require Import base decidable option list sorting gmap strings pretty.

Local Open Scope Z_scope.

(** ** JavaScript array helpers *)

Section js_arrays.
Context {A : Type}.

(** [arr.slice(start)]: a negative [start] counts from the end, and both
    ends are clamped to the array. *)
Definition js_slice_from (start : Z) (l : list A) : list A :=
  let len := Z.of_nat (length l) in
  let k := if start <? 0 then Z.max (len + start) 0 else Z.min start len in
  drop (Z.to_nat k) l.

(** [arr.slice(0, -1)]: everything but the last element. *)
Definition js_slice_drop_last (l : list A) : list A :=
  take (length l - 1)%nat l.

(** [arr[i]] for a numeric index: [undefined] (here [None]) outside the
    array, also for a negative index. *)
Definition js_index (l : list A) (i : Z) : option A :=
  if i <? 0 then None else l !! Z.to_nat i.

(** [arr.every((x, index) => f x index)], visiting indices from [i]. *)
Fixpoint js_every_from (f : A → nat → bool) (i : nat) (l : list A) : bool :=
  match l with
  | [] => true
  | x :: l' => if f x i then js_every_from f (S i) l' else false
  end.

Definition js_every_indexed (f : A → nat → bool) (l : list A) : bool :=
  js_every_from f 0 l.
End js_arrays.

(** The order used by [sort()] on strings. *)
Definition js_string_le (a b : string) : Prop :=
  String_as_OT.compare a b ≠ Gt.

Global Instance js_string_le_dec a b : Decision (js_string_le a b).
Proof. unfold js_string_le. apply _. Defined.

(** [arr.sort()] on an array of strings.  A sorted permutation is unique
    for a total order, so the algorithm of the engine does not matter. *)
Definition js_sort (l : list string) : list string :=
  merge_sort js_string_le l.

(** ** Types of [$lib/types] *)

Inductive QuestionType := MCQ | MCMA.

Record Option_ := {
  option_id : string;
  option_text : string;
  option_letter : string
}.

Record Question := {
  question_id : string;
  question_number : Z;
  question_type : QuestionType;
  question_text : string;
  question_options : list Option_;
  question_correctAnswers : list string;
  question_explanation : option string
}.

Record Exam := {
  exam_id : string;
  exam_title : string;
  exam_questions : list Question
}.

Inductive QuizMode := mode_practice | mode_exam.

Record QuestionResult := {
  qr_questionId : string;
  qr_questionNumber : Z;
  qr_questionText : string;
  qr_type : QuestionType;
  qr_userAnswers : list string;
  qr_correctAnswers : list string;
  qr_isCorrect : bool;
  qr_explanation : option string;
  qr_options : list Option_
}.

Record QuizResult := {
  result_examId : string;
  result_examTitle : string;
  result_score : nat;
  result_percentage : Q;
  result_totalQuestions : nat;
  result_correctAnswers : nat;
  result_incorrectAnswers : nat;
  result_skippedAnswers : nat;
  result_timeElapsed : Z;
  result_startTime : Z;
  result_endTime : Z;
  result_questionResults : list QuestionResult
}.

(** [n] as a rational. *)
Definition Q_of_nat (n : nat) : Q := inject_Z (Z.of_nat n).

(** [Math.round]: the nearest integer, halves upwards. *)
Definition js_Math_round (q : Q) : Z := Qfloor (q + (1 # 2))%Q.

(** ** JavaScript numbers

    A [number] is an IEEE 754 double: a finite one is [m * 2^e] for
    integers [|m| < 2^53] and [e >= -1074].  The result of an arithmetic
    operation is the double nearest to the exact result, a tie going to
    the one with the even [m].  Doubles are kept as the rationals they
    are; counters, lengths and times are integers below [2^53] and so are
    doubles as they stand. *)

(** The integer nearest to [y], a tie going to the even one. *)
Definition round_half_even (y : Q) : Z :=
  let f := Qfloor y in
  match (y - inject_Z f ?= 1 # 2)%Q with
  | Lt => f
  | Gt => f + 1
  | Eq => if Z.even f then f else f + 1
  end.

(** The [b] with [2^b <= x < 2^(b+1)], for a positive [x]. *)
Definition binade (x : Q) : Z :=
  let e := Z.log2 (Qnum x) - Z.log2 (Zpos (Qden x)) in
  if Qle_bool (2 ^ e) x then e else e - 1.

(** The exponent of the last place of the doubles around [x]: 52 places
    below the leading one, and never below the smallest exponent, -1074. *)
Definition ulp_exponent (x : Q) : Z := Z.max (binade (Qabs x) - 52) (-1074).

(** The double nearest to [x].  (From [2^1024] on the result would be
    [Infinity]; no number computed here comes near it.) *)
Definition binary64 (x : Q) : Q :=
  if Qeq_bool x 0 then 0%Q
  else
    let e := ulp_exponent x in
    Qred (inject_Z (round_half_even (x / 2 ^ e)) * 2 ^ e).

(** [a / b], for a [b] that is not 0, and [a * b]. *)
Definition js_div (a b : Q) : Q := binary64 (a / b).

Definition js_mul (a b : Q) : Q := binary64 (a * b).

(** The same arithmetic in the Standard Library's specification of IEEE 754
    ([SpecFloat]), at the precision 53 and exponent bound 1024 of a double:
    [(correct / total) * 100] as [calculateResult] computes it. *)
Definition SF64_of_Z (n : Z) : spec_float := binary_normalize 53 1024 n 0 false.

Definition Q_of_SF64 (x : spec_float) : option Q :=
  match x with
  | S754_zero _ => Some 0%Q
  | S754_finite s m e => Some (Qred ((if s then -1 else 1) * inject_Z (Zpos m) * 2 ^ e)%Q)
  | S754_infinity _ | S754_nan => None
  end.

Definition percentage_SF64 (correct total : Z) : option Q :=
  Q_of_SF64 (SFmul 53 1024 (SFdiv 53 1024 (SF64_of_Z correct) (SF64_of_Z total))
               (SF64_of_Z 100)).

(** Whether the two agree on a score [(correct, total)]. *)
Definition percentage_agrees (score : Z * Z) : bool :=
  match percentage_SF64 score.1 score.2 with
  | Some q => Qeq_bool q (js_mul (js_div (inject_Z score.1) (inject_Z score.2)) 100)
  | None => false
  end.

(** All scores [(correct, total)] with [correct <= total <= n] and
    [total > 0]. *)
Definition scoresUpTo (n : nat) : list (Z * Z) :=
  total ← seq 1 n; correct ← seq 0 (S total); [(Z.of_nat correct, Z.of_nat total)].

(** [s.startsWith(p)] and [s.endsWith(p)] *)
Definition js_startsWith (p s : string) : bool := String.prefix p s.

Definition js_endsWith (p s : string) : bool :=
  String.prefix (String.rev p) (String.rev s).

(** ** [QuizScorer] *)

Module QuizScorer.

(** [static isAnswerCorrect(question, userAnswers)] *)
Definition isAnswerCorrect (question : Question) (userAnswers : list string) : bool :=
  if (length userAnswers =? 0)%nat then false
  else
    let sortedUserAnswers := js_sort userAnswers in
    let sortedCorrectAnswers := js_sort (question_correctAnswers question) in
    if negb (length sortedUserAnswers =? length sortedCorrectAnswers)%nat then false
    else
      js_every_indexed
        (λ answer index, bool_decide (sortedCorrectAnswers !! index = Some answer))
        sortedUserAnswers.

(** The variables that the [forEach] of [calculateResult] updates. *)
Record Tally := {
  questionResults : list QuestionResult;
  correctCount : nat;
  incorrectCount : nat;
  skippedCount : nat
}.

(** [answers.get(question.id) || []]: an array is truthy, so only a
    missing key gives [[]]. *)
Definition userAnswersOf (answers : gmap string (list string)) (question : Question)
    : list string :=
  default [] (answers !! question_id question).

(** The body of the [forEach] callback. *)
Definition scoreQuestion (answers : gmap string (list string))
    (t : Tally) (question : Question) : Tally :=
  let userAnswers := userAnswersOf answers question in
  let isCorrect := isAnswerCorrect question userAnswers in
  let questionResult :=
    {| qr_questionId := question_id question;
       qr_questionNumber := question_number question;
       qr_questionText := question_text question;
       qr_type := question_type question;
       qr_userAnswers := userAnswers;
       qr_correctAnswers := question_correctAnswers question;
       qr_isCorrect := isCorrect;
       qr_explanation := question_explanation question;
       qr_options := question_options question |} in
  let results := questionResults t ++ [questionResult] in
  if (length userAnswers =? 0)%nat then
    {| questionResults := results; correctCount := correctCount t;
       incorrectCount := incorrectCount t; skippedCount := S (skippedCount t) |}
  else if isCorrect then
    {| questionResults := results; correctCount := S (correctCount t);
       incorrectCount := incorrectCount t; skippedCount := skippedCount t |}
  else
    {| questionResults := results; correctCount := correctCount t;
       incorrectCount := S (incorrectCount t); skippedCount := skippedCount t |}.

Definition emptyTally : Tally :=
  {| questionResults := []; correctCount := 0; incorrectCount := 0; skippedCount := 0 |}.

(** [static calculateResult(examId, examTitle, questions, answers,
    startTime, endTime)] *)
Definition calculateResult (examId examTitle : string) (questions : list Question)
    (answers : gmap string (list string)) (startTime endTime : Z) : QuizResult :=
  let t := fold_left (scoreQuestion answers) questions emptyTally in
  let totalQuestions := length questions in
  let percentage :=
    if (0 <? totalQuestions)%nat
    then js_mul (js_div (Q_of_nat (correctCount t)) (Q_of_nat totalQuestions)) 100
    else 0%Q in
  let timeElapsed := endTime - startTime in
  {| result_examId := examId;
     result_examTitle := examTitle;
     result_score := correctCount t;
     result_percentage := percentage;
     result_totalQuestions := totalQuestions;
     result_correctAnswers := correctCount t;
     result_incorrectAnswers := incorrectCount t;
     result_skippedAnswers := skippedCount t;
     result_timeElapsed := timeElapsed;
     result_startTime := startTime;
     result_endTime := endTime;
     result_questionResults := questionResults t |}.

Record PassStatus := {
  passed : bool;
  grade : string;
  message : string
}.

(** The default of the parameter [passingScore]. *)
Definition DEFAULT_PASSING_SCORE : Q := 70%Q.

(** [static calculatePassStatus(percentage, passingScore = 70)] *)
Definition calculatePassStatus (percentage passingScore : Q) : PassStatus :=
  let passed := Qle_bool passingScore percentage in
  if Qle_bool 90 percentage then
    {| passed := passed; grade := "A";
       message := "Excellent work! You have a strong understanding of AWS Cloud Practitioner concepts." |}
  else if Qle_bool 80 percentage then
    {| passed := passed; grade := "B";
       message := "Great job! You have a good grasp of the material with room for minor improvements." |}
  else if Qle_bool 70 percentage then
    {| passed := passed; grade := "C";
       message := "Good work! You passed, but consider reviewing some topics to strengthen your knowledge." |}
  else if Qle_bool 60 percentage then
    {| passed := passed; grade := "D";
       message := "You're close! Review the incorrect answers and try again to improve your score." |}
  else
    {| passed := passed; grade := "F";
       message := "Don't give up! Focus on studying the areas where you struggled and retake the exam." |}.

(** [static formatDuration(milliseconds)], for a whole number of
    milliseconds.  [%] is the remainder of the truncating division. *)
Definition formatDuration (milliseconds : Z) : string :=
  let seconds := milliseconds / 1000 in
  let minutes := seconds / 60 in
  let hours := minutes / 60 in
  if 0 <? hours then
    pretty hours +:+ "h " +:+ pretty (Z.rem minutes 60) +:+ "m " +:+
    pretty (Z.rem seconds 60) +:+ "s"
  else if 0 <? minutes then
    pretty minutes +:+ "m " +:+ pretty (Z.rem seconds 60) +:+ "s"
  else
    pretty seconds +:+ "s".

(** [static estimateCompletionTime(currentQuestionIndex, totalQuestions,
    timeElapsed)] *)
Definition estimateCompletionTime (currentQuestionIndex totalQuestions timeElapsed : Z) : Z :=
  if currentQuestionIndex =? 0 then 0
  else
    let averageTimePerQuestion :=
      js_div (inject_Z timeElapsed) (inject_Z currentQuestionIndex) in
    let remainingQuestions := totalQuestions - currentQuestionIndex in
    js_Math_round (js_mul (inject_Z remainingQuestions) averageTimePerQuestion).

End QuizScorer.

(** ** Types of the quiz store *)

Record QuizState := {
  examId : string;
  mode : QuizMode;
  currentQuestionIndex : Z;
  answers : gmap string (list string);
  flaggedQuestions : gset string;
  startTime : Z;
  endTime : option Z;
  submitted : bool;
  timeElapsed : option Z;
  isReview : option bool
}.

(** The object that [createSnapshot] stores: the state after
    [JSON.parse(JSON.stringify(...))], with the map as an array of entries
    and the set as an array. *)
Record SerializedQuizState := {
  ser_examId : string;
  ser_mode : QuizMode;
  ser_currentQuestionIndex : Z;
  ser_answers : list (string * list string);
  ser_flaggedQuestions : list string;
  ser_startTime : Z;
  ser_endTime : option Z;
  ser_submitted : bool;
  ser_timeElapsed : option Z;
  ser_isReview : option bool
}.

Record AnswerHistoryEntry := {
  entry_questionId : string;
  entry_previousAnswers : list string;
  entry_newAnswers : list string;
  entry_timestamp : Z
}.

Record QuizStateSnapshot := {
  snapshot_state : SerializedQuizState;
  snapshot_timestamp : Z;
  snapshot_version : Z
}.

Inductive NavigationReason :=
  reason_next | reason_previous | reason_jump | reason_review.

Record NavigationPattern := {
  fromQuestion : Z;
  toQuestion : Z;
  nav_timestamp : Z;
  reason : option NavigationReason
}.

Record QuizAnalytics := {
  totalTimeSpent : Z;
  averageQuestionTime : Q;
  questionsRevisited : Z;
  flagsUsed : Z;
  navigationPatterns : list NavigationPattern
}.

Record StateManagerConfig := {
  autoSaveInterval : Z;
  maxHistorySize : Z;
  offlineRetryAttempts : Z;
  storageQuotaWarningThreshold : Z;
  enableAnalytics : bool
}.

Record NavigationItem := {
  questionNumber : Z;
  isAnswered : bool;
  isFlagged : bool;
  isActive : bool;
  isCorrect : option bool
}.

(** What a JavaScript expression evaluates to when it may be [null] or
    [undefined]. *)
Inductive js_nullable (A : Type) :=
  | js_null
  | js_undefined
  | js_value (a : A).
Arguments js_null {A}.
Arguments js_undefined {A}.
Arguments js_value {A} a.

(** A call either returns or throws. *)
Inductive js_outcome (A : Type) :=
  | returned (a : A)
  | threw (error : string).
Arguments returned {A} a.
Arguments threw {A} error.

(** [new Map(entries)]: later entries overwrite earlier ones. *)
Definition js_new_Map {V : Type} (entries : list (string * V)) : gmap string V :=
  fold_left (λ m kv, <[kv.1 := kv.2]> m) entries ∅.

(** [new Set(array)] *)
Definition js_new_Set (l : list string) : gset string := list_to_set l.

(** ** The quiz store ([createQuizStore]) *)

Module QuizStore.

(** The calls that the store makes on [StorageManager].  The store never
    looks at what they return, so its own behaviour is a function of its
    in-memory stores, and the durable store sees the calls in order. *)
Inductive StorageCall :=
  | saveQuizState (id : string) (state : QuizState) (savedAt : Z)
  | clearQuizState (id : string).

(** The variables captured by the closure returned by [createQuizStore]:
    the writable [QuizState] store, the three history stores, the analytics
    store and the auto-save timer (when armed: the exam id it saves under
    and its interval). *)
Record Store := {
  quiz : QuizState;
  answerHistory : list AnswerHistoryEntry;
  stateSnapshots : list QuizStateSnapshot;
  currentSnapshotIndex : Z;
  analytics : QuizAnalytics;
  autoSaveTimer : option (string * Z);
  storageCalls : list StorageCall
}.

Definition DEFAULT_CONFIG : StateManagerConfig :=
  {| autoSaveInterval := 5000;
     maxHistorySize := 50;
     offlineRetryAttempts := 3;
     storageQuotaWarningThreshold := 80;
     enableAnalytics := true |}.

(** [defaultState]; its [startTime] is the time at which the store was
    created. *)
Definition defaultState (created : Z) : QuizState :=
  {| examId := ""; mode := mode_exam; currentQuestionIndex := 0;
     answers := ∅; flaggedQuestions := ∅; startTime := created;
     endTime := None; submitted := false; timeElapsed := None;
     isReview := None |}.

Definition emptyAnalytics : QuizAnalytics :=
  {| totalTimeSpent := 0; averageQuestionTime := 0%Q; questionsRevisited := 0;
     flagsUsed := 0; navigationPatterns := [] |}.

(** The store right after [createQuizStore()]. *)
Definition createQuizStore (created : Z) : Store :=
  {| quiz := defaultState created; answerHistory := []; stateSnapshots := [];
     currentSnapshotIndex := -1; analytics := emptyAnalytics;
     autoSaveTimer := None; storageCalls := [] |}.

(** Object spreads [{ ...state, field: value }]. *)
Definition with_currentQuestionIndex (i : Z) (s : QuizState) : QuizState :=
  {| examId := examId s; mode := mode s; currentQuestionIndex := i;
     answers := answers s; flaggedQuestions := flaggedQuestions s;
     startTime := startTime s; endTime := endTime s; submitted := submitted s;
     timeElapsed := timeElapsed s; isReview := isReview s |}.

Definition with_answers (a : gmap string (list string)) (s : QuizState) : QuizState :=
  {| examId := examId s; mode := mode s;
     currentQuestionIndex := currentQuestionIndex s;
     answers := a; flaggedQuestions := flaggedQuestions s;
     startTime := startTime s; endTime := endTime s; submitted := submitted s;
     timeElapsed := timeElapsed s; isReview := isReview s |}.

Definition with_flaggedQuestions (f : gset string) (s : QuizState) : QuizState :=
  {| examId := examId s; mode := mode s;
     currentQuestionIndex := currentQuestionIndex s;
     answers := answers s; flaggedQuestions := f;
     startTime := startTime s; endTime := endTime s; submitted := submitted s;
     timeElapsed := timeElapsed s; isReview := isReview s |}.

Definition set_quiz (q : QuizState) (w : Store) : Store :=
  {| quiz := q; answerHistory := answerHistory w;
     stateSnapshots := stateSnapshots w;
     currentSnapshotIndex := currentSnapshotIndex w; analytics := analytics w;
     autoSaveTimer := autoSaveTimer w; storageCalls := storageCalls w |}.

Definition set_analytics (a : QuizAnalytics) (w : Store) : Store :=
  {| quiz := quiz w; answerHistory := answerHistory w;
     stateSnapshots := stateSnapshots w;
     currentSnapshotIndex := currentSnapshotIndex w; analytics := a;
     autoSaveTimer := autoSaveTimer w; storageCalls := storageCalls w |}.

(** [StorageManager.saveQuizState(examId, state)] and
    [StorageManager.clearQuizState(examId)], as seen from the store. *)
Definition call_storage (c : StorageCall) (w : Store) : Store :=
  {| quiz := quiz w; answerHistory := answerHistory w;
     stateSnapshots := stateSnapshots w;
     currentSnapshotIndex := currentSnapshotIndex w; analytics := analytics w;
     autoSaveTimer := autoSaveTimer w; storageCalls := storageCalls w ++ [c] |}.

(** [createSnapshot]: the JSON round trip turns the map into its entries
    and the set into its elements. *)
Definition createSnapshot (state : QuizState) (now : Z) : QuizStateSnapshot :=
  {| snapshot_state :=
       {| ser_examId := examId state; ser_mode := mode state;
          ser_currentQuestionIndex := currentQuestionIndex state;
          ser_answers := map_to_list (answers state);
          ser_flaggedQuestions := elements (flaggedQuestions state);
          ser_startTime := startTime state; ser_endTime := endTime state;
          ser_submitted := submitted state;
          ser_timeElapsed := timeElapsed state;
          ser_isReview := isReview state |};
     snapshot_timestamp := now;
     snapshot_version := 1 |}.

(** [restoreFromSnapshot] *)
Definition restoreFromSnapshot (snapshot : QuizStateSnapshot) : QuizState :=
  let s := snapshot_state snapshot in
  {| examId := ser_examId s; mode := ser_mode s;
     currentQuestionIndex := ser_currentQuestionIndex s;
     answers := js_new_Map (ser_answers s);
     flaggedQuestions := js_new_Set (ser_flaggedQuestions s);
     startTime := ser_startTime s; endTime := ser_endTime s;
     submitted := ser_submitted s; timeElapsed := ser_timeElapsed s;
     isReview := ser_isReview s |}.

Section operations.
Variable config : StateManagerConfig.

(** [trackNavigation(from, to, reason)] *)
Definition trackNavigation (now from to : Z) (r : NavigationReason) (w : Store) : Store :=
  if negb (enableAnalytics config) then w
  else
    let current := analytics w in
    set_analytics
      {| totalTimeSpent := totalTimeSpent current;
         averageQuestionTime := averageQuestionTime current;
         questionsRevisited := questionsRevisited current;
         flagsUsed := flagsUsed current;
         navigationPatterns :=
           js_slice_from (-49) (navigationPatterns current) ++
           [{| fromQuestion := from; toQuestion := to; nav_timestamp := now;
               reason := Some r |}] |} w.

(** [analytics.update(current => ({ ...current, questionsRevisited:
    current.questionsRevisited + 1 }))] *)
Definition countRevisit (w : Store) : Store :=
  let current := analytics w in
  set_analytics
    {| totalTimeSpent := totalTimeSpent current;
       averageQuestionTime := averageQuestionTime current;
       questionsRevisited := questionsRevisited current + 1;
       flagsUsed := flagsUsed current;
       navigationPatterns := navigationPatterns current |} w.

(** [startAutoSave(examId)]: a running timer is cleared and a new one armed. *)
Definition startAutoSave (id : string) (w : Store) : Store :=
  {| quiz := quiz w; answerHistory := answerHistory w;
     stateSnapshots := stateSnapshots w;
     currentSnapshotIndex := currentSnapshotIndex w; analytics := analytics w;
     autoSaveTimer := Some (id, autoSaveInterval config);
     storageCalls := storageCalls w |}.

(** One tick of the interval armed by [startAutoSave]. *)
Definition autoSaveTick (now : Z) (w : Store) : Store :=
  match autoSaveTimer w with
  | None => w
  | Some (id, _) =>
      if negb (submitted (quiz w)) then call_storage (saveQuizState id (quiz w) now) w
      else w
  end.

(** The [else] branch of [init]: a fresh session, saved at once. *)
Definition startFresh (now : Z) (e : Exam) (m : QuizMode) (w : Store) : Store :=
  let newState :=
    {| examId := exam_id e; mode := m; currentQuestionIndex := 0;
       answers := ∅; flaggedQuestions := ∅; startTime := now;
       endTime := None; submitted := false; timeElapsed := None;
       isReview := None |} in
  set_analytics emptyAnalytics
    (call_storage (saveQuizState (exam_id e) newState now) (set_quiz newState w)).

(** [init(exam, mode)]; [savedState] is what
    [StorageManager.loadQuizState(exam.id)] returned. *)
Definition init (now : Z) (savedState : option QuizState) (e : Exam) (m : QuizMode)
    (w : Store) : Store :=
  let w1 :=
    match savedState with
    | Some s =>
        if negb (submitted s) then
          set_analytics
            {| totalTimeSpent := default 0 (timeElapsed s);
               averageQuestionTime := 0%Q; questionsRevisited := 0;
               flagsUsed := Z.of_nat (size (flaggedQuestions s));
               navigationPatterns := [] |}
            (set_quiz s w)
        else startFresh now e m w
    | None => startFresh now e m w
    end in
  let currentState := quiz w1 in
  startAutoSave (exam_id e)
    {| quiz := quiz w1; answerHistory := [];
       stateSnapshots := [createSnapshot currentState now];
       currentSnapshotIndex := 0; analytics := analytics w1;
       autoSaveTimer := autoSaveTimer w1; storageCalls := storageCalls w1 |}.

(** [goToQuestion(index)] *)
Definition goToQuestion (now : Z) (index : Z) (w : Store) : Store :=
  let state := quiz w in
  let w1 := trackNavigation now (currentQuestionIndex state) index reason_jump w in
  let w2 :=
    if enableAnalytics config && (index <? currentQuestionIndex state)
    then countRevisit w1 else w1 in
  let newState := with_currentQuestionIndex index state in
  set_quiz newState (call_storage (saveQuizState (examId state) newState now) w2).

(** [nextQuestion()] *)
Definition nextQuestion (now : Z) (w : Store) : Store :=
  let state := quiz w in
  let newIndex := Z.min (currentQuestionIndex state + 1) 999 in
  let w1 := trackNavigation now (currentQuestionIndex state) newIndex reason_next w in
  let newState := with_currentQuestionIndex newIndex state in
  set_quiz newState (call_storage (saveQuizState (examId state) newState now) w1).

(** [previousQuestion()] *)
Definition previousQuestion (now : Z) (w : Store) : Store :=
  let state := quiz w in
  let newIndex := Z.max (currentQuestionIndex state - 1) 0 in
  let w1 := trackNavigation now (currentQuestionIndex state) newIndex reason_previous w in
  let w2 := if enableAnalytics config then countRevisit w1 else w1 in
  let newState := with_currentQuestionIndex newIndex state in
  set_quiz newState (call_storage (saveQuizState (examId state) newState now) w2).

(** The map update shared by [answerQuestion] and [undoAnswer]:
    [set] for a non-empty selection, [delete] for an empty one. *)
Definition storeSelection (questionId : string) (selection : list string)
    (m : gmap string (list string)) : gmap string (list string) :=
  if (0 <? length selection)%nat then <[questionId := selection]> m
  else delete questionId m.

(** [answerQuestion(questionId, selectedAnswers)] *)
Definition answerQuestion (now : Z) (questionId : string) (selectedAnswers : list string)
    (w : Store) : Store :=
  let state := quiz w in
  let previousAnswers := default [] (answers state !! questionId) in
  let history :=
    js_slice_from (- maxHistorySize config + 1) (answerHistory w) ++
    [{| entry_questionId := questionId; entry_previousAnswers := previousAnswers;
        entry_newAnswers := selectedAnswers; entry_timestamp := now |}] in
  let newAnswers := storeSelection questionId selectedAnswers (answers state) in
  let newState := with_answers newAnswers state in
  let snapshots :=
    js_slice_from (- maxHistorySize config + 1) (stateSnapshots w) ++
    [createSnapshot newState now] in
  {| quiz := newState; answerHistory := history; stateSnapshots := snapshots;
     currentSnapshotIndex := currentSnapshotIndex w + 1;
     analytics := analytics w; autoSaveTimer := autoSaveTimer w;
     storageCalls := storageCalls w ++ [saveQuizState (examId state) newState now] |}.

(** [toggleFlag(questionId)] *)
Definition toggleFlag (now : Z) (questionId : string) (w : Store) : Store :=
  let state := quiz w in
  let wasRemoved := bool_decide (questionId ∈ flaggedQuestions state) in
  let newFlagged :=
    if wasRemoved then flaggedQuestions state ∖ {[questionId]}
    else {[questionId]} ∪ flaggedQuestions state in
  let w1 :=
    if enableAnalytics config then
      let current := analytics w in
      set_analytics
        {| totalTimeSpent := totalTimeSpent current;
           averageQuestionTime := averageQuestionTime current;
           questionsRevisited := questionsRevisited current;
           flagsUsed := if wasRemoved then flagsUsed current - 1 else flagsUsed current + 1;
           navigationPatterns := navigationPatterns current |} w
    else w in
  let newState := with_flaggedQuestions newFlagged state in
  set_quiz newState (call_storage (saveQuizState (examId state) newState now) w1).

(** [undoAnswer()] *)
Definition undoAnswer (now : Z) (w : Store) : bool * Store :=
  let history := answerHistory w in
  let currentIndex := currentSnapshotIndex w in
  if (length history =? 0)%nat || (currentIndex <=? 0) then (false, w)
  else
    match last history with
    | None => (false, w)
    | Some lastEntry =>
        let state := quiz w in
        let newAnswers :=
          storeSelection (entry_questionId lastEntry) (entry_previousAnswers lastEntry)
            (answers state) in
        let newState := with_answers newAnswers state in
        (true,
         {| quiz := newState;
            answerHistory := js_slice_drop_last history;
            stateSnapshots := stateSnapshots w;
            currentSnapshotIndex := Z.max 0 (currentIndex - 1);
            analytics := analytics w; autoSaveTimer := autoSaveTimer w;
            storageCalls :=
              storageCalls w ++ [saveQuizState (examId state) newState now] |})
    end.

(** [redoAnswer()].  [snapshots[currentIndex + 1]] is [undefined] for an
    index below the array, and [restoreFromSnapshot(undefined)] throws. *)
Definition redoAnswer (now : Z) (w : Store) : js_outcome (bool * Store) :=
  let snapshots := stateSnapshots w in
  let currentIndex := currentSnapshotIndex w in
  if Z.of_nat (length snapshots) - 1 <=? currentIndex then returned (false, w)
  else
    match js_index snapshots (currentIndex + 1) with
    | None => threw "TypeError"
    | Some nextSnapshot =>
        let restoredState := restoreFromSnapshot nextSnapshot in
        returned
          (true,
           {| quiz := restoredState; answerHistory := answerHistory w;
              stateSnapshots := snapshots;
              currentSnapshotIndex := currentIndex + 1;
              analytics := analytics w; autoSaveTimer := autoSaveTimer w;
              storageCalls :=
                storageCalls w ++
                [saveQuizState (examId restoredState) restoredState now] |})
    end.

(** [submit()] *)
Definition submit (now : Z) (w : Store) : Store :=
  let state := quiz w in
  let totalTime := now - startTime state in
  let current := analytics w in
  let answered := size (answers state) in
  let newState :=
    {| examId := examId state; mode := mode state;
       currentQuestionIndex := currentQuestionIndex state;
       answers := answers state; flaggedQuestions := flaggedQuestions state;
       startTime := startTime state; endTime := Some now; submitted := true;
       timeElapsed := Some totalTime; isReview := isReview state |} in
  {| quiz := newState; answerHistory := answerHistory w;
     stateSnapshots := stateSnapshots w;
     currentSnapshotIndex := currentSnapshotIndex w;
     analytics :=
       {| totalTimeSpent := totalTime;
          averageQuestionTime :=
            if (0 <? answered)%nat then js_div (inject_Z totalTime) (Q_of_nat answered)
            else 0%Q;
          questionsRevisited := questionsRevisited current;
          flagsUsed := flagsUsed current;
          navigationPatterns := navigationPatterns current |};
     autoSaveTimer := None;
     storageCalls := storageCalls w ++ [clearQuizState (examId state)] |}.

(** [clear()]: [defaultState] is the object built when the store was
    created, at time [created]. *)
Definition clear (created : Z) (w : Store) : Store :=
  {| quiz := defaultState created; answerHistory := []; stateSnapshots := [];
     currentSnapshotIndex := -1; analytics := emptyAnalytics;
     autoSaveTimer := None; storageCalls := storageCalls w |}.

(** [enableReview(examId)] *)
Definition enableReview (id : string) (w : Store) : Store :=
  let state := quiz w in
  set_quiz
    {| examId := id; mode := mode state;
       currentQuestionIndex := currentQuestionIndex state;
       answers := answers state; flaggedQuestions := flaggedQuestions state;
       startTime := startTime state; endTime := endTime state;
       submitted := submitted state; timeElapsed := timeElapsed state;
       isReview := Some true |} w.

(** [canUndo()] and [canRedo()] *)
Definition canUndo (w : Store) : bool :=
  (0 <? length (answerHistory w))%nat && (0 <? currentSnapshotIndex w).

Definition canRedo (w : Store) : bool :=
  currentSnapshotIndex w <? Z.of_nat (length (stateSnapshots w)) - 1.

End operations.

(** *** Derived stores *)

(** [currentQuestion] *)
Definition currentQuestion (q : QuizState) (currentExam : option Exam)
    : js_nullable Question :=
  match currentExam with
  | None => js_null
  | Some e =>
      if Z.of_nat (length (exam_questions e)) <=? currentQuestionIndex q then js_null
      else
        match js_index (exam_questions e) (currentQuestionIndex q) with
        | Some question => js_value question
        | None => js_undefined
        end
  end.

Record Progress := {
  answered : nat;
  total : nat;
  percentage : Q
}.

(** [quizProgress] *)
Definition quizProgress (q : QuizState) (currentExam : option Exam) : Progress :=
  match currentExam with
  | None => {| answered := 0; total := 0; percentage := 0%Q |}
  | Some e =>
      let total := length (exam_questions e) in
      let answered := size (answers q) in
      {| answered := answered; total := total;
         percentage :=
           if (0 <? total)%nat then js_mul (js_div (Q_of_nat answered) (Q_of_nat total)) 100
           else 0%Q |}
  end.

(** The test of [navigationItems] on an answered question: the two arrays
    are compared as [Set]s.  ([sort()] sorts in place, so this derived
    store also reorders the arrays it reads from the answer map and from
    the exam; the test only depends on their elements, and the embedding
    keeps the arrays as the store operations wrote them.) *)
Definition selectionMatches (userAnswers correctAnswers : list string) : bool :=
  let userAnswersSet := js_new_Set (js_sort userAnswers) in
  let correctAnswersSet := js_new_Set (js_sort correctAnswers) in
  (size userAnswersSet =? size correctAnswersSet)%nat &&
  forallb (λ answer, bool_decide (answer ∈ correctAnswersSet)) (elements userAnswersSet).

(** The callback of [questions.map] in [navigationItems]. *)
Definition navigationItem (q : QuizState) (question : Question) (index : nat)
    : NavigationItem :=
  let isAnswered := bool_decide (is_Some (answers q !! question_id question)) in
  {| questionNumber := Z.of_nat index + 1;
     isAnswered := isAnswered;
     isFlagged := bool_decide (question_id question ∈ flaggedQuestions q);
     isActive := bool_decide (Z.of_nat index = currentQuestionIndex q);
     isCorrect :=
       if isAnswered then
         Some (selectionMatches (default [] (answers q !! question_id question))
                 (question_correctAnswers question))
       else None |}.

(** [navigationItems] *)
Definition navigationItems (q : QuizState) (currentExam : option Exam)
    : list NavigationItem :=
  match currentExam with
  | None => []
  | Some e => imap (λ index question, navigationItem q question index) (exam_questions e)
  end.

End QuizStore.

(** ** [StorageManager] *)

Module StorageManager.

Inductive StorageErrorType :=
  quota_exceeded | corrupted_data | network_error | permission_denied.

Global Instance StorageErrorType_eq_dec : EqDecision StorageErrorType.
Proof. solve_decision. Defined.

Record StorageError := {
  error_type : StorageErrorType;
  error_message : string;
  error_timestamp : Z;
  error_recoverable : bool
}.

(** A value thrown by the browser: whether it is an [Error], and its
    [name] and [message]. *)
Record JsError := {
  thrown_isError : bool;
  thrown_name : string;
  thrown_message : string
}.

(** The browser under the manager.  [setItem_throws ls key value] is the
    error with which [localStorage.setItem(key, value)] fails on the
    contents [ls] (quota, private mode), [getItem_throws key] the one
    with which [localStorage.getItem(key)] fails.  [evict] is the eviction
    pass of [checkAndCleanupStorage] (the [try] block that keeps the ten
    newest quiz states and the hundred newest results): which entries it
    removes is decided by [JSON.parse] and [Date] on the stored text, so it
    is taken as a transformer of the contents with the flag it returns. *)
Record Browser := {
  browser : bool;
  setItem_throws : gmap string string → string → string → option JsError;
  getItem_throws : string → option JsError;
  evict : gmap string string → bool * gmap string string
}.

(** The state that the manager works on: the contents of [localStorage]
    and the errors handed to the [onError] callbacks, oldest first. *)
Record Storage := {
  localStorage : gmap string string;
  emitted : list StorageError
}.

Definition QUIZ_STATE_PREFIX : string := "quiz_state_".
Definition QUIZ_RESULTS_KEY : string := "quiz_results".
Definition USER_PREFERENCES_KEY : string := "user_preferences".
Definition BACKUP_SUFFIX : string := "_backup".
Definition MAX_STORAGE_SIZE : Z := 5 * 1024 * 1024.
Definition WARNING_THRESHOLD : Q := binary64 (8 # 10).

(** The names of the members of [Storage.prototype] and of
    [Object.prototype].  [localStorage] shows a stored key as a property of
    its own unless the key is one of these names: then the member hides
    it, [hasOwnProperty] is false for it and [localStorage[key]] is the
    member.  ([getItem] and [setItem] reach every key.) *)
Definition PROTOTYPE_MEMBERS : list string :=
  ["length"; "key"; "getItem"; "setItem"; "removeItem"; "clear";
   "constructor"; "hasOwnProperty"; "isPrototypeOf"; "propertyIsEnumerable";
   "toLocaleString"; "toString"; "valueOf"; "__proto__";
   "__defineGetter__"; "__defineSetter__"; "__lookupGetter__"; "__lookupSetter__"].

(** [localStorage.hasOwnProperty(key)] for a key that is stored. *)
Definition hasOwnProperty (key : string) : bool :=
  negb (bool_decide (key ∈ PROTOTYPE_MEMBERS)).

(** The entries that [localStorage] shows as properties of its own. *)
Definition ownEntries (ls : gmap string string) : gmap string string :=
  filter (λ entry, hasOwnProperty entry.1 = true) ls.

Definition set_localStorage (ls : gmap string string) (st : Storage) : Storage :=
  {| localStorage := ls; emitted := emitted st |}.

(** [emitError(error)] *)
Definition emitError (e : StorageError) (st : Storage) : Storage :=
  {| localStorage := localStorage st; emitted := emitted st ++ [e] |}.

(** A truthy string: neither [null] nor empty. *)
Definition truthy (data : option string) : option string :=
  match data with
  | Some s => if (String.length s =? 0)%nat then None else Some s
  | None => None
  end.

Section manager.
Variable env : Browser.

(** [localStorage.getItem(key)]: the value, [null], or an exception. *)
Definition getItem (key : string) (st : Storage) : JsError + option string :=
  match getItem_throws env key with
  | Some e => inl e
  | None => inr (localStorage st !! key)
  end.

(** [localStorage.setItem(key, value)]: a failed call leaves the contents
    as they were. *)
Definition setItem (key value : string) (st : Storage) : JsError + Storage :=
  match setItem_throws env (localStorage st) key value with
  | Some e => inl e
  | None => inr (set_localStorage (<[key := value]> (localStorage st)) st)
  end.

(** [localStorage.removeItem(key)] *)
Definition removeItem (key : string) (st : Storage) : Storage :=
  set_localStorage (delete key (localStorage st)) st.

(** The total length of the keys and values of [ls]. *)
Definition storageUsed (ls : gmap string string) : Z :=
  map_fold (λ key value used, used + (Z.of_nat (String.length value) + Z.of_nat (String.length key)))
    0 ls.

(** [getStorageInfo()]: the sizes by category, and the warnings. *)
Record Breakdown := {
  quizStates : Z;
  results : Z;
  preferences : Z;
  backups : Z;
  other : Z
}.

Record StorageInfo := {
  info_used : Z;
  info_available : Z;
  info_percentage : Q;
  info_breakdown : Breakdown;
  info_warnings : list string
}.

(** The body of the [for (const key in localStorage)] loop, for a key
    that passed the test of [hasOwnProperty]. *)
Definition countEntry (key value : string) (acc : Z * Breakdown) : Z * Breakdown :=
  let size := Z.of_nat (String.length value) + Z.of_nat (String.length key) in
  let b := acc.2 in
  (acc.1 + size,
   if js_startsWith QUIZ_STATE_PREFIX key then
     {| quizStates := quizStates b + size; results := results b;
        preferences := preferences b; backups := backups b; other := other b |}
   else if bool_decide (key = QUIZ_RESULTS_KEY) then
     {| quizStates := quizStates b; results := results b + size;
        preferences := preferences b; backups := backups b; other := other b |}
   else if bool_decide (key = USER_PREFERENCES_KEY) then
     {| quizStates := quizStates b; results := results b;
        preferences := preferences b + size; backups := backups b; other := other b |}
   else if js_endsWith BACKUP_SUFFIX key then
     {| quizStates := quizStates b; results := results b;
        preferences := preferences b; backups := backups b + size; other := other b |}
   else
     {| quizStates := quizStates b; results := results b;
        preferences := preferences b; backups := backups b; other := other b + size |}).

Definition emptyBreakdown : Breakdown :=
  {| quizStates := 0; results := 0; preferences := 0; backups := 0; other := 0 |}.

(** The sum of the five categories. *)
Definition breakdownTotal (b : Breakdown) : Z :=
  quizStates b + results b + preferences b + backups b + other b.

(** The loop: [for ... in] visits the stored keys that no member hides
    and the names of the members, and [hasOwnProperty] lets the former
    through. *)
Definition countOwnEntry (key value : string) (acc : Z * Breakdown) : Z * Breakdown :=
  if hasOwnProperty key then countEntry key value acc else acc.

Definition getStorageInfo (st : Storage) : StorageInfo :=
  if negb (browser env) then
    {| info_used := 0; info_available := 0; info_percentage := 0%Q;
       info_breakdown := emptyBreakdown; info_warnings := [] |}
  else
    let '(used, breakdown) :=
      map_fold countOwnEntry (0, emptyBreakdown) (localStorage st) in
    let available := MAX_STORAGE_SIZE in
    let percentage := js_mul (js_div (inject_Z used) (inject_Z available)) 100 in
    let warnings1 :=
      if negb (Qle_bool percentage 90) then
        ["Storage is critically low (>90%). Consider clearing old data."]
      else if negb (Qle_bool percentage (js_mul WARNING_THRESHOLD 100)) then
        ["Storage is running low. Some cleanup may be needed."]
      else [] in
    let warnings2 :=
      if negb (Qle_bool (inject_Z (backups breakdown))
                 (js_mul (inject_Z available) (binary64 (1 # 10)))) then
        ["Backup files are taking up significant space."]
      else [] in
    {| info_used := used; info_available := available; info_percentage := percentage;
       info_breakdown := breakdown; info_warnings := warnings1 ++ warnings2 |}.

(** [createBackup(key)] *)
Definition createBackup (key : string) (st : Storage) : bool * Storage :=
  if negb (browser env) then (false, st)
  else
    match getItem key st with
    | inl _ => (false, st)
    | inr data =>
        match truthy data with
        | Some d =>
            match setItem (key +:+ BACKUP_SUFFIX) d st with
            | inr st' => (true, st')
            | inl _ => (false, st)
            end
        | None => (false, st)
        end
    end.

(** [restoreFromBackup(key)] *)
Definition restoreFromBackup (key : string) (st : Storage) : bool * Storage :=
  if negb (browser env) then (false, st)
  else
    match getItem (key +:+ BACKUP_SUFFIX) st with
    | inl _ => (false, st)
    | inr backup =>
        match truthy backup with
        | Some b =>
            match setItem key b st with
            | inr st' => (true, removeItem (key +:+ BACKUP_SUFFIX) st')
            | inl _ => (false, st)
            end
        | None => (false, st)
        end
    end.

(** [checkAndCleanupStorage()] *)
Definition checkAndCleanupStorage (now : Z) (st : Storage) : bool * Storage :=
  if negb (browser env) then (true, st)
  else
    let usage := getStorageInfo st in
    if Qle_bool (js_mul WARNING_THRESHOLD 100) (info_percentage usage) then
      let st1 :=
        emitError
          {| error_type := quota_exceeded;
             error_message :=
               "Storage usage is at " +:+ pretty (js_Math_round (info_percentage usage)) +:+
               "%. Some old data will be cleaned up.";
             error_timestamp := now;
             error_recoverable := true |} st in
      let '(ok, ls) := evict env (localStorage st1) in
      (ok, set_localStorage ls st1)
    else (true, st).

(** The [errorType] chosen in the [catch] of [safeSetItem]. *)
Definition classifyWriteError (e : JsError) : StorageErrorType :=
  if thrown_isError e && bool_decide (thrown_name e = "QuotaExceededError")
  then quota_exceeded
  else permission_denied.

(** [safeSetItem(key, value)] *)
Definition safeSetItem (now : Z) (key value : string) (st : Storage) : bool * Storage :=
  if negb (browser env) then (false, st)
  else
    let '(clean, st1) := checkAndCleanupStorage now st in
    if negb clean then
      (false,
       emitError
         {| error_type := quota_exceeded;
            error_message := "Storage cleanup failed, cannot save data";
            error_timestamp := now;
            error_recoverable := false |} st1)
    else
      let st2 := (createBackup key st1).2 in
      match setItem key value st2 with
      | inr st3 => (true, st3)
      | inl e =>
          let errorType := classifyWriteError e in
          let st3 :=
            emitError
              {| error_type := errorType;
                 error_message :=
                   "Failed to save " +:+ key +:+ ": " +:+ thrown_message e;
                 error_timestamp := now;
                 error_recoverable := bool_decide (errorType = quota_exceeded) |} st2 in
          (false, (restoreFromBackup key st3).2)
      end.

(** [safeGetItem(key)] *)
Definition safeGetItem (now : Z) (key : string) (st : Storage) : option string * Storage :=
  if negb (browser env) then (None, st)
  else
    match getItem key st with
    | inr data => (data, st)
    | inl e =>
        let st1 :=
          emitError
            {| error_type := corrupted_data;
               error_message :=
                 "Failed to read " +:+ key +:+ ": " +:+ thrown_message e;
               error_timestamp := now;
               error_recoverable := false |} st in
        match getItem (key +:+ BACKUP_SUFFIX) st1 with
        | inr backup => (truthy backup, st1)
        | inl _ => (None, st1)
        end
    end.

(** [clearQuizState(examId)] *)
Definition clearQuizState (id : string) (st : Storage) : Storage :=
  if negb (browser env) then st
  else removeItem (QUIZ_STATE_PREFIX +:+ id) st.

End manager.

End StorageManager.

(** ** The offline store ([createOfflineStore]) *)

Module OfflineStore.

(** [PendingAction['type']].  The TypeScript union has four members; a
    record read back from [localStorage] can carry any other tag, which is
    the [default] case of [processPendingAction]. *)
Inductive ActionType :=
  | action_answer
  | action_flag
  | action_navigation
  | action_submit
  | action_unknown (tag : string).

Record PendingAction := {
  action_id : string;
  action_type : ActionType;
  action_data : string;
  action_timestamp : Z;
  retryCount : Z
}.

Record OfflineState := {
  isOnline : bool;
  pendingActions : list PendingAction;
  lastSyncTime : option Z
}.

Inductive ConsoleLine :=
  | console_log (text : string)
  | console_warn (text : string)
  | console_error (text : string).

(** The functions handed to [setTimeout]. *)
Inductive Callback :=
  | retryCallback (action : PendingAction)
  | immediateCallback (action : PendingAction).

Record Timer := {
  timer_handle : nat;
  timer_delay : Z;
  timer_callback : Callback
}.

(** The variables of the closure: the writable [OfflineState] store, the
    [retryTimeouts] map, the timers that are armed and have not fired, the
    next timer handle, the console, and the states handed to
    [saveOfflineState]. *)
Record World := {
  offline : OfflineState;
  retryTimeouts : gmap string nat;
  timers : list Timer;
  nextHandle : nat;
  console : list ConsoleLine;
  savedStates : list OfflineState
}.

Definition with_retryCount (n : Z) (a : PendingAction) : PendingAction :=
  {| action_id := action_id a; action_type := action_type a;
     action_data := action_data a; action_timestamp := action_timestamp a;
     retryCount := n |}.

Definition with_pendingActions (l : list PendingAction) (s : OfflineState) : OfflineState :=
  {| isOnline := isOnline s; pendingActions := l; lastSyncTime := lastSyncTime s |}.

Definition with_isOnline (b : bool) (s : OfflineState) : OfflineState :=
  {| isOnline := b; pendingActions := pendingActions s; lastSyncTime := lastSyncTime s |}.

Definition set_offline (s : OfflineState) (w : World) : World :=
  {| offline := s; retryTimeouts := retryTimeouts w; timers := timers w;
     nextHandle := nextHandle w; console := console w;
     savedStates := savedStates w |}.

Definition print (line : ConsoleLine) (w : World) : World :=
  {| offline := offline w; retryTimeouts := retryTimeouts w; timers := timers w;
     nextHandle := nextHandle w; console := console w ++ [line];
     savedStates := savedStates w |}.

(** [saveOfflineState(state)] *)
Definition saveOfflineState (s : OfflineState) (w : World) : World :=
  {| offline := offline w; retryTimeouts := retryTimeouts w; timers := timers w;
     nextHandle := nextHandle w; console := console w;
     savedStates := savedStates w ++ [s] |}.

(** [setTimeout(callback, delay)]: arms a timer and returns its handle. *)
Definition setTimeout (callback : Callback) (delay : Z) (w : World) : nat * World :=
  (nextHandle w,
   {| offline := offline w; retryTimeouts := retryTimeouts w;
      timers := timers w ++
        [{| timer_handle := nextHandle w; timer_delay := delay;
            timer_callback := callback |}];
      nextHandle := S (nextHandle w); console := console w;
      savedStates := savedStates w |}).

(** [clearTimeout(handle)] *)
Definition clearTimeout (handle : nat) (w : World) : World :=
  {| offline := offline w; retryTimeouts := retryTimeouts w;
     timers := filter (λ t, timer_handle t ≠ handle) (timers w);
     nextHandle := nextHandle w; console := console w;
     savedStates := savedStates w |}.

Definition set_retryTimeouts (m : gmap string nat) (w : World) : World :=
  {| offline := offline w; retryTimeouts := m; timers := timers w;
     nextHandle := nextHandle w; console := console w;
     savedStates := savedStates w |}.

(** [processPendingAction(action)] *)
Definition processPendingAction (action : PendingAction) (w : World) : bool * World :=
  match action_type action with
  | action_answer =>
      (true, print (console_log ("Processing answer action: " +:+ action_data action)) w)
  | action_flag =>
      (true, print (console_log ("Processing flag action: " +:+ action_data action)) w)
  | action_navigation =>
      (true, print (console_log ("Processing navigation action: " +:+ action_data action)) w)
  | action_submit =>
      (true, print (console_log ("Processing submit action: " +:+ action_data action)) w)
  | action_unknown tag =>
      (false,
       print (console_error ("Failed to process action: " +:+ action_id action +:+
                             " Unknown action type: " +:+ tag)) w)
  end.

(** The delay of [scheduleRetry]:
    [Math.min(1000 * Math.pow(2, action.retryCount), 30000)], for the
    non-negative integer that [retryCount] is. *)
Definition retryDelay (count : Z) : Z :=
  Z.min (1000 * 2 ^ count) 30000.

(** [scheduleRetry(action)]: what the call itself does; the function it
    hands to [setTimeout] is [runRetry] below. *)
Definition scheduleRetry (action : PendingAction) (w : World) : World :=
  if 3 <=? retryCount action then
    print (console_warn ("Max retries reached for action: " +:+ action_id action)) w
  else
    let delay := retryDelay (retryCount action) in
    let '(timeout, w1) := setTimeout (retryCallback action) delay w in
    set_retryTimeouts (<[action_id action := timeout]> (retryTimeouts w1)) w1.

(** The callback armed by [scheduleRetry]. *)
Definition runRetry (action : PendingAction) (w : World) : World :=
  let '(success, w1) := processPendingAction action w in
  if success then
    let state := offline w1 in
    let w2 :=
      set_offline
        (with_pendingActions
           (filter (λ a, action_id a ≠ action_id action) (pendingActions state)) state)
        w1 in
    set_retryTimeouts (delete (action_id action) (retryTimeouts w2)) w2
  else
    let state := offline w1 in
    let w2 :=
      set_offline
        (with_pendingActions
           (map (λ a, if bool_decide (action_id a = action_id action)
                      then with_retryCount (retryCount a + 1) a else a)
              (pendingActions state)) state)
        w1 in
    scheduleRetry (with_retryCount (retryCount action + 1) action) w2.

(** The callback armed by [addPendingAction] when online. *)
Definition runImmediate (action : PendingAction) (w : World) : World :=
  let '(success, w1) := processPendingAction action w in
  if success then
    let state := offline w1 in
    set_offline
      (with_pendingActions
         (filter (λ a, action_id a ≠ action_id action) (pendingActions state)) state)
      w1
  else scheduleRetry action w1.

(** The event loop fires the timer with handle [handle]. *)
Definition fire (handle : nat) (w : World) : World :=
  match list_find (λ t, timer_handle t = handle) (timers w) with
  | None => w
  | Some (_, t) =>
      let w1 := clearTimeout handle w in
      match timer_callback t with
      | retryCallback action => runRetry action w1
      | immediateCallback action => runImmediate action w1
      end
  end.

(** [processPendingAction] over the whole queue, in order
    ([Promise.allSettled] of the [map]). *)
Fixpoint processAll (actions : list PendingAction) (w : World) : list bool * World :=
  match actions with
  | [] => ([], w)
  | a :: rest =>
      let '(r, w1) := processPendingAction a w in
      let '(rs, w2) := processAll rest w1 in
      (r :: rs, w2)
  end.

(** [syncPendingActions()] *)
Definition syncPendingActions (now : Z) (w : World) : World :=
  let state := offline w in
  if negb (isOnline state) || (length (pendingActions state) =? 0)%nat then w
  else
    let w0 :=
      print (console_log ("Syncing " +:+ pretty (length (pendingActions state)) +:+
                          " pending actions...")) w in
    let '(results, w1) := processAll (pendingActions state) w0 in
    let currentState := offline w1 in
    let outcome := zip results (pendingActions currentState) in
    let successfulActions : gset string :=
      list_to_set (map (λ ra, action_id ra.2) (filter (λ ra, ra.1 = true) outcome)) in
    let failedActions := map snd (filter (λ ra, ra.1 = false) outcome) in
    let w2 := fold_left (λ acc a, scheduleRetry a acc) failedActions w1 in
    let newState :=
      {| isOnline := isOnline currentState;
         pendingActions :=
           filter (λ a, action_id a ∉ successfulActions) (pendingActions currentState);
         lastSyncTime := Some now |} in
    set_offline newState (saveOfflineState newState w2).

(** [addPendingAction(type, data)]; [id] is what [generateId()] returned. *)
Definition addPendingAction (now : Z) (id : string) (type : ActionType) (data : string)
    (w : World) : World :=
  let action :=
    {| action_id := id; action_type := type; action_data := data;
       action_timestamp := now; retryCount := 0 |} in
  let newState :=
    with_pendingActions (pendingActions (offline w) ++ [action]) (offline w) in
  let w1 := set_offline newState (saveOfflineState newState w) in
  if isOnline (offline w1) then (setTimeout (immediateCallback action) 0 w1).2
  else w1.

(** [clearPending()] *)
Definition clearPending (w : World) : World :=
  let w1 :=
    map_fold (λ _ timeout acc, clearTimeout timeout acc) w (retryTimeouts w) in
  let w2 := set_retryTimeouts ∅ w1 in
  let newState := with_pendingActions [] (offline w2) in
  set_offline newState (saveOfflineState newState w2).

(** [removePendingAction(actionId)] *)
Definition removePendingAction (actionId : string) (w : World) : World :=
  let w1 :=
    match retryTimeouts w !! actionId with
    | Some timeout =>
        let w' := clearTimeout timeout w in
        set_retryTimeouts (delete actionId (retryTimeouts w')) w'
    | None => w
    end in
  let newState :=
    with_pendingActions
      (filter (λ a, action_id a ≠ actionId) (pendingActions (offline w1))) (offline w1) in
  set_offline newState (saveOfflineState newState w1).

(** [setOffline(offline)] *)
Definition setOffline (off : bool) (w : World) : World :=
  set_offline (with_isOnline (negb off) (offline w)) w.

(** Whether [processPendingAction] has a [case] for the type. *)
Definition isKnownType (type : ActionType) : bool :=
  match type with
  | action_unknown _ => false
  | _ => true
  end.

(** [handleOnline] and [handleOffline], the listeners of the window's
    [online] and [offline] events. *)
Definition handleOnline (now : Z) (w : World) : World :=
  let w1 :=
    print (console_log "Connection restored, syncing pending actions...") w in
  syncPendingActions now (set_offline (with_isOnline true (offline w1)) w1).

Definition handleOffline (w : World) : World :=
  let w1 := print (console_log "Connection lost, entering offline mode") w in
  set_offline (with_isOnline false (offline w1)) w1.

(** The derived store [syncStatus] *)
Inductive SyncStatus := status_offline | status_synced | status_pending.

Definition syncStatus (s : OfflineState) : SyncStatus :=
  if negb (isOnline s) then status_offline
  else if (length (pendingActions s) =? 0)%nat then status_synced
  else status_pending.

End OfflineStore.

(** ** The exam page: its guarded navigation handlers *)

Module ExamPage.
Import QuizStore.

(** [$: canGoPrevious] and [$: canGoNext] *)
Definition canGoPrevious (q : QuizState) : bool :=
  0 <? currentQuestionIndex q.

Definition canGoNext (q : QuizState) (currentExam : option Exam) : bool :=
  match currentExam with
  | None => false
  | Some e => currentQuestionIndex q <? Z.of_nat (length (exam_questions e)) - 1
  end.

(** [goToPrevious()] and [goToNext()] *)
Definition goToPrevious (config : StateManagerConfig) (now : Z) (w : Store) : Store :=
  if canGoPrevious (quiz w) then previousQuestion config now w else w.

Definition goToNext (config : StateManagerConfig) (now : Z) (currentExam : option Exam)
    (w : Store) : Store :=
  if canGoNext (quiz w) currentExam then nextQuestion config now w else w.

End ExamPage.

(** ** Sequences of calls on the quiz store *)

Module Session.
Import QuizStore.

(** One [answerQuestion(questionId, selectedAnswers)] call made at [call_time]. *)
Record AnswerCall := {
  call_time : Z;
  call_questionId : string;
  call_selectedAnswers : list string
}.

(** The calls of [calls], in order. *)
Definition answerAll (config : StateManagerConfig) (calls : list AnswerCall)
    (w : Store) : Store :=
  fold_left
    (λ acc c, answerQuestion config (call_time c) (call_questionId c)
                (call_selectedAnswers c) acc)
    calls w.

(** One [undoAnswer()] call at each of the times of [times], in order. *)
Definition undoAll (times : list Z) (w : Store) : Store :=
  fold_left (λ acc now, (undoAnswer now acc).2) times w.

(** [undoAnswer()] and then, if it returned, [redoAnswer()]: the store
    after the pair, when neither call threw. *)
Definition undoThenRedo (now1 now2 : Z) (w : Store)
    : option (bool * bool * Store) :=
  let '(undone, w1) := undoAnswer now1 w in
  match redoAnswer now2 w1 with
  | returned (redone, w2) => Some (undone, redone, w2)
  | threw _ => None
  end.

(** No stored selection is the empty array: [answerQuestion] and
    [undoAnswer] delete the key instead. *)
Definition noEmptySelection (m : gmap string (list string)) : Prop :=
  ∀ questionId, m !! questionId ≠ Some [].

(** What holds of every session that [init] has set up: the snapshot
    cursor is not negative, and neither the answer map nor a snapshot holds
    an empty selection. *)
Definition sessionInvariant (w : Store) : Prop :=
  0 ≤ currentSnapshotIndex w ∧
  noEmptySelection (answers (quiz w)) ∧
  Forall (λ s, noEmptySelection (answers (restoreFromSnapshot s)))
    (stateSnapshots w).

(** One call on the store. *)
Inductive Operation :=
  | op_goToQuestion (now index : Z)
  | op_nextQuestion (now : Z)
  | op_previousQuestion (now : Z)
  | op_answerQuestion (now : Z) (questionId : string) (selectedAnswers : list string)
  | op_toggleFlag (now : Z) (questionId : string)
  | op_undoAnswer (now : Z)
  | op_redoAnswer (now : Z).

(** The store after the call, or the error it threw. *)
Definition perform (config : StateManagerConfig) (op : Operation) (w : Store)
    : js_outcome Store :=
  match op with
  | op_goToQuestion now index => returned (goToQuestion config now index w)
  | op_nextQuestion now => returned (nextQuestion config now w)
  | op_previousQuestion now => returned (previousQuestion config now w)
  | op_answerQuestion now questionId selectedAnswers =>
      returned (answerQuestion config now questionId selectedAnswers w)
  | op_toggleFlag now questionId => returned (toggleFlag config now questionId w)
  | op_undoAnswer now => returned (undoAnswer now w).2
  | op_redoAnswer now =>
      match redoAnswer now w with
      | returned (_, w') => returned w'
      | threw error => threw error
      end
  end.

(** The calls of [ops] in order, up to the first that throws. *)
Fixpoint performAll (config : StateManagerConfig) (ops : list Operation) (w : Store)
    : js_outcome Store :=
  match ops with
  | [] => returned w
  | op :: rest =>
      match perform config op w with
      | returned w' => performAll config rest w'
      | threw error => threw error
      end
  end.

End Session.

(** * Sample data *)

Module Samples.

Definition mkQuestion (id : string) (correct : list string) : Question :=
  {| question_id := id; question_number := 1;
     question_type := if (1 <? length correct)%nat then MCMA else MCQ;
     question_text := "Which option?";
     question_options := [];
     question_correctAnswers := correct;
     question_explanation := None |}.

(** A multi-answer question whose correct ids are B and D. *)
Definition question_BD : Question := mkQuestion "q1" ["B"; "D"].

(** A single-answer question whose correct id is A. *)
Definition question_A : Question := mkQuestion "q2" ["A"].

(** A question for which the parser found no correct option. *)
Definition question_none : Question := mkQuestion "q3" [].

(** A three-question exam. *)
Definition exam3 : Exam :=
  {| exam_id := "practice-exam-1"; exam_title := "Practice Exam 1";
     exam_questions :=
       [mkQuestion "1" ["1-B"]; mkQuestion "2" ["2-A"; "2-C"]; mkQuestion "3" ["3-D"]] |}.

(** A session on [exam3] started at time 0 with nothing saved before. *)
Definition active3 : QuizStore.Store :=
  QuizStore.init QuizStore.DEFAULT_CONFIG 0 None exam3 mode_exam
    (QuizStore.createQuizStore 0).

(** The same session after [submit()] at time 100. *)
Definition submitted3 : QuizStore.Store :=
  QuizStore.submit 100 active3.

(** Fifty-one answers, to fifty-one different questions. *)
Definition answers51 : list Session.AnswerCall :=
  map (λ i, {| Session.call_time := Z.of_nat i;
               Session.call_questionId := "q" +:+ pretty i;
               Session.call_selectedAnswers := ["A"] |})
      (seq 0 51).

(** The session after answering question 1 and moving to the third
    question. *)
Definition answeredThenMoved3 : QuizStore.Store :=
  QuizStore.goToQuestion QuizStore.DEFAULT_CONFIG 20 2
    (QuizStore.answerQuestion QuizStore.DEFAULT_CONFIG 10 "1" ["1-B"] active3).

(** The session after answering question 1, undoing, and answering it
    differently. *)
Definition answeredAgain3 : QuizStore.Store :=
  QuizStore.answerQuestion QuizStore.DEFAULT_CONFIG 30 "1" ["1-C"]
    (QuizStore.undoAnswer 20
       (QuizStore.answerQuestion QuizStore.DEFAULT_CONFIG 10 "1" ["1-B"] active3)).2.

(** A browser whose [localStorage] holds at most [capacity] characters of
    keys and values: a [setItem] that would go beyond throws a
    [QuotaExceededError].  Reads do not fail. *)
Definition quotaBrowser (capacity : Z) : StorageManager.Browser :=
  {| StorageManager.browser := true;
     StorageManager.setItem_throws := λ ls key value,
       if capacity <? StorageManager.storageUsed (<[key := value]> ls)
       then Some {| StorageManager.thrown_isError := true;
                    StorageManager.thrown_name := "QuotaExceededError";
                    StorageManager.thrown_message := "The quota has been exceeded." |}
       else None;
     StorageManager.getItem_throws := λ _, None;
     StorageManager.evict := λ ls, (true, ls) |}.

(** The key of the session record of [exam3], and three serialized states
    of growing size: before any answer, after one, after two. *)
Definition sessionKey : string := "quiz_state_practice-exam-1".
Definition saved0 : string := "{answers:[]}".
Definition saved1 : string := "{answers:[[1,[1-B]]]}".
Definition saved2 : string := "{answers:[[1,[1-B]],[2,[2-A]]]}".

(** A store that is full: the record holds [saved1], and its backup still
    holds [saved0] from the write before. *)
Definition fullStorage : StorageManager.Storage :=
  {| StorageManager.localStorage :=
       {[ sessionKey := saved1;
          sessionKey +:+ StorageManager.BACKUP_SUFFIX := saved0 ]};
     StorageManager.emitted := [] |}.

Definition fullCapacity : Z :=
  StorageManager.storageUsed (StorageManager.localStorage fullStorage).

(** The same store after [submit()] has cleared the session record: the
    backup is still there. *)
Definition clearedStorage : StorageManager.Storage :=
  StorageManager.clearQuizState (quotaBrowser fullCapacity) "practice-exam-1" fullStorage.

(** An action whose processing fails every time: its type is none of the
    four that [processPendingAction] handles. *)
Definition stuckAction : OfflineStore.PendingAction :=
  {| OfflineStore.action_id := "1700000000000-k3j9x2m1q";
     OfflineStore.action_type := OfflineStore.action_unknown "sync";
     OfflineStore.action_data := "{}";
     OfflineStore.action_timestamp := 0;
     OfflineStore.retryCount := 0 |}.

(** The offline store while online, with [stuckAction] in the queue and no
    timer armed. *)
Definition onlineWorld : OfflineStore.World :=
  {| OfflineStore.offline :=
       {| OfflineStore.isOnline := true;
          OfflineStore.pendingActions := [stuckAction];
          OfflineStore.lastSyncTime := None |};
     OfflineStore.retryTimeouts := ∅;
     OfflineStore.timers := [];
     OfflineStore.nextHandle := 1;
     OfflineStore.console := [];
     OfflineStore.savedStates := [] |}.

(** The first attempt on [stuckAction] fails and schedules the first
    retry; the three retries fire in turn. *)
Definition afterFirstAttempt : OfflineStore.World :=
  OfflineStore.runImmediate stuckAction onlineWorld.
Definition afterFirstRetry : OfflineStore.World := OfflineStore.fire 1 afterFirstAttempt.
Definition afterSecondRetry : OfflineStore.World := OfflineStore.fire 2 afterFirstRetry.
Definition afterThirdRetry : OfflineStore.World := OfflineStore.fire 3 afterSecondRetry.

(** The session after forty-nine answers: the snapshot list holds fifty
    snapshots, the cursor is on the newest. *)
Definition snapshotsFull3 : QuizStore.Store :=
  Session.answerAll QuizStore.DEFAULT_CONFIG (take 49 answers51) active3.

(** A browser with room for the backup of [saved1] in [fullStorage], but
    not for [saved2] after it. *)
Definition nearlyFullCapacity : Z := fullCapacity + 12.

(** An empty store. *)
Definition emptyStorage : StorageManager.Storage :=
  {| StorageManager.localStorage := ∅; StorageManager.emitted := [] |}.

(** A browser whose reads of the session record fail, while its backup
    can still be read. *)
Definition unreadableBrowser : StorageManager.Browser :=
  {| StorageManager.browser := true;
     StorageManager.setItem_throws := λ _ _ _, None;
     StorageManager.getItem_throws := λ key,
       if bool_decide (key = sessionKey)
       then Some {| StorageManager.thrown_isError := true;
                    StorageManager.thrown_name := "SecurityError";
                    StorageManager.thrown_message := "The operation is insecure." |}
       else None;
     StorageManager.evict := λ ls, (true, ls) |}.

(** An answer that waits in the queue with [stuckAction] before it. *)
Definition answerAction : OfflineStore.PendingAction :=
  {| OfflineStore.action_id := "1700000000500-p0o9i8u7y";
     OfflineStore.action_type := OfflineStore.action_answer;
     OfflineStore.action_data := "{questionId:1}";
     OfflineStore.action_timestamp := 500;
     OfflineStore.retryCount := 0 |}.

Definition twoActionsWorld : OfflineStore.World :=
  OfflineStore.set_offline
    {| OfflineStore.isOnline := true;
       OfflineStore.pendingActions := [stuckAction; answerAction];
       OfflineStore.lastSyncTime := None |}
    onlineWorld.

(** An exam of a hundred single-answer questions, and a session in which
    the first fifty-seven are answered correctly and the others wrongly. *)
Definition questions100 : list Question :=
  (λ n, mkQuestion (pretty n) ["A"]) <$> seq 1 100.

Definition answers57of100 : gmap string (list string) :=
  list_to_map ((λ n, (pretty n, [if (n <=? 57)%nat then "A" else "B"])) <$> seq 1 100).

(** A store in which the key [length] is hidden by the member of that
    name. *)
Definition shadowedStorage : StorageManager.Storage :=
  {| StorageManager.localStorage := {[ "a" := "hello"; "length" := "0123456789" ]};
     StorageManager.emitted := [] |}.

(** A saved session of [exam3] that was not submitted, with one answer and
    one flag. *)
Definition savedState3 : QuizState :=
  {| examId := "practice-exam-1"; mode := mode_practice; currentQuestionIndex := 1;
     answers := {[ "1" := ["1-B"] ]}; flaggedQuestions := {[ "2" ]};
     startTime := 0; endTime := None; submitted := false;
     timeElapsed := None; isReview := None |}.

End Samples.

(** * Properties *)

(** [settle b v] replaces the comparison [b] by its value [v], which [lia]
    justifies. *)
Ltac settle b v :=
  replace b with v
    by (symmetry;
        first [ apply Z.leb_le | apply Z.leb_gt | apply Z.ltb_lt | apply Z.ltb_ge
              | apply Nat.eqb_eq | apply Nat.eqb_neq ];
        lia).

(** ** JavaScript numbers *)

Lemma Qpow2_pos (e : Z) : (0 < 2 ^ e)%Q.
Proof. by apply Qpower_0_lt. Qed.

Lemma round_half_even_near (y : Q) :
  (inject_Z (round_half_even y) - (1 # 2) <= y)%Q ∧
  (y <= inject_Z (round_half_even y) + (1 # 2))%Q.
Proof.
  unfold round_half_even.
  pose proof (Qfloor_le y) as Hlo. pose proof (Qlt_floor y) as Hhi.
  rewrite inject_Z_plus in Hhi. change (inject_Z 1) with 1%Q in Hhi.
  destruct (Qcompare_spec (y - inject_Z (Qfloor y)) (1 # 2)) as [Heq|Hlt|Hgt].
  - destruct (Z.even (Qfloor y)); rewrite ?inject_Z_plus; change (inject_Z 1) with 1%Q;
      split; lra.
  - split; lra.
  - rewrite inject_Z_plus. change (inject_Z 1) with 1%Q. split; lra.
Qed.

Lemma round_half_even_ge (y : Q) (N : Z) :
  (inject_Z N <= y)%Q → N ≤ round_half_even y.
Proof.
  intros Hy. apply Qfloor_resp_le in Hy. rewrite Qfloor_Z in Hy.
  unfold round_half_even.
  destruct (y - inject_Z (Qfloor y) ?= 1 # 2)%Q; [destruct (Z.even (Qfloor y))| |]; lia.
Qed.

Lemma round_half_even_le (y : Q) (N : Z) :
  (y <= inject_Z N)%Q → round_half_even y ≤ N.
Proof.
  intros Hy. pose proof (Qfloor_resp_le _ _ Hy) as Hf. rewrite Qfloor_Z in Hf.
  assert (Hup : (0 < y - inject_Z (Qfloor y))%Q → Qfloor y + 1 ≤ N).
  { intros Hpos. destruct (Z.eq_dec (Qfloor y) N) as [Heq|]; [|lia].
    rewrite Heq in Hpos. lra. }
  unfold round_half_even.
  destruct (Qcompare_spec (y - inject_Z (Qfloor y)) (1 # 2)) as [Heq|Hlt|Hgt].
  - destruct (Z.even (Qfloor y)); [lia|]. apply Hup. lra.
  - lia.
  - apply Hup. lra.
Qed.

(** [binade x] is not above the logarithm of [x]. *)
Lemma binade_lower (x : Q) : (0 < x)%Q → (2 ^ binade x <= x)%Q.
Proof.
  intros Hx. unfold binade.
  destruct (Qle_bool _ x) eqn:Htest; [by apply Qle_bool_iff|]. clear Htest.
  destruct x as [n d]. simpl Qnum. simpl Qden.
  assert (Hn : 0 < n) by (unfold Qlt in Hx; simpl in Hx; lia).
  destruct (Z.log2_spec n Hn) as [Hnlo _].
  destruct (Z.log2_spec (Zpos d) (Pos2Z.is_pos d)) as [_ Hdhi].
  pose proof (Z.log2_nonneg n) as Hln. pose proof (Z.log2_nonneg (Zpos d)) as Hld.
  replace (Z.log2 n - Z.log2 (Zpos d) - 1) with (Z.log2 n - Z.succ (Z.log2 (Zpos d))) by lia.
  rewrite Qpower_minus by done.
  rewrite <-!(Zpower_Qpower 2) by lia.
  set (A := 2 ^ Z.log2 n) in *. set (B := 2 ^ Z.succ (Z.log2 (Zpos d))) in *.
  assert (HA : 0 < A) by (subst A; apply Z.pow_pos_nonneg; lia).
  apply Qle_shift_div_r.
  - change 0%Q with (inject_Z 0). rewrite <-Zlt_Qlt. lia.
  - unfold Qle, Qmult, inject_Z. simpl. nia.
Qed.

Lemma binade_le (x : Q) (k : Z) : (0 < x)%Q → (x <= 2 ^ k)%Q → binade x ≤ k.
Proof.
  intros Hx Hk. apply (Qpower_le_compat_l_inv 2); [|done].
  eapply Qle_trans; [by apply binade_lower|done].
Qed.

Lemma ulp_exponent_le (x : Q) (k : Z) :
  ¬ (x == 0)%Q → (Qabs x <= 2 ^ k)%Q → ulp_exponent x ≤ Z.max (k - 52) (-1074).
Proof.
  intros Hx Hk. unfold ulp_exponent.
  assert (binade (Qabs x) ≤ k); [|lia].
  apply binade_le; [|done].
  destruct (Qlt_le_dec 0 (Qabs x)) as [|Hle]; [done|].
  destruct Hx. pose proof (Qabs_nonneg x).
  apply Qabs_Qle_condition in Hle. lra.
Qed.

(** The value of [binary64] away from 0. *)
Lemma binary64_value (x : Q) :
  ¬ (x == 0)%Q →
  (binary64 x == inject_Z (round_half_even (x / 2 ^ ulp_exponent x)) * 2 ^ ulp_exponent x)%Q.
Proof.
  intros Hx. unfold binary64.
  destruct (Qeq_bool x 0) eqn:Hz; [by apply Qeq_bool_iff in Hz|].
  apply Qred_correct.
Qed.

Lemma binary64_0 (x : Q) : (x == 0)%Q → binary64 x = 0%Q.
Proof. intros Hx. unfold binary64. by rewrite (Qeq_eq_bool _ _ Hx). Qed.

(** Rounding is off by half a unit in the last place at most. *)
Lemma binary64_error (x : Q) :
  ¬ (x == 0)%Q → (Qabs (binary64 x - x) <= 2 ^ ulp_exponent x * (1 # 2))%Q.
Proof.
  intros Hx. rewrite (binary64_value x Hx).
  pose proof (Qpow2_pos (ulp_exponent x)) as Hp.
  set (p := (2 ^ ulp_exponent x)%Q) in *.
  destruct (round_half_even_near (x / p)) as [Hlo Hhi].
  set (m := inject_Z (round_half_even (x / p))) in *.
  assert (Hxy : (x == x / p * p)%Q) by (field; lra).
  apply Qabs_Qle_condition. split.
  - assert (((m + (1 # 2)) * p >= x / p * p)%Q) by (apply Qmult_le_compat_r; lra). lra.
  - assert (((m - (1 # 2)) * p <= x / p * p)%Q) by (apply Qmult_le_compat_r; lra). lra.
Qed.

(** An integer bound on a number of magnitude at most 2^52 bounds the
    double as well: the integer is itself a double of that range. *)
Lemma scaled_integer (B e : Z) : e ≤ 0 → (inject_Z B / 2 ^ e == inject_Z (B * 2 ^ (- e)))%Q.
Proof.
  intros He. rewrite inject_Z_mult, (Zpower_Qpower 2) by lia.
  change (inject_Z 2) with 2%Q. rewrite Qpower_opp.
  pose proof (Qpow2_pos e). field. lra.
Qed.

Lemma binary64_le_Z (x : Q) (B : Z) :
  (Qabs x <= 2 ^ 52)%Q → (x <= inject_Z B)%Q → (binary64 x <= inject_Z B)%Q.
Proof.
  intros Hsize HB.
  destruct (Qeq_dec x 0) as [Hz|Hx]; [rewrite (binary64_0 x Hz); lra|].
  rewrite (binary64_value x Hx).
  pose proof (ulp_exponent_le x 52 Hx Hsize) as He.
  pose proof (Qpow2_pos (ulp_exponent x)) as Hp.
  set (e := ulp_exponent x) in *. set (p := (2 ^ e)%Q) in *.
  assert (Hm : round_half_even (x / p) ≤ B * 2 ^ (- e)).
  { apply round_half_even_le. subst p. rewrite <-scaled_integer by lia.
    apply Qmult_le_compat_r; [done|]. apply Qlt_le_weak, Qinv_lt_0_compat, Qpow2_pos. }
  rewrite Zle_Qle in Hm. rewrite <-(scaled_integer B e) in Hm by lia. fold p in Hm.
  assert ((inject_Z (round_half_even (x / p)) * p <= inject_Z B / p * p)%Q)
    by (apply Qmult_le_compat_r; lra).
  assert ((inject_Z B / p * p == inject_Z B)%Q) by (field; lra). lra.
Qed.

Lemma binary64_ge_Z (x : Q) (A : Z) :
  (Qabs x <= 2 ^ 52)%Q → (inject_Z A <= x)%Q → (inject_Z A <= binary64 x)%Q.
Proof.
  intros Hsize HA.
  destruct (Qeq_dec x 0) as [Hz|Hx]; [rewrite (binary64_0 x Hz); lra|].
  rewrite (binary64_value x Hx).
  pose proof (ulp_exponent_le x 52 Hx Hsize) as He.
  pose proof (Qpow2_pos (ulp_exponent x)) as Hp.
  set (e := ulp_exponent x) in *. set (p := (2 ^ e)%Q) in *.
  assert (Hm : A * 2 ^ (- e) ≤ round_half_even (x / p)).
  { apply round_half_even_ge. subst p. rewrite <-scaled_integer by lia.
    apply Qmult_le_compat_r; [done|]. apply Qlt_le_weak, Qinv_lt_0_compat, Qpow2_pos. }
  rewrite Zle_Qle in Hm. rewrite <-(scaled_integer A e) in Hm by lia. fold p in Hm.
  assert ((inject_Z A / p * p <= inject_Z (round_half_even (x / p)) * p)%Q)
    by (apply Qmult_le_compat_r; lra).
  assert ((inject_Z A / p * p == inject_Z A)%Q) by (field; lra). lra.
Qed.

Lemma binary64_nonneg (x : Q) : (0 <= x)%Q → (0 <= binary64 x)%Q.
Proof.
  intros Hx0.
  destruct (Qeq_dec x 0) as [Hz|Hx]; [rewrite (binary64_0 x Hz); lra|].
  rewrite (binary64_value x Hx).
  pose proof (Qpow2_pos (ulp_exponent x)) as Hp.
  set (p := (2 ^ ulp_exponent x)%Q) in *.
  assert (Hm : 0 ≤ round_half_even (x / p)).
  { apply round_half_even_ge. change (inject_Z 0) with 0%Q.
    apply Qle_shift_div_l; [done|]. lra. }
  rewrite Zle_Qle in Hm. change (inject_Z 0) with 0%Q in Hm.
  apply Qmult_le_0_compat; lra.
Qed.

(** A number of magnitude at most [2^k], with [k] in the normal range, is
    rounded with an error of at most [2^(k-53)]. *)
Lemma binary64_error_below (x : Q) (k : Z) :
  -1022 ≤ k → (Qabs x <= 2 ^ k)%Q → (Qabs (binary64 x - x) <= 2 ^ (k - 53))%Q.
Proof.
  intros Hk Hsize.
  destruct (Qeq_dec x 0) as [Hz|Hx].
  { rewrite (binary64_0 x Hz).
    assert (Hneg : (0 - x == 0)%Q) by lra. rewrite Hneg. simpl.
    apply Qlt_le_weak, Qpow2_pos. }
  eapply Qle_trans; [by apply binary64_error|].
  pose proof (ulp_exponent_le x k Hx Hsize) as He.
  replace (k - 53) with ((k - 52) + (-1)) by lia.
  rewrite Qpower_plus by done. change (2 ^ (-1))%Q with (1 # 2)%Q.
  apply Qmult_le_compat_r; [|done].
  apply Qpower_le_compat_l; [lia|done].
Qed.

(** The rounding agrees with the Standard Library's specification of
    IEEE 754 arithmetic on the percentage of every score of an exam of up
    to 100 questions. *)
Lemma binary64_agrees_with_SpecFloat :
  forallb percentage_agrees (scoresUpTo 100) = true.
Proof. by vm_compute. Qed.

(** ** The order of [sort()] *)

Global Instance js_string_le_total : Total js_string_le.
Proof.
  intros a b. unfold js_string_le.
  destruct (String_as_OT.compare_spec a b) as [->|Hlt|Hgt].
  - by left.
  - by left.
  - right. unfold String_as_OT.lt in Hgt. by rewrite Hgt.
Qed.

Lemma js_string_le_alt a b : js_string_le a b ↔ a = b ∨ String_as_OT.lt a b.
Proof.
  unfold js_string_le.
  destruct (String_as_OT.compare_spec a b) as [->|Hlt|Hgt].
  - split; [by left | done].
  - split; [by right | done].
  - split; [done|]. intros [->|Hlt] _.
    + by eapply (irreflexivity String_as_OT.lt).
    + eapply (irreflexivity String_as_OT.lt). by etrans.
Qed.

Global Instance js_string_le_trans : Transitive js_string_le.
Proof.
  intros a b c. rewrite !js_string_le_alt.
  intros [->|Hab] [->|Hbc]; auto.
  right. by etrans.
Qed.

Global Instance js_string_le_antisymm : AntiSymm (=) js_string_le.
Proof.
  intros a b. rewrite !js_string_le_alt.
  intros [->|Hab] [Heq|Hba]; auto.
  exfalso. eapply (irreflexivity String_as_OT.lt). by etrans.
Qed.

Lemma js_sort_permutation l : js_sort l ≡ₚ l.
Proof. apply merge_sort_Permutation. Qed.

Lemma js_sort_length l : length (js_sort l) = length l.
Proof. by rewrite js_sort_permutation. Qed.

(** Two arrays sort to the same array exactly when one is a reordering of
    the other. *)
Lemma js_sort_eq_iff l1 l2 : js_sort l1 = js_sort l2 ↔ l1 ≡ₚ l2.
Proof.
  split.
  - intros Heq. by rewrite <-(js_sort_permutation l1), Heq, js_sort_permutation.
  - intros Hperm. apply (Sorted_unique js_string_le).
    + apply Sorted_merge_sort; apply _.
    + apply Sorted_merge_sort; apply _.
    + by rewrite !js_sort_permutation.
Qed.

Lemma js_every_from_lookup (l2 l1 : list string) (k : nat) :
  js_every_from (λ answer index, bool_decide (l2 !! index = Some answer)) k l1 = true
  ↔ ∀ i a, l1 !! i = Some a → l2 !! (k + i)%nat = Some a.
Proof.
  revert k. induction l1 as [|x l1 IH]; intros k; simpl.
  - split; [intros _ i a Hi; by rewrite lookup_nil in Hi | done].
  - case_bool_decide as Hx.
    + rewrite IH. split.
      * intros H [|i] a Hi; simpl in Hi.
        -- simplify_eq. by rewrite Nat.add_0_r.
        -- replace (k + S i)%nat with (S k + i)%nat by lia. by apply H.
      * intros H i a Hi. replace (S k + i)%nat with (k + S i)%nat by lia.
        by apply H.
    + split; [done|]. intros H. destruct Hx.
      specialize (H 0%nat x eq_refl). by rewrite Nat.add_0_r in H.
Qed.

Lemma js_every_indexed_eq (l1 l2 : list string) :
  length l1 = length l2 →
  js_every_indexed (λ answer index, bool_decide (l2 !! index = Some answer)) l1 = true
  ↔ l1 = l2.
Proof.
  intros Hlen. unfold js_every_indexed. rewrite js_every_from_lookup. split.
  - intros H. apply list_eq_same_length with (length l1); [done..|].
    intros i x y _ Hx Hy. apply H in Hx. simpl in Hx. congruence.
  - intros -> i a Hi. done.
Qed.

Module ScorerFacts.
Import QuizScorer.

(** [isAnswerCorrect] holds exactly for a non-empty selection that is a
    reordering of the correct answers. *)
Lemma isAnswerCorrect_iff question userAnswers :
  isAnswerCorrect question userAnswers = true ↔
  userAnswers ≠ [] ∧ userAnswers ≡ₚ question_correctAnswers question.
Proof.
  unfold isAnswerCorrect.
  destruct userAnswers as [|a userAnswers]; simpl length; simpl Nat.eqb.
  { split; [done | by intros [? _]]. }
  set (ua := a :: userAnswers).
  destruct (length (js_sort ua) =? length (js_sort (question_correctAnswers question)))%nat
    eqn:Hlen; simpl.
  - apply Nat.eqb_eq in Hlen. rewrite js_every_indexed_eq by done.
    rewrite js_sort_eq_iff. split; [by intros H | by intros [_ H]].
  - apply Nat.eqb_neq in Hlen. split; [done|]. intros [_ Hperm].
    destruct Hlen. by rewrite !js_sort_length, Hperm.
Qed.

Lemma userAnswersOf_unanswered answers question :
  answers !! question_id question = None → userAnswersOf answers question = [].
Proof. unfold userAnswersOf. by intros ->. Qed.

(** The three counters after the [forEach], in terms of the questions. *)
Lemma fold_scoreQuestion_counts answers questions t :
  let t' := fold_left (scoreQuestion answers) questions t in
  skippedCount t' =
    (skippedCount t + length (filter (λ q, userAnswersOf answers q = []) questions))%nat ∧
  correctCount t' =
    (correctCount t +
     length (filter (λ q, isAnswerCorrect q (userAnswersOf answers q) = true) questions))%nat ∧
  (correctCount t' + incorrectCount t' + skippedCount t' =
   correctCount t + incorrectCount t + skippedCount t + length questions)%nat.
Proof.
  revert t. induction questions as [|q questions IH]; intros t; simpl.
  { repeat split; lia. }
  destruct (IH (scoreQuestion answers t q)) as (Hs & Hc & Hsum).
  cbv zeta in Hs, Hc, Hsum. clear IH.
  set (t' := fold_left (scoreQuestion answers) questions (scoreQuestion answers t q)) in *.
  clearbody t'. rewrite !filter_cons. unfold scoreQuestion in Hs, Hc, Hsum.
  destruct (userAnswersOf answers q) as [|a ua] eqn:Hua; simpl in Hs, Hc, Hsum.
  - rewrite decide_True by done. rewrite decide_False by done.
    simpl. repeat split; lia.
  - rewrite decide_False by done.
    destruct (isAnswerCorrect q (a :: ua)) eqn:Hok; simpl in Hs, Hc, Hsum.
    + rewrite decide_True by done. simpl. repeat split; lia.
    + rewrite decide_False by done. simpl. repeat split; lia.
Qed.

Lemma percentage_range (c t : nat) :
  (c ≤ t)%nat → (0 < t)%nat →
  (0 <= Q_of_nat c / Q_of_nat t * 100)%Q ∧ (Q_of_nat c / Q_of_nat t * 100 <= 100)%Q.
Proof.
  intros Hct Ht. unfold Q_of_nat, Qdiv, Qmult, Qinv, Qle, inject_Z. simpl.
  destruct (Z.of_nat t) as [|p|p] eqn:Hp; try lia. simpl. split; nia.
Qed.

(** The percentage as the code computes it, in doubles: it stays between
    0 and 100, and within [2^-45] of the exact value. *)
Lemma js_percentage (c t : nat) :
  (c ≤ t)%nat → (0 < t)%nat →
  let p := js_mul (js_div (Q_of_nat c) (Q_of_nat t)) 100 in
  (0 <= p)%Q ∧ (p <= 100)%Q ∧
  (Qabs (p - Q_of_nat c / Q_of_nat t * 100) <= 2 ^ (-45))%Q.
Proof.
  intros Hct Ht. cbv zeta. unfold js_mul, js_div.
  destruct (percentage_range c t Hct Ht) as [Hq0 Hq1].
  set (q := (Q_of_nat c / Q_of_nat t)%Q) in *.
  assert (Hqabs : (Qabs q == q)%Q) by (apply Qabs_pos; lra).
  pose proof (binary64_nonneg q ltac:(lra)) as Hd0.
  assert (Hd1 : (binary64 q <= 1)%Q).
  { apply (binary64_le_Z q 1); [|change (inject_Z 1) with 1%Q; lra]. rewrite Hqabs.
    change (2 ^ 52)%Q with (4503599627370496 # 1)%Q. lra. }
  assert (Hderr : (Qabs (binary64 q - q) <= 2 ^ (0 - 53))%Q).
  { apply binary64_error_below; [lia|]. rewrite Hqabs. change (2 ^ 0)%Q with 1%Q. lra. }
  set (d := binary64 q) in *. set (y := (d * 100)%Q).
  assert (Hyabs : (Qabs y == y)%Q) by (apply Qabs_pos; subst y; lra).
  pose proof (binary64_nonneg y ltac:(subst y; lra)) as Hp0.
  assert (Hp1 : (binary64 y <= 100)%Q).
  { apply (binary64_le_Z y 100); [|change (inject_Z 100) with 100%Q; subst y; lra].
    rewrite Hyabs.
    change (2 ^ 52)%Q with (4503599627370496 # 1)%Q. subst y. lra. }
  assert (Hperr : (Qabs (binary64 y - y) <= 2 ^ (7 - 53))%Q).
  { apply binary64_error_below; [lia|]. rewrite Hyabs.
    change (2 ^ 7)%Q with (128 # 1)%Q. subst y. lra. }
  split; [done|]. split; [done|].
  change (2 ^ (0 - 53))%Q with (1 # 9007199254740992)%Q in Hderr.
  change (2 ^ (7 - 53))%Q with (1 # 70368744177664)%Q in Hperr.
  change (2 ^ (-45))%Q with (1 # 35184372088832)%Q.
  apply Qabs_Qle_condition in Hderr as [Hd_lo Hd_hi].
  apply Qabs_Qle_condition in Hperr as [Hp_lo Hp_hi].
  apply Qabs_Qle_condition. subst y. split; lra.
Qed.

End ScorerFacts.

Module StoreFacts.
Import QuizStore.

(** The [Set] comparison of [navigationItems] is equality of the two
    arrays as sets. *)
Lemma selectionMatches_iff (userAnswers correctAnswers : list string) :
  selectionMatches userAnswers correctAnswers = true ↔
  list_to_set userAnswers =@{gset string} list_to_set correctAnswers.
Proof.
  unfold selectionMatches, js_new_Set.
  rewrite !(list_to_set_perm_L _ _ (js_sort_permutation _)).
  set (U := list_to_set userAnswers : gset string).
  set (C := list_to_set correctAnswers : gset string).
  rewrite andb_true_iff, Nat.eqb_eq, forallb_forall. split.
  - intros [Hsize Hall]. apply set_subseteq_size_eq; [|lia].
    intros x Hx. apply elem_of_elements, list_elem_of_In, Hall in Hx.
    by apply bool_decide_eq_true in Hx.
  - intros ->. split; [done|]. intros x Hx.
    apply bool_decide_eq_true. by apply list_elem_of_In, elem_of_elements in Hx.
Qed.

Lemma fold_left_insert_foldr {V} (entries : list (string * V)) (m0 : gmap string V) :
  fold_left (λ m kv, <[kv.1 := kv.2]> m) entries m0 =
  foldr (λ p, <[p.1 := p.2]>) m0 (reverse entries).
Proof.
  revert m0. induction entries as [|kv entries IH]; intros m0; simpl; [done|].
  rewrite reverse_cons, foldr_app. simpl. apply IH.
Qed.

(** [new Map(Array.from(m.entries()))] is [m]. *)
Lemma js_new_Map_entries {V} (m : gmap string V) : js_new_Map (map_to_list m) = m.
Proof.
  unfold js_new_Map. rewrite fold_left_insert_foldr.
  change (foldr _ ∅ (reverse (map_to_list m)))
    with (list_to_map (M := gmap string V) (reverse (map_to_list m))).
  rewrite <-(list_to_map_to_list m) at 2.
  apply list_to_map_proper.
  - rewrite fmap_reverse, reverse_Permutation. apply NoDup_fst_map_to_list.
  - apply reverse_Permutation.
Qed.

(** A snapshot restores to the state it was taken of. *)
Lemma restoreFromSnapshot_createSnapshot (state : QuizState) (now : Z) :
  restoreFromSnapshot (createSnapshot state now) = state.
Proof.
  unfold restoreFromSnapshot, createSnapshot, js_new_Set. simpl.
  rewrite js_new_Map_entries, list_to_set_elements_L. by destruct state.
Qed.

Lemma storeSelection_empty questionId (m : gmap string (list string)) :
  storeSelection questionId [] m = delete questionId m.
Proof. done. Qed.

Lemma storeSelection_nonempty questionId selection (m : gmap string (list string)) :
  selection ≠ [] → storeSelection questionId selection m = <[questionId := selection]> m.
Proof. by destruct selection. Qed.

(** Storing back the selection that [answerQuestion] recorded as the
    previous one undoes the update of the map. *)
Lemma storeSelection_previous questionId selection (m : gmap string (list string)) :
  Session.noEmptySelection m →
  storeSelection questionId (default [] (m !! questionId))
    (storeSelection questionId selection m) = m.
Proof.
  intros Hm. specialize (Hm questionId).
  destruct (m !! questionId) as [prev|] eqn:Hprev; simpl.
  - rewrite (storeSelection_nonempty _ prev) by congruence.
    destruct selection as [|a selection].
    + rewrite storeSelection_empty, insert_delete_eq. by apply insert_id.
    + rewrite storeSelection_nonempty by done.
      rewrite insert_insert_eq. by apply insert_id.
  - rewrite storeSelection_empty. destruct selection as [|a selection].
    + rewrite storeSelection_empty, delete_delete_eq. by apply delete_id.
    + rewrite storeSelection_nonempty by done.
      rewrite delete_insert_eq. by apply delete_id.
Qed.

Lemma storeSelection_noEmptySelection questionId selection (m : gmap string (list string)) :
  Session.noEmptySelection m →
  Session.noEmptySelection (storeSelection questionId selection m).
Proof.
  intros Hm k. destruct selection as [|a selection].
  - rewrite storeSelection_empty.
    destruct (decide (questionId = k)) as [->|Hne].
    + by rewrite lookup_delete_eq.
    + rewrite lookup_delete_ne by done. apply Hm.
  - rewrite storeSelection_nonempty by done.
    destruct (decide (questionId = k)) as [->|Hne].
    + by rewrite lookup_insert_eq.
    + rewrite lookup_insert_ne by done. apply Hm.
Qed.

Lemma js_slice_from_suffix {A} (start : Z) (l : list A) :
  js_slice_from start l `suffix_of` l.
Proof. unfold js_slice_from. eexists. symmetry. apply take_drop. Qed.

(** [slice(-max + 1)] keeps at least the last [max - 1] elements. *)
Lemma js_slice_from_keeps {A} (max : Z) (l : list A) :
  1 ≤ max →
  Z.min (Z.of_nat (length l)) (max - 1) ≤ Z.of_nat (length (js_slice_from (- max + 1) l)).
Proof.
  intros Hmax. unfold js_slice_from. rewrite length_drop.
  destruct (- max + 1 <? 0) eqn:Hneg; lia.
Qed.

(** [slice(-max + 1)] followed by one [push] keeps at most [max] elements
    when [max] is at least 2. *)
Lemma js_slice_from_bound {A} (max : Z) (l : list A) :
  2 ≤ max → Z.of_nat (length (js_slice_from (- max + 1) l)) ≤ max - 1.
Proof.
  intros Hmax. unfold js_slice_from. rewrite length_drop.
  destruct (- max + 1 <? 0) eqn:Hneg; lia.
Qed.

Lemma js_slice_drop_last_snoc {A} (l : list A) (x : A) :
  js_slice_drop_last (l ++ [x]) = l.
Proof.
  unfold js_slice_drop_last. rewrite length_app. simpl.
  replace (length l + 1 - 1)%nat with (length l) by lia.
  by rewrite take_app_length.
Qed.

Lemma suffix_snoc_nonempty {A} (l1 l2 : list A) (x : A) :
  l1 `suffix_of` l2 ++ [x] → l1 ≠ [] →
  ∃ l1', l1 = l1' ++ [x] ∧ l1' `suffix_of` l2.
Proof.
  intros [k Hk] Hne. destruct l1 as [|y l1 _] using rev_ind; [done|].
  rewrite app_assoc in Hk. apply app_inj_tail in Hk as [-> ->].
  exists l1. split; [done|]. by exists k.
Qed.

(** [undoAnswer] right after the history ends with the entry that
    [answerQuestion] wrote. *)
Lemma undoAnswer_last_entry (now : Z) (w : Store) (history : list AnswerHistoryEntry)
    (lastEntry : AnswerHistoryEntry) :
  answerHistory w = history ++ [lastEntry] → 0 < currentSnapshotIndex w →
  let w' := (undoAnswer now w).2 in
  (undoAnswer now w).1 = true ∧
  answers (quiz w') =
    storeSelection (entry_questionId lastEntry) (entry_previousAnswers lastEntry)
      (answers (quiz w)) ∧
  answerHistory w' = history ∧
  currentSnapshotIndex w' = currentSnapshotIndex w - 1 ∧
  stateSnapshots w' = stateSnapshots w ∧
  flaggedQuestions (quiz w') = flaggedQuestions (quiz w) ∧
  currentQuestionIndex (quiz w') = currentQuestionIndex (quiz w).
Proof.
  intros Hh Hidx. unfold undoAnswer. rewrite Hh, length_app, last_snoc. simpl.
  settle (length history + 1 =? 0)%nat false.
  settle (currentSnapshotIndex w <=? 0) false.
  simpl. rewrite js_slice_drop_last_snoc. repeat split; try done. lia.
Qed.

Lemma undoAll_snoc (times : list Z) (now : Z) (w : Store) :
  Session.undoAll (times ++ [now]) w = (undoAnswer now (Session.undoAll times w)).2.
Proof. unfold Session.undoAll. by rewrite fold_left_app. Qed.

Section undo_inverse.
Variable config : StateManagerConfig.
Hypothesis max_positive : 1 ≤ maxHistorySize config.

(** As many [undoAnswer] calls as [answerQuestion] calls bring the answer
    map and the snapshot cursor back, and leave of the earlier history at
    least the [spare] newest entries, as long as the calls and the spare
    entries together fit in [maxHistorySize]. *)
Lemma undoAll_answerAll_inverse (calls : list Session.AnswerCall) :
  ∀ (times : list Z) (w : Store) (spare : nat),
  length times = length calls →
  Z.of_nat spare + Z.of_nat (length calls) ≤ maxHistorySize config →
  0 ≤ currentSnapshotIndex w →
  Session.noEmptySelection (answers (quiz w)) →
  let w' := Session.undoAll times (Session.answerAll config calls w) in
  answers (quiz w') = answers (quiz w) ∧
  currentSnapshotIndex w' = currentSnapshotIndex w ∧
  flaggedQuestions (quiz w') = flaggedQuestions (quiz w) ∧
  currentQuestionIndex (quiz w') = currentQuestionIndex (quiz w) ∧
  answerHistory w' `suffix_of` answerHistory w ∧
  (length (answerHistory w) `min` spare ≤ length (answerHistory w'))%nat.
Proof.
  induction calls as [|c calls IH]; intros times w spare Hlen Hfit Hidx Hne.
  { destruct times; [|done]. simpl. repeat split; try done. lia. }
  destruct times as [|now times _] using rev_ind; [done|].
  rewrite length_app in Hlen. simpl in Hlen.
  cbv zeta. rewrite undoAll_snoc. simpl Session.answerAll.
  change (fold_left _ calls ?x) with (Session.answerAll config calls x).
  set (w1 := answerQuestion config (Session.call_time c) (Session.call_questionId c)
               (Session.call_selectedAnswers c) w).
  destruct (IH times w1 (S spare)) as (Ha & Hi & Hf & Hq & Hsuf & Hkeep).
  { lia. }
  { simpl length in Hfit. lia. }
  { subst w1. simpl. lia. }
  { subst w1. simpl. by apply storeSelection_noEmptySelection. }
  cbv zeta in Ha, Hi, Hf, Hq, Hsuf, Hkeep.
  set (w2 := Session.undoAll times (Session.answerAll config calls w1)) in *.
  clearbody w2. clear IH.
  set (trimmed := js_slice_from (- maxHistorySize config + 1) (answerHistory w)).
  set (entry := {| entry_questionId := Session.call_questionId c;
                   entry_previousAnswers :=
                     default [] (answers (quiz w) !! Session.call_questionId c);
                   entry_newAnswers := Session.call_selectedAnswers c;
                   entry_timestamp := Session.call_time c |}).
  assert (Hh1 : answerHistory w1 = trimmed ++ [entry]) by done.
  rewrite Hh1 in Hsuf, Hkeep. rewrite length_app in Hkeep. simpl in Hkeep.
  destruct (suffix_snoc_nonempty _ _ _ Hsuf) as (rest & Hrest & Hrest_suf).
  { intros Hnil. rewrite Hnil in Hkeep. simpl in Hkeep. lia. }
  destruct (undoAnswer_last_entry now w2 rest entry Hrest) as (_ & Ha' & Hh' & Hi' & _ & Hf' & Hq').
  { rewrite Hi. subst w1. simpl. lia. }
  cbv zeta in Ha', Hh', Hi', Hf', Hq'.
  rewrite Ha', Hh', Hi', Hf', Hq', Ha, Hi, Hf, Hq. subst w1. simpl.
  split; [by apply storeSelection_previous|].
  split; [lia|]. split; [done|]. split; [done|]. split.
  - etrans; [exact Hrest_suf|]. apply js_slice_from_suffix.
  - rewrite Hrest, length_app in Hkeep. simpl in Hkeep.
    pose proof (js_slice_from_keeps (maxHistorySize config) (answerHistory w) max_positive)
      as Hk.
    fold trimmed in Hk. simpl length in Hfit. lia.
Qed.

End undo_inverse.

(** [redoAnswer()] with a snapshot after the cursor restores it and moves
    the cursor onto it. *)
Lemma redoAnswer_next_snapshot (now : Z) (w : Store) (snapshot : QuizStateSnapshot) :
  0 ≤ currentSnapshotIndex w + 1 →
  stateSnapshots w !! Z.to_nat (currentSnapshotIndex w + 1) = Some snapshot →
  ∃ w', redoAnswer now w = returned (true, w') ∧
        quiz w' = restoreFromSnapshot snapshot ∧
        currentSnapshotIndex w' = currentSnapshotIndex w + 1 ∧
        stateSnapshots w' = stateSnapshots w ∧
        answerHistory w' = answerHistory w.
Proof.
  intros Hidx Hsnap. pose proof (lookup_lt_Some _ _ _ Hsnap) as Hlt.
  unfold redoAnswer, js_index.
  settle (Z.of_nat (length (stateSnapshots w)) - 1 <=? currentSnapshotIndex w) false.
  settle (currentSnapshotIndex w + 1 <? 0) false.
  rewrite Hsnap. eexists. split; [reflexivity|]. by simpl.
Qed.

End StoreFacts.

(** ** Scoring *)

(** C5 as stated fails: the percentage is computed in doubles, and the
    quotient is rounded before it is multiplied.  With 57 of 100 questions
    answered correctly the quotient is the double next to 0.57, and the
    percentage is 56.99999999999999289 (the double just below 57), not
    57. *)
Lemma percentage_of_57_in_100_is_rounded :
  let r := QuizScorer.calculateResult "practice-exam-1" "Practice exam 1"
             Samples.questions100 Samples.answers57of100 0 5400000 in
  result_correctAnswers r = 57%nat ∧ result_totalQuestions r = 100%nat ∧
  result_percentage r = (8022036836253695 # 140737488355328)%Q ∧
  ¬ (result_percentage r
     == Q_of_nat (result_correctAnswers r) / Q_of_nat (result_totalQuestions r) * 100)%Q.
Proof. by vm_compute. Qed.

(** C5, as amended.  For every list of questions, answer map and start
    and end time, the result of [calculateResult] has a percentage between
    0 and 100 that is [correctAnswers / totalQuestions * 100] as doubles
    compute it, the quotient and then the product rounded to the nearest
    double, and 0 for an exam without questions; it is within [2^-45] of
    the exact value.  The three counters add up to the number of
    questions, and the skipped questions are those with no recorded
    selection (no entry in the map, or an empty one). *)
Theorem calculateResult_counts_and_percentage
    (id title : string) (questions : list Question)
    (answers : gmap string (list string)) (startTime endTime : Z) :
  let r := QuizScorer.calculateResult id title questions answers startTime endTime in
  let correct := Q_of_nat (result_correctAnswers r) in
  let total := Q_of_nat (result_totalQuestions r) in
  ((0 <= result_percentage r)%Q ∧ (result_percentage r <= 100)%Q) ∧
  result_percentage r =
    (if (result_totalQuestions r =? 0)%nat then 0%Q
     else js_mul (js_div correct total) 100) ∧
  (Qabs (result_percentage r
         - (if (result_totalQuestions r =? 0)%nat then 0 else correct / total * 100))
   <= 2 ^ (-45))%Q ∧
  result_totalQuestions r = length questions ∧
  (result_correctAnswers r + result_incorrectAnswers r + result_skippedAnswers r
   = result_totalQuestions r)%nat ∧
  result_skippedAnswers r =
    length (filter (λ q, default [] (answers !! question_id q) = []) questions).
Proof.
  intros r correct total.
  destruct (ScorerFacts.fold_scoreQuestion_counts answers questions QuizScorer.emptyTally)
    as (Hs & Hc & Hsum).
  cbv zeta in Hs, Hc, Hsum. simpl in Hs, Hc, Hsum.
  assert (Hpct : result_percentage r =
    (if (result_totalQuestions r =? 0)%nat then 0%Q
     else js_mul (js_div correct total) 100)).
  { subst r correct total. unfold QuizScorer.calculateResult. simpl.
    by destruct (length questions). }
  assert (Hrange :
    ((0 <= result_percentage r)%Q ∧ (result_percentage r <= 100)%Q) ∧
    (Qabs (result_percentage r
           - (if (result_totalQuestions r =? 0)%nat then 0 else correct / total * 100))
     <= 2 ^ (-45))%Q).
  { rewrite Hpct. subst correct total.
    change (result_totalQuestions r) with (length questions).
    change (result_correctAnswers r)
      with (QuizScorer.correctCount
              (fold_left (QuizScorer.scoreQuestion answers) questions QuizScorer.emptyTally)).
    destruct (length questions =? 0)%nat eqn:Hlen.
    - by vm_compute.
    - apply Nat.eqb_neq in Hlen.
      destruct (ScorerFacts.js_percentage
                  (QuizScorer.correctCount
                     (fold_left (QuizScorer.scoreQuestion answers) questions
                        QuizScorer.emptyTally))
                  (length questions)) as (H0 & H100 & Herr); [lia|lia|].
      done. }
  destruct Hrange as [Hbounds Herr].
  split; [exact Hbounds|]. split; [exact Hpct|]. split; [exact Herr|].
  split; [done|]. split; [exact Hsum|exact Hs].
Qed.

(** C7, as amended.  [isAnswerCorrect] returns [true] exactly when the
    selection is not empty and lists the correct-answer ids, each as often
    as the question does, in any order; the check of [navigationItems]
    returns [true] exactly when the two are equal as sets.  Neither gives
    partial credit: B and C against B and D is incorrect for both. *)
Theorem answer_check_exact_match (question : Question) (userAnswers : list string) :
  (QuizScorer.isAnswerCorrect question userAnswers = true ↔
   userAnswers ≠ [] ∧ userAnswers ≡ₚ question_correctAnswers question) ∧
  (QuizStore.selectionMatches userAnswers (question_correctAnswers question) = true ↔
   list_to_set userAnswers =@{gset string} list_to_set (question_correctAnswers question)) ∧
  QuizScorer.isAnswerCorrect Samples.question_BD ["B"; "C"] = false ∧
  QuizStore.selectionMatches ["B"; "C"] (question_correctAnswers Samples.question_BD) = false.
Proof.
  split; [apply ScorerFacts.isAnswerCorrect_iff|].
  split; [apply StoreFacts.selectionMatches_iff|].
  split; by vm_compute.
Qed.

(** X16.  For selections and correct answers without repeated ids, and a
    question that has a correct answer, [isAnswerCorrect] is equality as
    sets. *)
Lemma isAnswerCorrect_set_equality (question : Question) (userAnswers : list string) :
  NoDup userAnswers → NoDup (question_correctAnswers question) →
  question_correctAnswers question ≠ [] →
  QuizScorer.isAnswerCorrect question userAnswers = true ↔
  list_to_set userAnswers =@{gset string} list_to_set (question_correctAnswers question).
Proof.
  intros Hu Hc Hne. rewrite ScorerFacts.isAnswerCorrect_iff. split.
  - intros [_ Hperm]. by rewrite Hperm.
  - intros Hset. split.
    + intros ->. destruct (question_correctAnswers question) as [|c l]; [done|].
      assert (c ∈ (∅ : gset string)); [|set_solver].
      change (∅ : gset string) with (list_to_set [] : gset string).
      rewrite Hset. set_solver.
    + apply NoDup_Permutation; [done..|]. intros x.
      rewrite <-!(elem_of_list_to_set (C := gset string)). by rewrite Hset.
Qed.

(** The claim C7 as stated fails: an empty selection is incorrect even for
    a question without correct ids, and a selection that repeats the one
    correct id is incorrect although the two are the same set. *)
Lemma isAnswerCorrect_not_set_equality :
  (list_to_set [] =@{gset string} list_to_set (question_correctAnswers Samples.question_none) ∧
   QuizScorer.isAnswerCorrect Samples.question_none [] = false) ∧
  (list_to_set ["A"; "A"] =@{gset string} list_to_set (question_correctAnswers Samples.question_A) ∧
   QuizScorer.isAnswerCorrect Samples.question_A ["A"; "A"] = false).
Proof.
  split; (split; [|by vm_compute]).
  - done.
  - simpl. set_solver.
Qed.

(** ** The quiz store *)

Import QuizStore.

(** C1 as stated fails: on the submitted session [submitted3] each of the
    three calls changes the state. *)
Lemma submitted_session_not_frozen :
  submitted (quiz Samples.submitted3) = true ∧
  answers (quiz (answerQuestion DEFAULT_CONFIG 200 "1" ["1-B"] Samples.submitted3)) !! "1"
    ≠ answers (quiz Samples.submitted3) !! "1" ∧
  bool_decide ("1" ∈ flaggedQuestions (quiz (toggleFlag DEFAULT_CONFIG 200 "1" Samples.submitted3)))
    ≠ bool_decide ("1" ∈ flaggedQuestions (quiz Samples.submitted3)) ∧
  currentQuestionIndex (quiz (goToQuestion DEFAULT_CONFIG 200 2 Samples.submitted3))
    ≠ currentQuestionIndex (quiz Samples.submitted3).
Proof. repeat split; by vm_compute. Qed.

(** C1, as amended.  The store does not test [submitted]: on a submitted
    session [answerQuestion], [toggleFlag] and [goToQuestion] still apply
    their update, each to its own part of the state, and leave the other
    two parts, [submitted], [endTime] and [timeElapsed] as they were. *)
Theorem submitted_session_updates (config : StateManagerConfig) (now : Z) (w : Store)
    (questionId : string) (selectedAnswers : list string) (index : Z) :
  submitted (quiz w) = true →
  let frozen (w' : Store) :=
    submitted (quiz w') = true ∧ endTime (quiz w') = endTime (quiz w) ∧
    timeElapsed (quiz w') = timeElapsed (quiz w) in
  (let w' := answerQuestion config now questionId selectedAnswers w in
   frozen w' ∧
   answers (quiz w') = storeSelection questionId selectedAnswers (answers (quiz w)) ∧
   flaggedQuestions (quiz w') = flaggedQuestions (quiz w) ∧
   currentQuestionIndex (quiz w') = currentQuestionIndex (quiz w)) ∧
  (let w' := toggleFlag config now questionId w in
   frozen w' ∧
   answers (quiz w') = answers (quiz w) ∧
   flaggedQuestions (quiz w') =
     (if bool_decide (questionId ∈ flaggedQuestions (quiz w))
      then flaggedQuestions (quiz w) ∖ {[questionId]}
      else {[questionId]} ∪ flaggedQuestions (quiz w)) ∧
   currentQuestionIndex (quiz w') = currentQuestionIndex (quiz w)) ∧
  (let w' := goToQuestion config now index w in
   frozen w' ∧
   answers (quiz w') = answers (quiz w) ∧
   flaggedQuestions (quiz w') = flaggedQuestions (quiz w) ∧
   currentQuestionIndex (quiz w') = index).
Proof. intros Hsub. cbv zeta. simpl. by repeat split. Qed.

Lemma submitted_session_updates_witness :
  answers (quiz (answerQuestion DEFAULT_CONFIG 200 "1" ["1-B"] Samples.submitted3))
  = storeSelection "1" ["1-B"] (answers (quiz Samples.submitted3)).
Proof.
  pose proof (submitted_session_updates DEFAULT_CONFIG 200 Samples.submitted3
                "1" ["1-B"] 2 eq_refl) as H.
  exact (proj1 (proj2 (proj1 H))).
Defined.

(** C2 as stated fails: on a session over the three questions of [exam3],
    [goToQuestion(5)] leaves the index at 5, and [nextQuestion()] from the
    last question leaves it at 3. *)
Lemma navigation_leaves_bounds :
  length (exam_questions Samples.exam3) = 3%nat ∧
  submitted (quiz Samples.active3) = false ∧
  currentQuestionIndex (quiz (goToQuestion DEFAULT_CONFIG 10 5 Samples.active3)) = 5 ∧
  currentQuestionIndex (quiz (goToQuestion DEFAULT_CONFIG 10 (-1) Samples.active3)) = -1 ∧
  currentQuestionIndex
    (quiz (nextQuestion DEFAULT_CONFIG 20 (goToQuestion DEFAULT_CONFIG 10 2 Samples.active3))) = 3.
Proof. repeat split; by vm_compute. Qed.

(** C2, as amended.  On a session whose index is within the [questionCount]
    questions, [previousQuestion()] keeps it there; [goToQuestion(i)] sets
    it to [i] whatever [i] is, and [nextQuestion()] to the smaller of the
    index plus one and 999, so each keeps the index within the questions
    exactly when that target is. *)
Theorem navigation_index (config : StateManagerConfig) (now : Z) (w : Store)
    (questionCount index : Z) :
  0 ≤ currentQuestionIndex (quiz w) < questionCount →
  let current := currentQuestionIndex (quiz w) in
  let after (w' : Store) := currentQuestionIndex (quiz w') in
  (after (previousQuestion config now w) = Z.max (current - 1) 0 ∧
   0 ≤ after (previousQuestion config now w) < questionCount) ∧
  (after (goToQuestion config now index w) = index ∧
   (0 ≤ after (goToQuestion config now index w) < questionCount ↔
    0 ≤ index < questionCount)) ∧
  (after (nextQuestion config now w) = Z.min (current + 1) 999 ∧
   (0 ≤ after (nextQuestion config now w) < questionCount ↔
    current + 1 < questionCount ∨ 999 < questionCount)).
Proof. intros Hin. cbv zeta. simpl. lia. Qed.

Lemma navigation_index_witness :
  0 ≤ currentQuestionIndex (quiz (previousQuestion DEFAULT_CONFIG 10 Samples.active3)) < 3.
Proof.
  assert (Hin : 0 ≤ currentQuestionIndex (quiz Samples.active3) < 3) by (vm_compute; split; [discriminate | reflexivity]).
  exact (proj2 (proj1 (navigation_index DEFAULT_CONFIG 10 Samples.active3 3 5 Hin))).
Defined.

(** C3 as stated fails: the history keeps 50 entries, so of 51 answers on
    the fresh session [active3] the 51 undos take back only the last 50, and
    the answer to the first question stays. *)
Lemma undo_does_not_drain_51_answers :
  length Samples.answers51 = 51%nat ∧
  answers (quiz Samples.active3) !! "q0" = None ∧
  answers (quiz (Session.undoAll (replicate 51 1000)
                   (Session.answerAll DEFAULT_CONFIG Samples.answers51 Samples.active3)))
    !! "q0" = Some ["A"].
Proof. repeat split; by vm_compute. Qed.

(** C3, as amended.  For every sequence of at most [maxHistorySize]
    [answerQuestion] calls on an active session (one that [init] has set
    up, so that the snapshot cursor is not negative and no stored selection
    is empty) followed by as many [undoAnswer] calls, the answer map at the
    end is the answer map before the first call. *)
Theorem undo_inverts_answers (config : StateManagerConfig)
    (calls : list Session.AnswerCall) (times : list Z) (w : Store) :
  1 ≤ maxHistorySize config →
  length times = length calls →
  Z.of_nat (length calls) ≤ maxHistorySize config →
  0 ≤ currentSnapshotIndex w →
  Session.noEmptySelection (answers (quiz w)) →
  answers (quiz (Session.undoAll times (Session.answerAll config calls w)))
  = answers (quiz w).
Proof.
  intros Hmax Hlen Hfit Hidx Hne.
  by destruct (StoreFacts.undoAll_answerAll_inverse config Hmax calls times w 0%nat)
    as (Ha & _); [done | lia | done | done |].
Qed.

Lemma undo_inverts_answers_witness :
  answers (quiz (Session.undoAll [30; 40]
                   (Session.answerAll DEFAULT_CONFIG
                      [ {| Session.call_time := 10; Session.call_questionId := "1";
                           Session.call_selectedAnswers := ["1-A"] |};
                        {| Session.call_time := 20; Session.call_questionId := "1";
                           Session.call_selectedAnswers := ["1-B"] |} ]
                      Samples.active3)))
  = answers (quiz Samples.active3).
Proof.
  apply undo_inverts_answers.
  - vm_compute. discriminate.
  - reflexivity.
  - vm_compute. discriminate.
  - vm_compute. discriminate.
  - intros questionId. simpl. by rewrite lookup_empty.
Defined.

(** C4 as stated fails: after answering question 1 and moving to the third
    question, [undoAnswer()] and [redoAnswer()] both succeed and leave the
    session on the first question. *)
Lemma undo_redo_loses_navigation :
  currentQuestionIndex (quiz Samples.answeredThenMoved3) = 2 ∧
  (λ r, (r.1, currentQuestionIndex (quiz r.2))) <$>
    Session.undoThenRedo 40 50 Samples.answeredThenMoved3
  = Some (true, true, 0).
Proof. split; by vm_compute. Qed.

(** C4, as amended.  On a session whose state is the one recorded in the
    snapshot under the cursor, as it is right after [answerQuestion] or
    [redoAnswer] while the cursor is in step with the snapshot list, an
    [undoAnswer()] that finds an entry to undo, followed by
    [redoAnswer()], restores the whole session state from before the
    undo; both calls return [true]. *)
Theorem undo_redo_round_trip (now1 now2 : Z) (w : Store) (snapshot : QuizStateSnapshot) :
  answerHistory w ≠ [] →
  0 < currentSnapshotIndex w →
  js_index (stateSnapshots w) (currentSnapshotIndex w) = Some snapshot →
  restoreFromSnapshot snapshot = quiz w →
  ∃ w', Session.undoThenRedo now1 now2 w = Some (true, true, w') ∧ quiz w' = quiz w.
Proof.
  intros Hh Hidx Hsnap Hstate.
  destruct (answerHistory w) as [|lastEntry history _] eqn:Hhist using rev_ind; [done|].
  destruct (StoreFacts.undoAnswer_last_entry now1 w history lastEntry Hhist Hidx)
    as (Hret & _ & _ & Hi & Hs & _).
  cbv zeta in Hi, Hs. unfold Session.undoThenRedo.
  destruct (undoAnswer now1 w) as [undone w1]. simpl in Hret, Hi, Hs. subst undone.
  unfold js_index in Hsnap.
  destruct (currentSnapshotIndex w <? 0) eqn:Hneg; [done|].
  destruct (StoreFacts.redoAnswer_next_snapshot now2 w1 snapshot) as (w2 & -> & Hq & _).
  - lia.
  - rewrite Hi, Hs. by replace (currentSnapshotIndex w - 1 + 1) with (currentSnapshotIndex w) by lia.
  - exists w2. by rewrite Hq.
Qed.

Lemma undo_redo_round_trip_witness :
  ∃ w', Session.undoThenRedo 20 30
          (answerQuestion DEFAULT_CONFIG 10 "1" ["1-B"] Samples.active3)
        = Some (true, true, w') ∧
        quiz w' = quiz (answerQuestion DEFAULT_CONFIG 10 "1" ["1-B"] Samples.active3).
Proof.
  eapply (undo_redo_round_trip 20 30 _
            (createSnapshot
               (quiz (answerQuestion DEFAULT_CONFIG 10 "1" ["1-B"] Samples.active3)) 10)).
  - discriminate.
  - vm_compute. reflexivity.
  - reflexivity.
  - apply StoreFacts.restoreFromSnapshot_createSnapshot.
Defined.

Lemma js_slice_from_all {A} (max : Z) (l : list A) :
  Z.of_nat (length l) ≤ max - 1 → js_slice_from (- max + 1) l = l.
Proof.
  intros Hlen. unfold js_slice_from.
  destruct (- max + 1 <? 0) eqn:Hneg.
  - by replace (Z.to_nat _) with 0%nat by lia.
  - by replace (Z.to_nat _) with 0%nat by lia.
Qed.

(** X15.  The main case: with the cursor on the newest snapshot and room
    for one more, [answerQuestion] followed at once by [undoAnswer()] and
    [redoAnswer()] ends in the state that the answer produced. *)
Lemma answer_undo_redo (config : StateManagerConfig) (now now1 now2 : Z) (w : Store)
    (questionId : string) (selectedAnswers : list string) :
  currentSnapshotIndex w = Z.of_nat (length (stateSnapshots w)) - 1 →
  0 ≤ currentSnapshotIndex w →
  Z.of_nat (length (stateSnapshots w)) < maxHistorySize config →
  let w1 := answerQuestion config now questionId selectedAnswers w in
  ∃ w', Session.undoThenRedo now1 now2 w1 = Some (true, true, w') ∧ quiz w' = quiz w1.
Proof.
  intros Hcur Hidx Hroom w1.
  destruct (StoreFacts.undoAnswer_last_entry now1 w1
              (js_slice_from (- maxHistorySize config + 1) (answerHistory w))
              {| entry_questionId := questionId;
                 entry_previousAnswers := default [] (answers (quiz w) !! questionId);
                 entry_newAnswers := selectedAnswers; entry_timestamp := now |})
    as (Hret & _ & _ & Hi & Hs & _); [done | subst w1; simpl; lia |].
  cbv zeta in Hi, Hs. unfold Session.undoThenRedo.
  destruct (undoAnswer now1 w1) as [undone w2]. simpl in Hret, Hi, Hs. subst undone.
  destruct (StoreFacts.redoAnswer_next_snapshot now2 w2 (createSnapshot (quiz w1) now))
    as (w3 & -> & Hq & _).
  - rewrite Hi. subst w1. simpl. lia.
  - rewrite Hi, Hs. subst w1. simpl. rewrite js_slice_from_all by lia.
    replace (Z.to_nat (currentSnapshotIndex w + 1 - 1 + 1))
      with (length (stateSnapshots w)) by lia.
    by rewrite lookup_app_r, Nat.sub_diag by done.
  - exists w3. by rewrite Hq, StoreFacts.restoreFromSnapshot_createSnapshot.
Qed.

(** Outside that case the pair can restore another answer: after an undo
    and a new answer the snapshot of the undone answer is still the one
    after the cursor. *)
Lemma redo_after_new_answer_restores_undone_one :
  answers (quiz Samples.answeredAgain3) !! "1" = Some ["1-C"] ∧
  (λ r, (r.1, answers (quiz r.2) !! "1")) <$>
    Session.undoThenRedo 40 50 Samples.answeredAgain3
  = Some (true, true, Some ["1-B"]).
Proof. split; by vm_compute. Qed.

(** *** What every session set up by [init] satisfies *)

Lemma init_fresh_invariant config (now : Z) (e : Exam) (m : QuizMode) (w : Store) :
  Session.sessionInvariant (init config now None e m w).
Proof.
  unfold Session.sessionInvariant. simpl. split; [done|]. split.
  - intros k. by rewrite lookup_empty.
  - constructor; [|done]. intros k. by vm_compute.
Qed.

Lemma init_resumed_invariant config (now : Z) (saved : QuizState) (e : Exam)
    (m : QuizMode) (w : Store) :
  Session.noEmptySelection (answers saved) →
  Session.sessionInvariant (init config now (Some saved) e m w).
Proof.
  intros Hsaved. unfold Session.sessionInvariant, init.
  destruct (submitted saved); cbn -[restoreFromSnapshot createSnapshot].
  - split; [done|]. split; [intros k; by rewrite lookup_empty|].
    constructor; [|done]. intros k. by vm_compute.
  - split; [done|]. split; [done|]. constructor; [|done].
    by rewrite StoreFacts.restoreFromSnapshot_createSnapshot.
Qed.

Lemma answerQuestion_invariant config now questionId selectedAnswers (w : Store) :
  Session.sessionInvariant w →
  Session.sessionInvariant (answerQuestion config now questionId selectedAnswers w).
Proof.
  intros (Hidx & Hne & Hsnaps). unfold Session.sessionInvariant.
  cbn -[restoreFromSnapshot createSnapshot].
  split; [lia|]. split; [by apply StoreFacts.storeSelection_noEmptySelection|].
  apply Forall_app. split.
  - destruct (StoreFacts.js_slice_from_suffix (- maxHistorySize config + 1) (stateSnapshots w))
      as [k Hk].
    rewrite Hk in Hsnaps. by apply Forall_app in Hsnaps as [_ ?].
  - constructor; [|done].
    rewrite StoreFacts.restoreFromSnapshot_createSnapshot.
    simpl. by apply StoreFacts.storeSelection_noEmptySelection.
Qed.

Lemma undoAnswer_invariant now (w : Store) :
  Session.sessionInvariant w → Session.sessionInvariant (undoAnswer now w).2.
Proof.
  intros (Hidx & Hne & Hsnaps). unfold undoAnswer.
  destruct ((length (answerHistory w) =? 0)%nat || (currentSnapshotIndex w <=? 0));
    [done|].
  destruct (last (answerHistory w)); [|done].
  unfold Session.sessionInvariant. simpl. split; [lia|].
  split; [by apply StoreFacts.storeSelection_noEmptySelection | done].
Qed.

Lemma redoAnswer_invariant now (w w' : Store) (redone : bool) :
  Session.sessionInvariant w → redoAnswer now w = returned (redone, w') → Session.sessionInvariant w'.
Proof.
  intros (Hidx & Hne & Hsnaps). unfold redoAnswer.
  destruct (Z.of_nat (length (stateSnapshots w)) - 1 <=? currentSnapshotIndex w).
  { intros [= _ <-]. done. }
  unfold js_index. destruct (currentSnapshotIndex w + 1 <? 0); [done|].
  destruct (stateSnapshots w !! Z.to_nat (currentSnapshotIndex w + 1)) as [s|] eqn:Hs; [|done].
  intros [= _ <-]. unfold Session.sessionInvariant.
  cbn -[restoreFromSnapshot]. split; [lia|]. split; [|done].
  exact (Forall_lookup_1 _ _ _ _ Hsnaps Hs).
Qed.

(** Navigation and flags touch neither the answers nor the snapshots. *)
Lemma trackNavigation_history config now from to r (w : Store) :
  let w' := trackNavigation config now from to r w in
  currentSnapshotIndex w' = currentSnapshotIndex w ∧
  stateSnapshots w' = stateSnapshots w ∧ quiz w' = quiz w.
Proof. unfold trackNavigation. by destruct (enableAnalytics config). Qed.

Lemma navigation_invariant config now index (w : Store) :
  Session.sessionInvariant w →
  Session.sessionInvariant (goToQuestion config now index w) ∧
  Session.sessionInvariant (nextQuestion config now w) ∧
  Session.sessionInvariant (previousQuestion config now w) ∧
  ∀ questionId, Session.sessionInvariant (toggleFlag config now questionId w).
Proof.
  intros (Hidx & Hne & Hsnaps). unfold Session.sessionInvariant.
  split; [|split; [|split]].
  - unfold goToQuestion.
    destruct (trackNavigation_history config now (currentQuestionIndex (quiz w)) index
                reason_jump w) as (Hi & Hs & _).
    cbv zeta in Hi, Hs.
    destruct (enableAnalytics config && (index <? currentQuestionIndex (quiz w)));
      simpl; by rewrite Hi, Hs.
  - unfold nextQuestion.
    destruct (trackNavigation_history config now (currentQuestionIndex (quiz w))
                (Z.min (currentQuestionIndex (quiz w) + 1) 999) reason_next w)
      as (Hi & Hs & _).
    cbv zeta in Hi, Hs. simpl. by rewrite Hi, Hs.
  - unfold previousQuestion.
    destruct (trackNavigation_history config now (currentQuestionIndex (quiz w))
                (Z.max (currentQuestionIndex (quiz w) - 1) 0) reason_previous w)
      as (Hi & Hs & _).
    cbv zeta in Hi, Hs.
    destruct (enableAnalytics config); simpl; by rewrite Hi, Hs.
  - intros questionId. unfold toggleFlag.
    by destruct (enableAnalytics config).
Qed.

(** X14.  The page keeps the index within the questions by asking before
    it moves: its handlers for the arrow keys and buttons never leave
    them. *)
Lemma guarded_navigation_in_bounds (config : StateManagerConfig) (now : Z) (w : Store)
    (e : Exam) :
  let questionCount := Z.of_nat (length (exam_questions e)) in
  0 ≤ currentQuestionIndex (quiz w) < questionCount →
  0 ≤ currentQuestionIndex (quiz (ExamPage.goToNext config now (Some e) w)) < questionCount ∧
  0 ≤ currentQuestionIndex (quiz (ExamPage.goToPrevious config now w)) < questionCount.
Proof.
  intros questionCount Hin. unfold ExamPage.goToNext, ExamPage.goToPrevious,
    ExamPage.canGoNext, ExamPage.canGoPrevious. fold questionCount. split.
  - destruct (currentQuestionIndex (quiz w) <? questionCount - 1) eqn:Hnext; [|done].
    apply Z.ltb_lt in Hnext. simpl. lia.
  - destruct (0 <? currentQuestionIndex (quiz w)) eqn:Hprev; [|done].
    simpl. lia.
Qed.

(** C9.  [answerQuestion(questionId, [])] removes the entry of
    [questionId] from the answer map: the question is unanswered again, it
    is no longer counted by [quizProgress], and [calculateResult] counts
    it as skipped. *)
Theorem answerQuestion_empty_selection (config : StateManagerConfig) (now : Z)
    (questionId : string) (w : Store) (e : Exam) (question : Question)
    (t : QuizScorer.Tally) :
  question_id question = questionId →
  let w' := answerQuestion config now questionId [] w in
  answers (quiz w') = delete questionId (answers (quiz w)) ∧
  answers (quiz w') !! questionId = None ∧
  answered (quizProgress (quiz w') (Some e)) =
    (answered (quizProgress (quiz w) (Some e)) -
     (if decide (is_Some (answers (quiz w) !! questionId)) then 1 else 0))%nat ∧
  isAnswered (navigationItem (quiz w') question 0) = false ∧
  (let t' := QuizScorer.scoreQuestion (answers (quiz w')) t question in
   QuizScorer.skippedCount t' = S (QuizScorer.skippedCount t) ∧
   QuizScorer.correctCount t' = QuizScorer.correctCount t ∧
   QuizScorer.incorrectCount t' = QuizScorer.incorrectCount t).
Proof.
  intros Hid. cbv zeta.
  set (w' := answerQuestion config now questionId [] w).
  assert (Hans : answers (quiz w') = delete questionId (answers (quiz w))) by done.
  split; [done|]. split; [rewrite Hans; apply lookup_delete_eq|]. split; [|split].
  - unfold quizProgress. cbn [answered]. rewrite Hans, map_size_delete.
    destruct (answers (quiz w) !! questionId) as [old|] eqn:Hold.
    + rewrite decide_True by eauto. simpl. lia.
    + rewrite decide_False by (by intros [? ?]). simpl. lia.
  - unfold navigationItem. cbn [isAnswered]. rewrite Hans, Hid, lookup_delete_eq.
    apply bool_decide_eq_false. by intros [? ?].
  - unfold QuizScorer.scoreQuestion, QuizScorer.userAnswersOf.
    rewrite Hans, Hid, lookup_delete_eq. by simpl.
Qed.

Lemma answerQuestion_empty_selection_witness :
  answers (quiz (answerQuestion DEFAULT_CONFIG 20 "1" []
                   (answerQuestion DEFAULT_CONFIG 10 "1" ["1-B"] Samples.active3)))
    !! "1" = None.
Proof.
  exact (proj1 (proj2
    (answerQuestion_empty_selection DEFAULT_CONFIG 20 "1"
       (answerQuestion DEFAULT_CONFIG 10 "1" ["1-B"] Samples.active3)
       Samples.exam3 (Samples.mkQuestion "1" ["1-B"]) QuizScorer.emptyTally eq_refl))).
Defined.

(** C10.  [currentQuestion] has a value for every state of the two stores
    it reads, and that value is [null] whenever no exam is loaded or the
    index is at or past the number of questions. *)
Theorem currentQuestion_null (q : QuizState) (currentExam : option Exam) :
  (currentExam = None ∨
   ∃ e, currentExam = Some e ∧
        Z.of_nat (length (exam_questions e)) ≤ currentQuestionIndex q) →
  currentQuestion q currentExam = js_null.
Proof.
  intros [->|(e & -> & Hout)]; [done|]. unfold currentQuestion.
  by settle (Z.of_nat (length (exam_questions e)) <=? currentQuestionIndex q) true.
Qed.

Lemma currentQuestion_null_witness :
  currentQuestion (quiz (goToQuestion DEFAULT_CONFIG 10 3 Samples.active3))
    (Some Samples.exam3) = js_null.
Proof.
  apply currentQuestion_null. right. exists Samples.exam3.
  split; [reflexivity | vm_compute; discriminate].
Defined.

(** Within the questions [currentQuestion] is the question under the
    index, and below them it is [undefined]: no index makes it throw. *)
Lemma currentQuestion_in_range (q : QuizState) (e : Exam) :
  0 ≤ currentQuestionIndex q < Z.of_nat (length (exam_questions e)) →
  ∃ question, exam_questions e !! Z.to_nat (currentQuestionIndex q) = Some question ∧
              currentQuestion q (Some e) = js_value question.
Proof.
  intros Hin. unfold currentQuestion, js_index.
  settle (Z.of_nat (length (exam_questions e)) <=? currentQuestionIndex q) false.
  settle (currentQuestionIndex q <? 0) false.
  destruct (lookup_lt_is_Some_2 (exam_questions e) (Z.to_nat (currentQuestionIndex q)))
    as [question Hq]; [lia|].
  exists question. by rewrite Hq.
Qed.

Lemma currentQuestion_negative_index (q : QuizState) (e : Exam) :
  currentQuestionIndex q < 0 → currentQuestion q (Some e) = js_undefined.
Proof.
  intros Hneg. unfold currentQuestion, js_index.
  settle (Z.of_nat (length (exam_questions e)) <=? currentQuestionIndex q) false.
  by settle (currentQuestionIndex q <? 0) true.
Qed.

(** ** The durable store *)

Lemma string_length_app (s1 s2 : string) :
  String.length (s1 +:+ s2) = (String.length s1 + String.length s2)%nat.
Proof. induction s1 as [|c s1 IH]; simpl; [done | by rewrite IH]. Qed.

Module StorageFacts.
Import StorageManager.

Section any_browser.
Variable env : Browser.

(** X17.  A write that returns [true] has put the value under the key,
    and a read that does not fail returns it. *)
Lemma safeSetItem_then_safeGetItem (now now' : Z) (key value : string) (st st' : Storage) :
  safeSetItem env now key value st = (true, st') →
  getItem_throws env key = None →
  safeGetItem env now' key st' = (Some value, st').
Proof.
  unfold safeSetItem, safeGetItem, getItem.
  destruct (browser env); simpl; [|done].
  destruct (checkAndCleanupStorage env now st) as [clean st1].
  destruct clean; simpl; [|done].
  unfold setItem.
  destruct (setItem_throws env _ key value); [done|].
  intros [= <-] ->. simpl. by rewrite lookup_insert_eq.
Qed.


(** X19.  When the backup taken by the failing write is the value that
    was stored, the key still holds that value afterwards. *)
Lemma safeSetItem_failure_keeps_backed_up_value (now : Z) (key value old : string)
    (st st1 st2 : Storage) (e : JsError) :
  browser env = true →
  checkAndCleanupStorage env now st = (true, st1) →
  localStorage st1 !! key = Some old →
  createBackup env key st1 = (true, st2) →
  setItem env key value st2 = inl e →
  getItem_throws env (key +:+ BACKUP_SUFFIX) = None →
  localStorage (safeSetItem env now key value st).2 !! key = Some old.
Proof.
  intros Hb Hclean Hold Hbackup Hset Hread.
  assert (Hne : key ≠ key +:+ BACKUP_SUFFIX).
  { intros Heq. apply (f_equal String.length) in Heq.
    rewrite string_length_app in Heq. simpl in Heq. lia. }
  unfold safeSetItem. rewrite Hb, Hclean. simpl. rewrite Hbackup. simpl. rewrite Hset.
  simpl. unfold createBackup in Hbackup. rewrite Hb in Hbackup. simpl in Hbackup.
  unfold getItem, setItem in Hbackup.
  destruct (getItem_throws env key); [done|]. rewrite Hold in Hbackup.
  destruct (truthy (Some old)) as [d|] eqn:Htruthy; [|done].
  assert (d = old) as ->.
  { simpl in Htruthy. by destruct (String.length old =? 0)%nat; simplify_eq. }
  destruct (setItem_throws env (localStorage st1) _ old); [done|].
  injection Hbackup as <-.
  unfold restoreFromBackup. rewrite Hb. simpl. unfold getItem. rewrite Hread. simpl.
  rewrite lookup_insert_eq, Htruthy. unfold setItem. simpl.
  destruct (setItem_throws env _ key old); simpl.
  - by rewrite lookup_insert_ne.
  - by rewrite lookup_delete_ne, lookup_insert_eq.
Qed.

End any_browser.

End StorageFacts.

(** C6 fails in the code.  On the full store [fullStorage] the write of
    [saved2] under [sessionKey] fails for lack of room: it returns [false]
    and emits a [quota_exceeded] error, as the claim says; but the backup
    it tried to take failed for the same reason, so what it restores is
    the older backup [saved0], and a read then returns [saved0] instead of
    the value [saved1] that was stored before the write. *)
Theorem failed_write_restores_older_backup :
  let env := Samples.quotaBrowser Samples.fullCapacity in
  let before := Samples.fullStorage in
  let write := StorageManager.safeSetItem env 50 Samples.sessionKey Samples.saved2 before in
  (StorageManager.safeGetItem env 40 Samples.sessionKey before).1 = Some Samples.saved1 ∧
  write.1 = false ∧
  StorageManager.error_type <$> StorageManager.emitted write.2
    = [StorageManager.quota_exceeded] ∧
  (StorageManager.safeGetItem env 60 Samples.sessionKey write.2).1 = Some Samples.saved0.
Proof. repeat split; by vm_compute. Qed.

(** The same slip brings back a record that was cleared: [clearQuizState]
    leaves the backup, and a first write that fails puts it under the key. *)
Lemma failed_write_revives_cleared_record :
  let env := Samples.quotaBrowser Samples.fullCapacity in
  let before := Samples.clearedStorage in
  let write := StorageManager.safeSetItem env 50 Samples.sessionKey Samples.saved2 before in
  (StorageManager.safeGetItem env 40 Samples.sessionKey before).1 = None ∧
  write.1 = false ∧
  (StorageManager.safeGetItem env 60 Samples.sessionKey write.2).1 = Some Samples.saved0.
Proof. repeat split; by vm_compute. Qed.

(** ** The offline queue *)

(** C8.  The code does not do what the claim says of an action that has
    used up its retries.  In [afterThirdRetry] the action has failed its
    first attempt and three retries, and it is in the queue as a pending
    action like any other.  The call of [scheduleRetry] that gives up on
    it is the branch whose comment reads "move to failed actions or
    discard": it does neither, and changes neither the queue, nor the
    timers, nor what is saved; it only prints a warning.  Nothing marks
    the action as abandoned, and the next [syncPendingActions] processes
    it once more. *)
Lemma abandoned_action_leaves_no_mark :
  let action := OfflineStore.with_retryCount 3 Samples.stuckAction in
  let w := Samples.afterThirdRetry in
  let w' := OfflineStore.scheduleRetry action w in
  let synced := OfflineStore.syncPendingActions 60000 w in
  OfflineStore.pendingActions (OfflineStore.offline w) = [action] ∧
  OfflineStore.offline w' = OfflineStore.offline w ∧
  OfflineStore.savedStates w' = OfflineStore.savedStates w ∧
  OfflineStore.timers w' = OfflineStore.timers w ∧
  OfflineStore.retryTimeouts w' = OfflineStore.retryTimeouts w ∧
  OfflineStore.pendingActions (OfflineStore.offline synced) = [action] ∧
  drop (length (OfflineStore.console w)) (OfflineStore.console synced) =
    [OfflineStore.console_log "Syncing 1 pending actions...";
     OfflineStore.console_error
       "Failed to process action: 1700000000000-k3j9x2m1q Unknown action type: sync";
     OfflineStore.console_warn "Max retries reached for action: 1700000000000-k3j9x2m1q"].
Proof. repeat split; by vm_compute. Qed.

(** The part of the retry policy that the code keeps.  For every action
    with retry count [r], a non-negative integer: below 3, [scheduleRetry]
    arms one timer, with delay [min(1000 * 2^r, 30000)] milliseconds,
    which is 1, 2 and 4 seconds for the three retries; from 3 on it arms
    none and prints the warning, and the action is not deleted from the
    queue. *)
Theorem scheduleRetry_backoff (action : OfflineStore.PendingAction) (w : OfflineStore.World) :
  0 ≤ OfflineStore.retryCount action →
  let r := OfflineStore.retryCount action in
  let w' := OfflineStore.scheduleRetry action w in
  OfflineStore.offline w' = OfflineStore.offline w ∧
  OfflineStore.savedStates w' = OfflineStore.savedStates w ∧
  (if r <? 3 then
     OfflineStore.timers w' =
       OfflineStore.timers w ++
       [{| OfflineStore.timer_handle := OfflineStore.nextHandle w;
           OfflineStore.timer_delay := Z.min (1000 * 2 ^ r) 30000;
           OfflineStore.timer_callback := OfflineStore.retryCallback action |}] ∧
     Z.min (1000 * 2 ^ r) 30000 = match r with 0 => 1000 | 1 => 2000 | _ => 4000 end ∧
     OfflineStore.console w' = OfflineStore.console w
   else
     OfflineStore.timers w' = OfflineStore.timers w ∧
     OfflineStore.retryTimeouts w' = OfflineStore.retryTimeouts w ∧
     OfflineStore.console w' =
       OfflineStore.console w ++
       [OfflineStore.console_warn
          ("Max retries reached for action: " +:+ OfflineStore.action_id action)]).
Proof.
  intros Hr. cbv zeta. unfold OfflineStore.scheduleRetry, OfflineStore.retryDelay.
  rewrite Z.leb_antisym.
  destruct (OfflineStore.retryCount action <? 3) eqn:Hlt; simpl.
  - repeat split; try done. apply Z.ltb_lt in Hlt.
    assert (OfflineStore.retryCount action = 0 ∨ OfflineStore.retryCount action = 1 ∨
            OfflineStore.retryCount action = 2) as [->| [->| ->]] by lia; done.
  - by repeat split.
Qed.

Lemma scheduleRetry_backoff_witness :
  OfflineStore.timer_delay <$> OfflineStore.timers
    (OfflineStore.scheduleRetry Samples.stuckAction Samples.onlineWorld) = [1000].
Proof.
  pose proof (scheduleRetry_backoff Samples.stuckAction Samples.onlineWorld) as H.
  cbv zeta in H. simpl OfflineStore.retryCount in H. simpl Z.ltb in H.
  destruct H as (_ & _ & Htimers & _ & _); [done|].
  rewrite Htimers. reflexivity.
Defined.

(** A retry that fails keeps the action in the queue, with its count
    raised by one. *)
Lemma runRetry_failure_keeps_queue (action : OfflineStore.PendingAction)
    (w : OfflineStore.World) :
  (OfflineStore.processPendingAction action w).1 = false →
  OfflineStore.action_id <$>
    OfflineStore.pendingActions (OfflineStore.offline (OfflineStore.runRetry action w))
  = OfflineStore.action_id <$> OfflineStore.pendingActions (OfflineStore.offline w).
Proof.
  unfold OfflineStore.runRetry, OfflineStore.processPendingAction.
  destruct (OfflineStore.action_type action); simpl; try done. intros _.
  unfold OfflineStore.scheduleRetry. simpl.
  destruct (3 <=? OfflineStore.retryCount action + 1); simpl.
  - rewrite <-list_fmap_compose. apply list_fmap_ext. intros _ a _. simpl.
    by case_bool_decide.
  - rewrite <-list_fmap_compose. apply list_fmap_ext. intros _ a _. simpl.
    by case_bool_decide.
Qed.

(** The run of scenario 6: the first attempt and the three retries all
    fail; the retries are armed 1, 2 and 4 seconds ahead, after the third
    none is armed, and the action is still in the queue with count 3. *)
Lemma three_retries_then_none :
  OfflineStore.timer_delay <$> OfflineStore.timers Samples.afterFirstAttempt = [1000] ∧
  OfflineStore.timer_delay <$> OfflineStore.timers Samples.afterFirstRetry = [2000] ∧
  OfflineStore.timer_delay <$> OfflineStore.timers Samples.afterSecondRetry = [4000] ∧
  OfflineStore.timers Samples.afterThirdRetry = [] ∧
  OfflineStore.pendingActions (OfflineStore.offline Samples.afterThirdRetry)
    = [OfflineStore.with_retryCount 3 Samples.stuckAction] ∧
  last (OfflineStore.console Samples.afterThirdRetry)
    = Some (OfflineStore.console_warn
              "Max retries reached for action: 1700000000000-k3j9x2m1q").
Proof. repeat split; by vm_compute. Qed.

(** * Further properties of the code *)

(** ** The scorer *)

Lemma Qle_bool_false (x y : Q) : Qle_bool x y = false → (y < x)%Q.
Proof.
  intros H. apply Qnot_le_lt. intros Hle. apply Qle_bool_iff in Hle. congruence.
Qed.

(** X1.  With the default passing score of 70, [calculatePassStatus]
    reports a pass exactly for the grades A, B and C; the grade is A from
    90 percent on and F below 60. *)
Theorem calculatePassStatus_default (percentage : Q) :
  let s := QuizScorer.calculatePassStatus percentage QuizScorer.DEFAULT_PASSING_SCORE in
  (QuizScorer.passed s = true ↔
   QuizScorer.grade s = "A" ∨ QuizScorer.grade s = "B" ∨ QuizScorer.grade s = "C") ∧
  (QuizScorer.grade s = "A" ↔ (90 <= percentage)%Q) ∧
  (QuizScorer.grade s = "F" ↔ (percentage < 60)%Q).
Proof.
  cbv zeta. unfold QuizScorer.calculatePassStatus, QuizScorer.DEFAULT_PASSING_SCORE.
  destruct (Qle_bool 90 percentage) eqn:H90;
    [apply Qle_bool_iff in H90 | apply Qle_bool_false in H90];
  (destruct (Qle_bool 80 percentage) eqn:H80;
    [apply Qle_bool_iff in H80 | apply Qle_bool_false in H80]);
  (destruct (Qle_bool 70 percentage) eqn:H70;
    [apply Qle_bool_iff in H70 | apply Qle_bool_false in H70]);
  (destruct (Qle_bool 60 percentage) eqn:H60;
    [apply Qle_bool_iff in H60 | apply Qle_bool_false in H60]);
  simpl; try lra;
  (split; [|split]); split; intros H;
  first [ done | lra | by (destruct H as [H|[H|H]]) | by left | by right; left
        | by right; right ].
Qed.

(** X2.  For a duration that is not negative, the numbers that
    [formatDuration] prints are the hours, minutes below 60 and seconds
    below 60 that add up to the whole seconds of the duration; hours, and
    minutes with them, are left out while they are zero. *)
Theorem formatDuration_parts (milliseconds : Z) :
  0 ≤ milliseconds →
  ∃ h m sec : Z,
    0 ≤ h ∧ 0 ≤ m < 60 ∧ 0 ≤ sec < 60 ∧
    h * 3600 + m * 60 + sec = milliseconds / 1000 ∧
    QuizScorer.formatDuration milliseconds =
      if 0 <? h then
        pretty h +:+ "h " +:+ pretty m +:+ "m " +:+ pretty sec +:+ "s"
      else if 0 <? m then pretty m +:+ "m " +:+ pretty sec +:+ "s"
      else pretty sec +:+ "s".
Proof.
  intros Hms. unfold QuizScorer.formatDuration.
  set (seconds := milliseconds / 1000).
  set (minutes := seconds / 60).
  assert (Hs : 0 ≤ seconds) by (apply Z.div_pos; lia).
  assert (Hm : 0 ≤ minutes) by (apply Z.div_pos; lia).
  exists (minutes / 60), (Z.rem minutes 60), (Z.rem seconds 60).
  rewrite !Z.rem_mod_nonneg by lia.
  pose proof (Z.mod_pos_bound minutes 60 ltac:(lia)) as Hbm.
  pose proof (Z.mod_pos_bound seconds 60 ltac:(lia)) as Hbs.
  pose proof (Z.div_mod minutes 60 ltac:(lia)) as Hdm.
  pose proof (Z.div_mod seconds 60 ltac:(lia)) as Hds. fold minutes in Hds.
  split; [apply Z.div_pos; lia|]. split; [done|]. split; [done|]. split; [lia|].
  destruct (0 <? minutes / 60) eqn:Hh; [done|].
  apply Z.ltb_ge in Hh.
  assert (minutes / 60 = 0) as Hzero by (pose proof (Z.div_pos minutes 60); lia).
  assert (minutes `mod` 60 = minutes) as -> by lia.
  destruct (0 <? minutes) eqn:Hmin; [done|].
  apply Z.ltb_ge in Hmin. assert (minutes = 0) as Hm0 by lia.
  by assert (seconds `mod` 60 = seconds) as -> by lia.
Qed.

Lemma formatDuration_parts_witness :
  ∃ h m sec : Z,
    0 ≤ h ∧ 0 ≤ m < 60 ∧ 0 ≤ sec < 60 ∧
    h * 3600 + m * 60 + sec = 3725000 / 1000 ∧
    QuizScorer.formatDuration 3725000 =
      if 0 <? h then
        pretty h +:+ "h " +:+ pretty m +:+ "m " +:+ pretty sec +:+ "s"
      else if 0 <? m then pretty m +:+ "m " +:+ pretty sec +:+ "s"
      else pretty sec +:+ "s".
Proof. apply formatDuration_parts. lia. Defined.

Lemma js_Math_round_nonneg (q : Q) : (0 <= q)%Q → 0 ≤ js_Math_round q.
Proof.
  intros Hq. unfold js_Math_round.
  change 0 with (Qfloor 0). apply Qfloor_resp_le. lra.
Qed.

(** X3.  With the index of the current question between 0 and the number
    of questions, and an elapsed time that is not negative,
    [estimateCompletionTime] is never negative, and it is 0 once the index
    has reached the number of questions. *)
Theorem estimateCompletionTime_bounds (currentQuestionIndex totalQuestions timeElapsed : Z) :
  0 ≤ currentQuestionIndex ≤ totalQuestions →
  0 ≤ timeElapsed →
  0 ≤ QuizScorer.estimateCompletionTime currentQuestionIndex totalQuestions timeElapsed ∧
  QuizScorer.estimateCompletionTime totalQuestions totalQuestions timeElapsed = 0.
Proof.
  intros Hidx Ht. unfold QuizScorer.estimateCompletionTime. split.
  - destruct (currentQuestionIndex =? 0) eqn:Hz; [done|].
    apply Z.eqb_neq in Hz. apply js_Math_round_nonneg.
    unfold js_mul, js_div. apply binary64_nonneg, Qmult_le_0_compat.
    + change 0%Q with (inject_Z 0). rewrite <-Zle_Qle. lia.
    + apply binary64_nonneg, Qle_shift_div_l.
      * change 0%Q with (inject_Z 0). rewrite <-Zlt_Qlt. lia.
      * rewrite Qmult_0_l. change 0%Q with (inject_Z 0). rewrite <-Zle_Qle. lia.
  - destruct (totalQuestions =? 0); [done|].
    rewrite Z.sub_diag. unfold js_mul.
    by rewrite binary64_0 by (change (inject_Z 0) with 0%Q; apply Qmult_0_l).
Qed.

Lemma estimateCompletionTime_bounds_witness :
  0 ≤ QuizScorer.estimateCompletionTime 13 65 1300000 ∧
  QuizScorer.estimateCompletionTime 65 65 1300000 = 0.
Proof. apply estimateCompletionTime_bounds; lia. Defined.

(** The estimate follows the doubles: after 49 ms on 6 of 21 questions the
    average is the double below 49/6, its product with 15 is the double
    below 122.5, and the estimate is 122 where exact arithmetic would
    give 123. *)
Lemma estimateCompletionTime_rounds_as_doubles :
  QuizScorer.estimateCompletionTime 6 21 49 = 122 ∧
  js_Math_round (15 * (49 / 6))%Q = 123.
Proof. by vm_compute. Qed.

(** ** The quiz store *)

(** X4.  [toggleFlag] is its own inverse: the first call changes whether
    the question is flagged, and a second call for the same question
    brings back the set of flagged questions and the [flagsUsed] counter;
    neither call touches the answers or the index. *)
Theorem toggleFlag_twice (config : StateManagerConfig) (now1 now2 : Z)
    (questionId : string) (w : Store) :
  let w1 := toggleFlag config now1 questionId w in
  let w2 := toggleFlag config now2 questionId w1 in
  (questionId ∈ flaggedQuestions (quiz w1) ↔ questionId ∉ flaggedQuestions (quiz w)) ∧
  flaggedQuestions (quiz w2) = flaggedQuestions (quiz w) ∧
  flagsUsed (analytics w2) = flagsUsed (analytics w) ∧
  answers (quiz w2) = answers (quiz w) ∧
  currentQuestionIndex (quiz w2) = currentQuestionIndex (quiz w).
Proof.
  cbv zeta. unfold toggleFlag.
  destruct (enableAnalytics config); simpl;
    (destruct (decide (questionId ∈ flaggedQuestions (quiz w))) as [Hin|Hout];
     [ rewrite (bool_decide_eq_true_2 _ Hin); simpl;
       rewrite bool_decide_eq_false_2 by set_solver
     | rewrite (bool_decide_eq_false_2 _ Hout); simpl;
       rewrite bool_decide_eq_true_2 by set_solver ]);
    simpl; (split; [set_solver|]); (split; [|split; [lia || done | done]]).
  all: apply set_eq; intros x; destruct (decide (x = questionId)); set_solver.
Qed.

(** X5.  After [init] the [flagsUsed] counter is the number of flagged
    questions, and with analytics enabled [toggleFlag] keeps it so. *)
Theorem flagsUsed_counts_flags (config : StateManagerConfig) (now : Z)
    (questionId : string) (w : Store) :
  enableAnalytics config = true →
  flagsUsed (analytics w) = Z.of_nat (size (flaggedQuestions (quiz w))) →
  let w' := toggleFlag config now questionId w in
  flagsUsed (analytics w') = Z.of_nat (size (flaggedQuestions (quiz w'))).
Proof.
  intros Hon Hcount. cbv zeta. unfold toggleFlag. rewrite Hon. simpl.
  destruct (decide (questionId ∈ flaggedQuestions (quiz w))) as [Hin|Hout].
  - rewrite (bool_decide_eq_true_2 _ Hin).
    rewrite size_difference by set_solver. rewrite size_singleton.
    assert (size (flaggedQuestions (quiz w)) ≠ 0%nat).
    { intros Hz. apply size_empty_inv in Hz. set_solver. }
    lia.
  - rewrite (bool_decide_eq_false_2 _ Hout).
    rewrite size_union by set_solver. rewrite size_singleton. lia.
Qed.

Lemma flagsUsed_counts_flags_witness :
  flagsUsed (analytics (toggleFlag DEFAULT_CONFIG 10 "2" Samples.active3))
  = Z.of_nat (size (flaggedQuestions (quiz (toggleFlag DEFAULT_CONFIG 10 "2" Samples.active3)))).
Proof. apply flagsUsed_counts_flags; reflexivity. Defined.

Lemma answerQuestion_lengths (config : StateManagerConfig) (now : Z) (questionId : string)
    (selectedAnswers : list string) (w : Store) :
  let trim {A} (l : list A) := js_slice_from (- maxHistorySize config + 1) l in
  let w' := answerQuestion config now questionId selectedAnswers w in
  length (answerHistory w') = S (length (trim (answerHistory w))) ∧
  length (stateSnapshots w') = S (length (trim (stateSnapshots w))).
Proof. cbv zeta. simpl. rewrite !length_app. simpl. lia. Qed.

(** X6.  With [maxHistorySize] at least 2, the answer history and the
    snapshot list never grow beyond [maxHistorySize] entries, however many
    answers are given. *)
Theorem histories_bounded (config : StateManagerConfig) (calls : list Session.AnswerCall)
    (w : Store) :
  2 ≤ maxHistorySize config →
  Z.of_nat (length (answerHistory w)) ≤ maxHistorySize config →
  Z.of_nat (length (stateSnapshots w)) ≤ maxHistorySize config →
  let w' := Session.answerAll config calls w in
  Z.of_nat (length (answerHistory w')) ≤ maxHistorySize config ∧
  Z.of_nat (length (stateSnapshots w')) ≤ maxHistorySize config.
Proof.
  intros Hmax. revert w. induction calls as [|c calls IH]; intros w Hh Hs; [done|].
  cbv zeta. simpl Session.answerAll.
  change (fold_left _ calls ?x) with (Session.answerAll config calls x).
  destruct (answerQuestion_lengths config (Session.call_time c) (Session.call_questionId c)
              (Session.call_selectedAnswers c) w) as [Hh' Hs'].
  cbv zeta in Hh', Hs'.
  pose proof (StoreFacts.js_slice_from_bound (maxHistorySize config) (answerHistory w) Hmax).
  pose proof (StoreFacts.js_slice_from_bound (maxHistorySize config) (stateSnapshots w) Hmax).
  apply IH; lia.
Qed.

Lemma histories_bounded_witness :
  Z.of_nat (length (answerHistory
    (Session.answerAll DEFAULT_CONFIG Samples.answers51 Samples.active3))) ≤ 50 ∧
  Z.of_nat (length (stateSnapshots
    (Session.answerAll DEFAULT_CONFIG Samples.answers51 Samples.active3))) ≤ 50.
Proof.
  apply (histories_bounded DEFAULT_CONFIG Samples.answers51 Samples.active3);
    vm_compute; discriminate.
Defined.

(** With [maxHistorySize] set to 1 the cut [slice(-1 + 1)] is [slice(0)],
    which keeps everything: the answer history and the snapshot list grow
    by one entry with every answer. *)
Lemma histories_unbounded_at_one (config : StateManagerConfig)
    (calls : list Session.AnswerCall) (w : Store) :
  maxHistorySize config = 1 →
  let w' := Session.answerAll config calls w in
  length (answerHistory w') = (length (answerHistory w) + length calls)%nat ∧
  length (stateSnapshots w') = (length (stateSnapshots w) + length calls)%nat.
Proof.
  intros Hone. revert w. induction calls as [|c calls IH]; intros w.
  { simpl. lia. }
  cbv zeta. simpl Session.answerAll.
  change (fold_left _ calls ?x) with (Session.answerAll config calls x).
  destruct (IH (answerQuestion config (Session.call_time c) (Session.call_questionId c)
                  (Session.call_selectedAnswers c) w)) as [Hh Hs].
  rewrite Hh, Hs.
  destruct (answerQuestion_lengths config (Session.call_time c) (Session.call_questionId c)
              (Session.call_selectedAnswers c) w) as [Hh' Hs'].
  cbv zeta in Hh', Hs'. rewrite Hh', Hs'.
  assert (Htrim : ∀ A (l : list A), js_slice_from (- maxHistorySize config + 1) l = l).
  { intros A l. rewrite Hone. unfold js_slice_from.
    change (- (1) + 1 <? 0) with false. cbv iota.
    by replace (Z.to_nat (Z.min (- (1) + 1) (Z.of_nat (length l)))) with 0%nat by lia. }
  rewrite !Htrim. simpl length. lia.
Qed.

(** X7.  Once the snapshot list is full and the cursor is on its newest
    snapshot, an answer that is undone cannot be redone: the new snapshot
    pushes the oldest out while the cursor still counts it, so
    [undoAnswer()] returns [true] and the [redoAnswer()] after it returns
    [false] and leaves the store as the undo left it. *)
Theorem redo_unavailable_when_full (config : StateManagerConfig) (now now1 now2 : Z)
    (questionId : string) (selectedAnswers : list string) (w : Store) :
  2 ≤ maxHistorySize config →
  Z.of_nat (length (stateSnapshots w)) = maxHistorySize config →
  Z.of_nat (length (stateSnapshots w)) - 1 ≤ currentSnapshotIndex w →
  let w1 := answerQuestion config now questionId selectedAnswers w in
  Session.undoThenRedo now1 now2 w1 = Some (true, false, (undoAnswer now1 w1).2) ∧
  canRedo (undoAnswer now1 w1).2 = false.
Proof.
  intros Hmax Hfull Hcur w1.
  destruct (StoreFacts.undoAnswer_last_entry now1 w1
              (js_slice_from (- maxHistorySize config + 1) (answerHistory w))
              {| entry_questionId := questionId;
                 entry_previousAnswers := default [] (answers (quiz w) !! questionId);
                 entry_newAnswers := selectedAnswers; entry_timestamp := now |})
    as (Hret & _ & _ & Hi & Hs & _); [done | subst w1; simpl; lia |].
  cbv zeta in Hi, Hs. unfold Session.undoThenRedo.
  destruct (undoAnswer now1 w1) as [undone w2]. simpl in Hret, Hi, Hs. subst undone.
  simpl snd.
  assert (Hlen : Z.of_nat (length (stateSnapshots w2)) = maxHistorySize config).
  { rewrite Hs. subst w1. simpl. rewrite length_app. simpl.
    unfold js_slice_from. rewrite length_drop.
    destruct (- maxHistorySize config + 1 <? 0) eqn:Hneg; lia. }
  assert (Hidx : maxHistorySize config - 1 ≤ currentSnapshotIndex w2).
  { rewrite Hi. subst w1. simpl. lia. }
  unfold redoAnswer, canRedo.
  settle (Z.of_nat (length (stateSnapshots w2)) - 1 <=? currentSnapshotIndex w2) true.
  split; [done|]. apply Z.ltb_ge. lia.
Qed.

Lemma redo_unavailable_when_full_witness :
  canRedo (undoAnswer 60 (answerQuestion DEFAULT_CONFIG 50 "1" ["1-B"] Samples.snapshotsFull3)).2
  = false.
Proof.
  refine (proj2 (redo_unavailable_when_full DEFAULT_CONFIG 50 60 70 "1" ["1-B"]
                   Samples.snapshotsFull3 _ _ _)).
  - vm_compute. discriminate.
  - vm_compute. reflexivity.
  - vm_compute. discriminate.
Defined.

(** X8.  [canUndo()] and [canRedo()] tell what the calls will do: with a
    cursor that is not below -1, [undoAnswer()] returns what [canUndo()]
    says and [redoAnswer()] returns, without throwing, what [canRedo()]
    says; a call that returns [false] leaves the store untouched, and
    makes no call on the durable store. *)
Theorem undo_redo_availability (now : Z) (w : Store) :
  -1 ≤ currentSnapshotIndex w →
  ((undoAnswer now w).1 = canUndo w ∧
   (canUndo w = false → (undoAnswer now w).2 = w)) ∧
  ∃ w', redoAnswer now w = returned (canRedo w, w') ∧ (canRedo w = false → w' = w).
Proof.
  intros Hidx. split.
  - unfold undoAnswer, canUndo.
    destruct (answerHistory w) as [|lastEntry history _] using rev_ind; [done|].
    rewrite length_app, last_snoc. simpl.
    settle (length history + 1 =? 0)%nat false.
    replace (0 <? length history + 1)%nat with true
      by (symmetry; apply Nat.ltb_lt; lia).
    simpl.
    rewrite Z.leb_antisym. destruct (0 <? currentSnapshotIndex w); simpl; [|done].
    split; [done|]. discriminate.
  - unfold redoAnswer, canRedo. rewrite Z.leb_antisym.
    destruct (currentSnapshotIndex w <? Z.of_nat (length (stateSnapshots w)) - 1) eqn:Hlt;
      simpl; [|by eexists].
    apply Z.ltb_lt in Hlt. unfold js_index.
    settle (currentSnapshotIndex w + 1 <? 0) false.
    destruct (lookup_lt_is_Some_2 (stateSnapshots w) (Z.to_nat (currentSnapshotIndex w + 1)))
      as [snapshot ->]; [lia|].
    eexists. split; [reflexivity | discriminate].
Qed.

Lemma undo_redo_availability_witness :
  (undoAnswer 10 Samples.active3).1 = canUndo Samples.active3.
Proof.
  refine (proj1 (proj1 (undo_redo_availability 10 Samples.active3 _))).
  vm_compute. discriminate.
Defined.

(** What [submit()] leaves: the session marked submitted, with its end
    time and elapsed time, the durable record cleared and the timer off. *)
Lemma submit_result (now : Z) (w : Store) :
  let w' := submit now w in
  submitted (quiz w') = true ∧
  endTime (quiz w') = Some now ∧
  timeElapsed (quiz w') = Some (now - startTime (quiz w)) ∧
  autoSaveTimer w' = None ∧
  storageCalls w' = storageCalls w ++ [clearQuizState (examId (quiz w))] ∧
  answers (quiz w') = answers (quiz w) ∧
  flaggedQuestions (quiz w') = flaggedQuestions (quiz w) ∧
  currentQuestionIndex (quiz w') = currentQuestionIndex (quiz w).
Proof. done. Qed.

(** X9.  The auto-save never saves a submitted session: on a store whose
    session is submitted, whether its timer is still armed or not, any
    number of ticks leaves the store as it is and makes no call on the
    durable store. *)
Theorem autosave_skips_submitted (ticks : list Z) (w : Store) :
  submitted (quiz w) = true →
  fold_left (λ acc tick, autoSaveTick tick acc) ticks w = w.
Proof.
  intros Hsub. induction ticks as [|tick ticks IH]; [done|]. simpl.
  replace (autoSaveTick tick w) with w; [exact IH|].
  unfold autoSaveTick. destruct (autoSaveTimer w) as [[id interval]|]; [|done].
  by rewrite Hsub.
Qed.

Lemma autosave_skips_submitted_witness :
  fold_left (λ acc tick, autoSaveTick tick acc) [5100; 10100]
    (startAutoSave DEFAULT_CONFIG "practice-exam-1" Samples.submitted3)
  = startAutoSave DEFAULT_CONFIG "practice-exam-1" Samples.submitted3.
Proof. apply autosave_skips_submitted. reflexivity. Defined.

(** An armed timer on an open session saves the current state at each
    tick. *)
Lemma autoSaveTick_open (now : Z) (w : Store) (id : string) (interval : Z) :
  autoSaveTimer w = Some (id, interval) → submitted (quiz w) = false →
  autoSaveTick now w = call_storage (saveQuizState id (quiz w) now) w.
Proof. intros Htimer Hopen. unfold autoSaveTick. by rewrite Htimer, Hopen. Qed.

(** X10.  [init] resumes a saved session that was not submitted as it
    was saved, without writing to the durable store, and takes the flag
    count from it; a saved session that was submitted is ignored like a
    missing one.  Either way the undo history is empty and the snapshot
    list holds the one snapshot of the initial state, so that neither undo
    nor redo is available. *)
Theorem init_resumes_unsubmitted (config : StateManagerConfig) (now : Z)
    (saved old : QuizState) (e : Exam) (m : QuizMode) (w : Store) :
  submitted saved = false →
  submitted old = true →
  let resumed := init config now (Some saved) e m w in
  quiz resumed = saved ∧
  storageCalls resumed = storageCalls w ∧
  flagsUsed (analytics resumed) = Z.of_nat (size (flaggedQuestions saved)) ∧
  canUndo resumed = false ∧ canRedo resumed = false ∧
  restoreFromSnapshot <$> stateSnapshots resumed = [saved] ∧
  init config now (Some old) e m w = init config now None e m w.
Proof.
  intros Hsaved Hold. cbv zeta. unfold init. rewrite Hsaved, Hold.
  cbn -[restoreFromSnapshot createSnapshot].
  by rewrite StoreFacts.restoreFromSnapshot_createSnapshot.
Qed.

Lemma init_resumes_unsubmitted_witness :
  quiz (init DEFAULT_CONFIG 500 (Some Samples.savedState3) Samples.exam3 mode_exam
          (createQuizStore 400)) = Samples.savedState3.
Proof.
  refine (proj1 (init_resumes_unsubmitted DEFAULT_CONFIG 500 Samples.savedState3
                   (quiz Samples.submitted3) Samples.exam3 mode_exam (createQuizStore 400)
                   _ _)); reflexivity.
Defined.

(** A fresh [init] starts at the first question with no answer and no
    flag, saves that state under the exam's id and arms the auto-save for
    it. *)
Lemma init_fresh_session (config : StateManagerConfig) (now : Z) (e : Exam)
    (m : QuizMode) (w : Store) :
  let fresh := init config now None e m w in
  examId (quiz fresh) = exam_id e ∧ mode (quiz fresh) = m ∧
  currentQuestionIndex (quiz fresh) = 0 ∧
  answers (quiz fresh) = ∅ ∧ flaggedQuestions (quiz fresh) = ∅ ∧
  submitted (quiz fresh) = false ∧ startTime (quiz fresh) = now ∧
  storageCalls fresh = storageCalls w ++ [saveQuizState (exam_id e) (quiz fresh) now] ∧
  autoSaveTimer fresh = Some (exam_id e, autoSaveInterval config) ∧
  answered (quizProgress (quiz fresh) (Some e)) = 0%nat ∧
  canUndo fresh = false ∧ canRedo fresh = false.
Proof. cbv zeta. by repeat split. Qed.

Lemma size_list_to_set_le (l : list string) :
  (size (list_to_set l : gset string) ≤ length l)%nat.
Proof.
  pose proof (NoDup_elements (list_to_set l : gset string)) as Hnd.
  apply NoDup_ListNoDup in Hnd. apply (NoDup_incl_length Hnd).
  intros x Hx. apply list_elem_of_In in Hx. apply list_elem_of_In.
  apply elem_of_elements in Hx. by apply elem_of_list_to_set in Hx.
Qed.

(** X11.  When every answered question is a question of the exam,
    [quizProgress] counts at most as many answered questions as the exam
    has, and its percentage is between 0 and 100. *)
Theorem quizProgress_bounded (q : QuizState) (e : Exam) :
  dom (answers q) ⊆ list_to_set (question_id <$> exam_questions e) →
  let p := quizProgress q (Some e) in
  (answered p ≤ total p)%nat ∧ (0 <= percentage p)%Q ∧ (percentage p <= 100)%Q.
Proof.
  intros Hdom. cbv zeta. unfold quizProgress. cbn [answered total percentage].
  assert (Hle : (size (answers q) ≤ length (exam_questions e))%nat).
  { rewrite <-size_dom. etrans; [apply subseteq_size, Hdom|].
    etrans; [apply size_list_to_set_le|]. by rewrite length_fmap. }
  split; [done|].
  destruct (0 <? length (exam_questions e))%nat eqn:Hpos.
  - apply Nat.ltb_lt in Hpos.
    by destruct (ScorerFacts.js_percentage _ _ Hle Hpos) as (? & ? & _).
  - split; unfold Qle; simpl; lia.
Qed.

Lemma quizProgress_bounded_witness :
  let p := quizProgress Samples.savedState3 (Some Samples.exam3) in
  (answered p ≤ total p)%nat ∧ (0 <= percentage p)%Q ∧ (percentage p <= 100)%Q.
Proof.
  apply quizProgress_bounded. intros x Hx.
  apply elem_of_dom in Hx as [sel Hx]. simpl in Hx.
  apply lookup_singleton_Some in Hx as [<- _]. simpl. set_solver.
Defined.

(** X12.  For a question that has a stored, non-empty selection, the
    [isCorrect] mark of its navigation item is the verdict of
    [QuizScorer.isAnswerCorrect], provided neither the selection nor the
    correct answers repeat an id. *)
Theorem navigationItems_agree_with_scorer (q : QuizState) (e : Exam) (index : nat)
    (question : Question) (selection : list string) :
  exam_questions e !! index = Some question →
  answers q !! question_id question = Some selection →
  selection ≠ [] →
  NoDup selection →
  NoDup (question_correctAnswers question) →
  ∃ item, navigationItems q (Some e) !! index = Some item ∧
          questionNumber item = Z.of_nat index + 1 ∧
          isAnswered item = true ∧
          isCorrect item = Some (QuizScorer.isAnswerCorrect question selection).
Proof.
  intros Hq Hsel Hne Hnd Hndc. exists (navigationItem q question index).
  split; [|split; [done|]].
  { unfold navigationItems. by rewrite list_lookup_imap, Hq. }
  unfold navigationItem. cbn [isAnswered isCorrect]. rewrite Hsel.
  rewrite bool_decide_eq_true_2 by eauto. split; [done|]. simpl. f_equal.
  apply eq_true_iff_eq.
  rewrite StoreFacts.selectionMatches_iff, ScorerFacts.isAnswerCorrect_iff. split.
  - intros Hset. split; [done|]. apply NoDup_Permutation; [done..|]. intros x.
    rewrite <-!(elem_of_list_to_set (C := gset string)). by rewrite Hset.
  - intros [_ Hperm]. by rewrite Hperm.
Qed.

Lemma navigationItems_agree_with_scorer_witness :
  ∃ item, navigationItems Samples.savedState3 (Some Samples.exam3) !! 0%nat = Some item ∧
          questionNumber item = Z.of_nat 0 + 1 ∧
          isAnswered item = true ∧
          isCorrect item =
            Some (QuizScorer.isAnswerCorrect (Samples.mkQuestion "1" ["1-B"]) ["1-B"]).
Proof.
  apply (navigationItems_agree_with_scorer Samples.savedState3 Samples.exam3 0
           (Samples.mkQuestion "1" ["1-B"]) ["1-B"]).
  - reflexivity.
  - reflexivity.
  - discriminate.
  - apply NoDup_singleton.
  - apply NoDup_singleton.
Defined.

Lemma redoAnswer_returns (now : Z) (w : Store) :
  -1 ≤ currentSnapshotIndex w → ∃ r, redoAnswer now w = returned r.
Proof.
  intros Hidx. unfold redoAnswer.
  destruct (Z.of_nat (length (stateSnapshots w)) - 1 <=? currentSnapshotIndex w) eqn:Hle;
    [by eexists|].
  apply Z.leb_gt in Hle. unfold js_index.
  settle (currentSnapshotIndex w + 1 <? 0) false.
  destruct (lookup_lt_is_Some_2 (stateSnapshots w) (Z.to_nat (currentSnapshotIndex w + 1)))
    as [snapshot ->]; [lia|].
  by eexists.
Qed.

(** X13.  On a session that [init] has set up, no sequence of store
    operations throws, and after each of them the snapshot cursor is not
    negative and neither the answer map nor a snapshot holds an empty
    selection. *)
Theorem session_invariant_kept (config : StateManagerConfig) (ops : list Session.Operation)
    (w : Store) :
  Session.sessionInvariant w →
  ∃ w', Session.performAll config ops w = returned w' ∧ Session.sessionInvariant w'.
Proof.
  revert w. induction ops as [|op ops IH]; intros w Hinv; [by exists w|].
  simpl.
  assert (∃ w1, Session.perform config op w = returned w1 ∧ Session.sessionInvariant w1)
    as (w1 & -> & Hinv1); [|by apply IH].
  destruct op as [now index|now|now|now questionId selectedAnswers|now questionId|now|now];
    simpl.
  - eexists. split; [done|]. by apply (navigation_invariant config now index w).
  - eexists. split; [done|]. by apply (navigation_invariant config now 0 w).
  - eexists. split; [done|]. by apply (navigation_invariant config now 0 w).
  - eexists. split; [done|]. by apply answerQuestion_invariant.
  - eexists. split; [done|]. by apply (navigation_invariant config now 0 w).
  - eexists. split; [done|]. by apply undoAnswer_invariant.
  - destruct (redoAnswer_returns now w) as ([redone w'] & Hredo).
    { destruct Hinv as [Hidx _]. lia. }
    rewrite Hredo. eexists. split; [done|]. by eapply redoAnswer_invariant.
Qed.

Lemma session_invariant_kept_witness :
  ∃ w', Session.performAll DEFAULT_CONFIG
          [Session.op_answerQuestion 10 "1" ["1-B"]; Session.op_toggleFlag 20 "2";
           Session.op_undoAnswer 30; Session.op_redoAnswer 40; Session.op_redoAnswer 50]
          Samples.active3 = returned w' ∧
        Session.sessionInvariant w'.
Proof. apply session_invariant_kept. apply init_fresh_invariant. Defined.

Lemma guarded_navigation_in_bounds_witness :
  0 ≤ currentQuestionIndex
        (quiz (ExamPage.goToNext DEFAULT_CONFIG 30 (Some Samples.exam3)
                 Samples.answeredThenMoved3)) < 3.
Proof.
  refine (proj1 (guarded_navigation_in_bounds DEFAULT_CONFIG 30 Samples.answeredThenMoved3
                   Samples.exam3 _)).
  vm_compute. split; [discriminate | reflexivity].
Defined.

Lemma answer_undo_redo_witness :
  ∃ w', Session.undoThenRedo 20 30
          (answerQuestion DEFAULT_CONFIG 10 "2" ["2-A"; "2-C"] Samples.active3)
        = Some (true, true, w') ∧
        quiz w' = quiz (answerQuestion DEFAULT_CONFIG 10 "2" ["2-A"; "2-C"] Samples.active3).
Proof.
  apply (answer_undo_redo DEFAULT_CONFIG 10 20 30 Samples.active3 "2" ["2-A"; "2-C"]).
  - reflexivity.
  - vm_compute. discriminate.
  - vm_compute. reflexivity.
Defined.

Lemma isAnswerCorrect_set_equality_witness :
  QuizScorer.isAnswerCorrect Samples.question_BD ["D"; "B"] = true ↔
  list_to_set ["D"; "B"] =@{gset string}
    list_to_set (question_correctAnswers Samples.question_BD).
Proof.
  apply isAnswerCorrect_set_equality.
  - apply NoDup_cons_2; [set_solver | apply NoDup_singleton].
  - apply NoDup_cons_2; [set_solver | apply NoDup_singleton].
  - discriminate.
Defined.

(** ** The durable store *)

Section storage_extras.
Import StorageManager.

Lemma backup_key_differs (key : string) : key ≠ key +:+ BACKUP_SUFFIX.
Proof.
  intros Heq. apply (f_equal String.length) in Heq.
  rewrite string_length_app in Heq. simpl in Heq. lia.
Qed.

Lemma truthy_Some (data : option string) (d : string) :
  truthy data = Some d → data = Some d.
Proof.
  destruct data as [s|]; simpl; [|done].
  by destruct (String.length s =? 0)%nat; intros [= <-].
Qed.

(** X20.  A backup that [createBackup] reports as taken is a copy of the
    value under the key, which it leaves in place; [restoreFromBackup]
    then puts that value back under the key and removes the backup, so
    the pair ends with the key as it was and no backup.  Neither emits an
    error. *)
Theorem createBackup_then_restoreFromBackup (env : Browser) (key : string)
    (st st1 : Storage) :
  createBackup env key st = (true, st1) →
  getItem_throws env (key +:+ BACKUP_SUFFIX) = None →
  setItem_throws env (localStorage st1) key (default "" (localStorage st !! key)) = None →
  localStorage st1 !! key = localStorage st !! key ∧
  localStorage st1 !! (key +:+ BACKUP_SUFFIX) = localStorage st !! key ∧
  (restoreFromBackup env key st1).1 = true ∧
  localStorage (restoreFromBackup env key st1).2 !! key = localStorage st !! key ∧
  localStorage (restoreFromBackup env key st1).2 !! (key +:+ BACKUP_SUFFIX) = None ∧
  emitted (restoreFromBackup env key st1).2 = emitted st.
Proof.
  intros Hbackup Hread Hwrite. pose proof (backup_key_differs key) as Hne.
  unfold createBackup in Hbackup.
  destruct (browser env) eqn:Hb; simpl in Hbackup; [|done].
  unfold getItem, setItem in Hbackup.
  destruct (getItem_throws env key); [done|].
  destruct (truthy (localStorage st !! key)) as [d|] eqn:Htruthy; [|done].
  pose proof (truthy_Some _ _ Htruthy) as Hold.
  destruct (setItem_throws env (localStorage st) _ d); [done|].
  injection Hbackup as <-. simpl.
  rewrite lookup_insert_ne by done. rewrite lookup_insert_eq.
  split; [done|]. split; [done|].
  unfold restoreFromBackup. rewrite Hb. simpl. unfold getItem. rewrite Hread. simpl.
  rewrite lookup_insert_eq. rewrite Hold in Htruthy. rewrite Htruthy.
  unfold setItem. rewrite Hold in Hwrite. simpl in Hwrite |- *. rewrite Hwrite. simpl.
  rewrite lookup_delete_ne by done. rewrite lookup_insert_eq, lookup_delete_eq.
  by rewrite Hold.
Qed.

Lemma createBackup_then_restoreFromBackup_witness :
  let env := Samples.quotaBrowser Samples.nearlyFullCapacity in
  let st1 := (createBackup env Samples.sessionKey Samples.fullStorage).2 in
  localStorage (restoreFromBackup env Samples.sessionKey st1).2 !! Samples.sessionKey
  = localStorage Samples.fullStorage !! Samples.sessionKey.
Proof.
  intros env st1.
  refine (proj1 (proj2 (proj2 (proj2
    (createBackup_then_restoreFromBackup env Samples.sessionKey Samples.fullStorage st1
       _ _ _))))); by vm_compute.
Defined.

Lemma safeSetItem_then_safeGetItem_witness :
  let env := Samples.quotaBrowser 1000 in
  let st' := (safeSetItem env 50 Samples.sessionKey Samples.saved1 Samples.emptyStorage).2 in
  safeGetItem env 60 Samples.sessionKey st' = (Some Samples.saved1, st').
Proof.
  intros env st'.
  apply (StorageFacts.safeSetItem_then_safeGetItem env 50 60 Samples.sessionKey
           Samples.saved1 Samples.emptyStorage st'); by vm_compute.
Defined.


Lemma safeSetItem_failure_keeps_backed_up_value_witness :
  localStorage
    (safeSetItem (Samples.quotaBrowser Samples.nearlyFullCapacity) 50 Samples.sessionKey
       Samples.saved2 Samples.fullStorage).2 !! Samples.sessionKey
  = Some Samples.saved1.
Proof.
  apply (StorageFacts.safeSetItem_failure_keeps_backed_up_value
           (Samples.quotaBrowser Samples.nearlyFullCapacity) 50 Samples.sessionKey
           Samples.saved2 Samples.saved1 Samples.fullStorage Samples.fullStorage
           (createBackup (Samples.quotaBrowser Samples.nearlyFullCapacity)
              Samples.sessionKey Samples.fullStorage).2
           {| thrown_isError := true; thrown_name := "QuotaExceededError";
              thrown_message := "The quota has been exceeded." |});
    by vm_compute.
Defined.

(** X21.  [safeGetItem] only reads: it leaves the contents of
    [localStorage] as they are.  When the read of the key works it returns
    what is stored and emits nothing; when it throws, it emits one
    [corrupted_data] error that is not recoverable and returns the backup
    of the key if that can be read and is not empty. *)
Theorem safeGetItem_reads_only (env : Browser) (now : Z) (key : string) (st : Storage) :
  browser env = true →
  let r := safeGetItem env now key st in
  localStorage r.2 = localStorage st ∧
  match getItem_throws env key with
  | None => r.1 = localStorage st !! key ∧ emitted r.2 = emitted st
  | Some e =>
      (∃ err, emitted r.2 = emitted st ++ [err] ∧ error_type err = corrupted_data ∧
              error_recoverable err = false) ∧
      r.1 = match getItem_throws env (key +:+ BACKUP_SUFFIX) with
            | None => truthy (localStorage st !! (key +:+ BACKUP_SUFFIX))
            | Some _ => None
            end
  end.
Proof.
  intros Hb. cbv zeta. unfold safeGetItem, getItem. rewrite Hb. simpl.
  destruct (getItem_throws env key) as [e|]; [|done].
  destruct (getItem_throws env (key +:+ BACKUP_SUFFIX)); simpl;
    (split; [done|]); (split; [|done]); by eexists.
Qed.

Lemma safeGetItem_reads_only_witness :
  (safeGetItem Samples.unreadableBrowser 60 Samples.sessionKey Samples.fullStorage).1
  = Some Samples.saved0.
Proof.
  pose proof (safeGetItem_reads_only Samples.unreadableBrowser 60 Samples.sessionKey
                Samples.fullStorage eq_refl) as H.
  cbv zeta in H. destruct H as [_ H].
  change (getItem_throws Samples.unreadableBrowser Samples.sessionKey)
    with (Some {| thrown_isError := true; thrown_name := "SecurityError";
                  thrown_message := "The operation is insecure." |}) in H.
  destruct H as [_ ->]. by vm_compute.
Defined.

Lemma storageUsed_insert (ls : gmap string string) (key value : string) :
  ls !! key = None →
  storageUsed (<[key := value]> ls) =
  storageUsed ls + (Z.of_nat (String.length value) + Z.of_nat (String.length key)).
Proof.
  intros Hfresh. unfold storageUsed. rewrite map_fold_insert_L; [done| |done].
  intros. lia.
Qed.

(** What the body of the loop adds for one entry. *)
Lemma countEntry_step (key value : string) (u : Z) (b : Breakdown) :
  let size := Z.of_nat (String.length value) + Z.of_nat (String.length key) in
  let r := countEntry key value (u, b) in
  r.1 = u + size ∧ breakdownTotal r.2 = breakdownTotal b + size ∧
  backups b ≤ backups r.2 ∧
  (js_startsWith QUIZ_STATE_PREFIX key = true →
   backups r.2 = backups b ∧ quizStates r.2 = quizStates b + size).
Proof.
  cbv zeta. unfold countEntry, breakdownTotal. simpl.
  destruct (js_startsWith QUIZ_STATE_PREFIX key); simpl; [repeat split; lia|].
  destruct (bool_decide (key = QUIZ_RESULTS_KEY)); simpl; [repeat split; (lia || done)|].
  destruct (bool_decide (key = USER_PREFERENCES_KEY)); simpl;
    [repeat split; (lia || done)|].
  destruct (js_endsWith BACKUP_SUFFIX key); simpl; repeat split; (lia || done).
Qed.

(** No member of the prototypes has a name that starts with
    [quiz_state_]: a quiz state is never hidden. *)
Lemma hasOwnProperty_quiz_state (key : string) :
  js_startsWith QUIZ_STATE_PREFIX key = true → hasOwnProperty key = true.
Proof.
  intros Hprefix. unfold hasOwnProperty. case_bool_decide as Hin; [|done].
  assert (Hall : Forall (λ name, js_startsWith QUIZ_STATE_PREFIX name = false)
                   PROTOTYPE_MEMBERS) by (by repeat constructor).
  rewrite Forall_forall in Hall. specialize (Hall key Hin). congruence.
Qed.

Lemma ownEntries_quiz_states (m : gmap string string) :
  (∀ key, is_Some (m !! key) → js_startsWith QUIZ_STATE_PREFIX key = true) →
  ownEntries m = m.
Proof.
  intros Hkeys. apply map_filter_id. intros key value Hkey. simpl.
  apply hasOwnProperty_quiz_state, Hkeys. eauto.
Qed.

(** What the loop of [getStorageInfo] has computed after any contents. *)
Lemma countOwnEntry_fold (m : gmap string string) :
  let r := map_fold countOwnEntry (0, emptyBreakdown) m in
  r.1 = storageUsed (ownEntries m) ∧ breakdownTotal r.2 = r.1 ∧ 0 ≤ backups r.2 ∧
  ((∀ key, is_Some (m !! key) → js_startsWith QUIZ_STATE_PREFIX key = true) →
   backups r.2 = 0 ∧ quizStates r.2 = r.1).
Proof.
  cbv zeta.
  apply (map_fold_weak_ind
    (λ (r : Z * Breakdown) (m : gmap string string),
       r.1 = storageUsed (ownEntries m) ∧ breakdownTotal r.2 = r.1 ∧ 0 ≤ backups r.2 ∧
       ((∀ key, is_Some (m !! key) → js_startsWith QUIZ_STATE_PREFIX key = true) →
        backups r.2 = 0 ∧ quizStates r.2 = r.1))).
  { unfold ownEntries. by rewrite map_filter_empty. }
  clear m. intros key value m [u b] Hfresh (Hu & Hsum & Hpos & Hstates).
  simpl in Hu, Hsum, Hpos, Hstates.
  assert (Hrest : (∀ k, is_Some (<[key:=value]> m !! k) →
                        js_startsWith QUIZ_STATE_PREFIX k = true) →
                  js_startsWith QUIZ_STATE_PREFIX key = true ∧
                  backups b = 0 ∧ quizStates b = u).
  { intros Hall. split; [apply Hall; rewrite lookup_insert_eq; eauto|].
    apply Hstates. intros k Hk. apply Hall.
    destruct (decide (key = k)) as [->|]; [by rewrite lookup_insert_eq|].
    by rewrite lookup_insert_ne. }
  unfold countOwnEntry. destruct (hasOwnProperty key) eqn:Hown.
  - destruct (countEntry_step key value u b) as (Hu' & Hsum' & Hpos' & Hstates').
    cbv zeta in Hu', Hsum', Hpos', Hstates'.
    unfold ownEntries. rewrite map_filter_insert_True by done.
    rewrite storageUsed_insert by (apply map_lookup_filter_None_2; by left).
    fold (ownEntries m). rewrite <-Hu.
    split; [done|]. split; [lia|]. split; [lia|].
    intros Hall. apply Hrest in Hall as (Hprefix & Hbk & Hqs).
    destruct (Hstates' Hprefix) as [Hbk' Hqs']. lia.
  - unfold ownEntries. rewrite map_filter_insert_False by (simpl; congruence).
    rewrite delete_id by done. fold (ownEntries m). simpl.
    split; [done|]. split; [done|]. split; [done|].
    intros Hall. apply Hrest in Hall as (Hprefix & _).
    apply hasOwnProperty_quiz_state in Hprefix. congruence.
Qed.

(** X22.  The sizes that [getStorageInfo] reports by category add up to
    the size it reports as used, which is the total length of all keys
    and values; and a key that starts with [quiz_state_] is counted as a
    quiz state whatever it ends with, so that in a store that holds only
    quiz states and their backups the [backups] category stays at 0. *)
Theorem getStorageInfo_breakdown (env : Browser) (st : Storage) :
  browser env = true →
  (∀ key, is_Some (localStorage st !! key) → js_startsWith QUIZ_STATE_PREFIX key = true) →
  let info := getStorageInfo env st in
  info_used info = storageUsed (localStorage st) ∧
  breakdownTotal (info_breakdown info) = info_used info ∧
  backups (info_breakdown info) = 0 ∧
  quizStates (info_breakdown info) = info_used info.
Proof.
  intros Hb Hkeys. cbv zeta. unfold getStorageInfo. rewrite Hb. simpl.
  pose proof (countOwnEntry_fold (localStorage st)) as H. cbv zeta in H.
  destruct (map_fold countOwnEntry (0, emptyBreakdown) (localStorage st))
    as [used breakdown].
  simpl in H |- *. destruct H as (Hu & Hsum & _ & Hstates).
  rewrite (ownEntries_quiz_states _ Hkeys) in Hu.
  destruct (Hstates Hkeys) as [Hbk Hqs]. done.
Qed.

Lemma getStorageInfo_breakdown_witness :
  backups (info_breakdown
             (getStorageInfo (Samples.quotaBrowser 1000) Samples.fullStorage)) = 0.
Proof.
  refine (proj1 (proj2 (proj2
    (getStorageInfo_breakdown (Samples.quotaBrowser 1000) Samples.fullStorage eq_refl _)))).
  intros key [value Hkey]. unfold Samples.fullStorage in Hkey. simpl in Hkey.
  apply lookup_insert_Some in Hkey as [[<- _]|[_ Hkey]]; [reflexivity|].
  apply lookup_singleton_Some in Hkey as [<- _]. reflexivity.
Defined.

(** X23.  Whatever is stored, the sizes that [getStorageInfo] reports by
    category add up to the size it reports as used, and that is the total
    length of the keys and values that [localStorage] shows as properties
    of its own: an entry whose key is the name of a member of
    [Storage.prototype] or [Object.prototype], such as [length], is not
    counted.  Outside a browser the size is 0. *)
Theorem getStorageInfo_total (env : Browser) (st : Storage) :
  let info := getStorageInfo env st in
  breakdownTotal (info_breakdown info) = info_used info ∧
  info_used info =
    (if browser env then storageUsed (ownEntries (localStorage st)) else 0) ∧
  ownEntries (localStorage st) =
    filter (λ entry, entry.1 ∉ PROTOTYPE_MEMBERS) (localStorage st).
Proof.
  cbv zeta. split; [|split].
  - unfold getStorageInfo. destruct (browser env); simpl; [|done].
    pose proof (countOwnEntry_fold (localStorage st)) as H. cbv zeta in H.
    destruct (map_fold countOwnEntry (0, emptyBreakdown) (localStorage st))
      as [used breakdown].
    simpl in H |- *. by destruct H as (Hu & Hsum & _).
  - unfold getStorageInfo. destruct (browser env); simpl; [|done].
    pose proof (countOwnEntry_fold (localStorage st)) as H. cbv zeta in H.
    destruct (map_fold countOwnEntry (0, emptyBreakdown) (localStorage st))
      as [used breakdown].
    simpl in H |- *. by destruct H as (Hu & Hsum & _).
  - unfold ownEntries. apply map_filter_ext. intros key value _. simpl.
    unfold hasOwnProperty. by case_bool_decide.
Qed.

(** The store of [shadowedStorage] holds 22 characters, of which
    [getStorageInfo] counts the 6 of the entry that no member hides. *)
Lemma getStorageInfo_skips_hidden_key :
  let info := getStorageInfo (Samples.quotaBrowser 1000) Samples.shadowedStorage in
  storageUsed (localStorage Samples.shadowedStorage) = 22 ∧
  info_used info = 6 ∧ other (info_breakdown info) = 6.
Proof. by vm_compute. Qed.

End storage_extras.

(** ** The offline queue *)

Section offline_extras.
Import OfflineStore.

Lemma processPendingAction_spec (action : PendingAction) (w : World) :
  let r := processPendingAction action w in
  r.1 = isKnownType (action_type action) ∧
  offline r.2 = offline w ∧ timers r.2 = timers w ∧
  retryTimeouts r.2 = retryTimeouts w ∧ nextHandle r.2 = nextHandle w ∧
  savedStates r.2 = savedStates w.
Proof. cbv zeta. unfold processPendingAction. by destruct (action_type action). Qed.

Lemma processAll_spec (actions : list PendingAction) (w : World) :
  let r := processAll actions w in
  r.1 = (λ a, isKnownType (action_type a)) <$> actions ∧
  offline r.2 = offline w ∧ savedStates r.2 = savedStates w.
Proof.
  cbv zeta. revert w. induction actions as [|a actions IH]; intros w; [done|].
  simpl. pose proof (processPendingAction_spec a w) as Hp. cbv zeta in Hp.
  destruct (processPendingAction a w) as [r w1]. simpl in Hp.
  destruct Hp as (-> & Ho & _ & _ & _ & Hs).
  specialize (IH w1). destruct (processAll actions w1) as [rs w2]. simpl in IH |- *.
  destruct IH as (-> & Ho2 & Hs2). split; [done|]. split; congruence.
Qed.

Lemma scheduleRetry_keeps_state (action : PendingAction) (w : World) :
  offline (scheduleRetry action w) = offline w ∧
  savedStates (scheduleRetry action w) = savedStates w.
Proof. unfold scheduleRetry. by destruct (3 <=? retryCount action). Qed.

Lemma scheduleRetry_fold_keeps_state (actions : list PendingAction) (w : World) :
  offline (fold_left (λ acc a, scheduleRetry a acc) actions w) = offline w ∧
  savedStates (fold_left (λ acc a, scheduleRetry a acc) actions w) = savedStates w.
Proof.
  revert w. induction actions as [|a actions IH]; intros w; [done|]. simpl.
  destruct (IH (scheduleRetry a w)) as [-> ->]. apply scheduleRetry_keeps_state.
Qed.

Lemma filter_ext_elem_of {A} (P Q : A → Prop) `{∀ x, Decision (P x)} `{∀ x, Decision (Q x)}
    (l : list A) :
  (∀ x, x ∈ l → P x ↔ Q x) → filter P l = filter Q l.
Proof.
  induction l as [|x l IH]; intros Hext; [done|].
  rewrite !filter_cons.
  assert (filter P l = filter Q l) as -> by (apply IH; intros y Hy; apply Hext; by right).
  destruct (decide (P x)) as [HP|HP], (decide (Q x)) as [HQ|HQ]; try done;
    exfalso; apply (Hext x) in HP || apply (Hext x) in HQ; try done; by left.
Qed.

Lemma NoDup_fmap_elem_inj {A B} (f : A → B) (l : list A) (x y : A) :
  NoDup (f <$> l) → x ∈ l → y ∈ l → f x = f y → x = y.
Proof.
  induction l as [|z l IH]; intros Hnd Hx Hy Heq; [by apply elem_of_nil in Hx|].
  rewrite fmap_cons in Hnd. apply NoDup_cons in Hnd as [Hz Hnd].
  apply elem_of_cons in Hx as [->|Hx], Hy as [->|Hy]; try done.
  - destruct Hz. rewrite Heq. by apply list_elem_of_fmap_2.
  - destruct Hz. rewrite <-Heq. by apply list_elem_of_fmap_2.
  - by apply IH.
Qed.

(** The ids that [syncPendingActions] collects as successful. *)
Lemma successful_ids (actions : list PendingAction) :
  let outcome := zip ((λ a, isKnownType (action_type a)) <$> actions) actions in
  ∀ id, id ∈ map (λ ra : bool * PendingAction, action_id ra.2)
               (filter (λ ra : bool * PendingAction, ra.1 = true) outcome)
        ↔ ∃ a, a ∈ actions ∧ isKnownType (action_type a) = true ∧ action_id a = id.
Proof.
  cbv zeta. induction actions as [|a actions IH]; intros id.
  { simpl. split; [by intros ?%elem_of_nil | by intros (? & ?%elem_of_nil & _)]. }
  simpl. rewrite filter_cons. simpl.
  destruct (decide (isKnownType (action_type a) = true)) as [Hk|Hk].
  - simpl. rewrite elem_of_cons, IH. split.
    + intros [->|(b & Hb & Hkb & Hid)]; [exists a | exists b]; repeat split; try done;
        [by left | by right].
    + intros (b & Hb & Hkb & Hid). apply elem_of_cons in Hb as [->|Hb]; [by left|].
      right. by exists b.
  - rewrite IH. split.
    + intros (b & Hb & Hkb & Hid). exists b. repeat split; try done. by right.
    + intros (b & Hb & Hkb & Hid). apply elem_of_cons in Hb as [->|Hb]; [done|].
      by exists b.
Qed.

Lemma filter_unknown_nil (actions : list PendingAction) :
  Forall (λ a, isKnownType (action_type a) = true) actions →
  filter (λ a, isKnownType (action_type a) = false) actions = [].
Proof.
  induction 1 as [|a l Ha _ IH]; [done|].
  rewrite filter_cons, decide_False by congruence. exact IH.
Qed.

(** What [syncPendingActions] leaves when it runs: the actions it could
    not process, in their order. *)
Lemma syncPendingActions_queue (now : Z) (w : World) :
  isOnline (offline w) = true →
  pendingActions (offline w) ≠ [] →
  NoDup (action_id <$> pendingActions (offline w)) →
  let w' := syncPendingActions now w in
  offline w' =
    {| isOnline := true;
       pendingActions :=
         filter (λ a, isKnownType (action_type a) = false) (pendingActions (offline w));
       lastSyncTime := Some now |} ∧
  savedStates w' = savedStates w ++ [offline w'].
Proof.
  intros Hon Hne Hnd. cbv zeta. unfold syncPendingActions. rewrite Hon. simpl.
  assert (Hlen : (length (pendingActions (offline w)) =? 0)%nat = false)
    by (by destruct (pendingActions (offline w))).
  rewrite Hlen. clear Hlen Hne.
  set (w0 := print _ w).
  pose proof (processAll_spec (pendingActions (offline w)) w0) as Hp. cbv zeta in Hp.
  destruct (processAll (pendingActions (offline w)) w0) as [results w1].
  simpl in Hp. destruct Hp as (-> & Ho & Hs).
  change (offline w0) with (offline w) in Ho. change (savedStates w0) with (savedStates w) in Hs.
  rewrite Ho.
  set (outcome := zip _ (pendingActions (offline w))).
  set (failed := map snd (filter (λ ra : bool * PendingAction, ra.1 = false) outcome)).
  destruct (scheduleRetry_fold_keeps_state failed w1) as [_ Hs2].
  cbn [offline savedStates set_offline saveOfflineState pendingActions isOnline
       lastSyncTime].
  rewrite Hs2, Hs, Hon.
  assert (Hkept :
    filter (λ a, action_id a ∉
              (list_to_set (map (λ ra : bool * PendingAction, action_id ra.2)
                 (filter (λ ra : bool * PendingAction, ra.1 = true) outcome)) : gset string))
      (pendingActions (offline w))
    = filter (λ a, isKnownType (action_type a) = false) (pendingActions (offline w))).
  { apply filter_ext_elem_of. intros a Ha.
    rewrite elem_of_list_to_set. subst outcome. rewrite successful_ids. split.
    - intros Hnot. destruct (isKnownType (action_type a)) eqn:Hk; [|done].
      destruct Hnot. by exists a.
    - intros Hk (b & Hb & Hkb & Hid).
      assert (b = a) as -> by (by eapply (NoDup_fmap_elem_inj action_id)).
      congruence. }
  by rewrite Hkept.
Qed.

(** X24.  While online, with no two queued actions sharing an id,
    [syncPendingActions] removes from the queue exactly the actions that
    it could process and keeps the others in their order; it records the
    time of the sync and saves the new queue.  A queue of actions of the
    four known types is emptied, after which [syncStatus] is synced. *)
Theorem syncPendingActions_removes_processed (now : Z) (w : World) :
  isOnline (offline w) = true →
  pendingActions (offline w) ≠ [] →
  NoDup (action_id <$> pendingActions (offline w)) →
  let w' := syncPendingActions now w in
  let kept := filter (λ a, isKnownType (action_type a) = false) (pendingActions (offline w)) in
  pendingActions (offline w') = kept ∧
  isOnline (offline w') = true ∧
  lastSyncTime (offline w') = Some now ∧
  savedStates w' = savedStates w ++ [offline w'] ∧
  (Forall (λ a, isKnownType (action_type a) = true) (pendingActions (offline w)) →
   syncStatus (offline w') = status_synced).
Proof.
  intros Hon Hne Hnd. cbv zeta.
  destruct (syncPendingActions_queue now w Hon Hne Hnd) as [Ho Hs].
  rewrite Hs, Ho. repeat split; try done.
  intros Hall. unfold syncStatus. simpl.
  by rewrite (filter_unknown_nil _ Hall).
Qed.

Lemma syncPendingActions_removes_processed_witness :
  pendingActions (offline (syncPendingActions 60000 Samples.twoActionsWorld))
  = filter (λ a, isKnownType (action_type a) = false)
      (pendingActions (offline Samples.twoActionsWorld)).
Proof.
  refine (proj1 (syncPendingActions_removes_processed 60000 Samples.twoActionsWorld _ _ _)).
  - reflexivity.
  - discriminate.
  - apply (bool_decide_unpack _). by vm_compute.
Defined.

Lemma filter_Forall_id {A} (P : A → Prop) `{∀ x, Decision (P x)} (l : list A) :
  Forall P l → filter P l = l.
Proof.
  induction 1 as [|x l Hx _ IH]; [done|].
  by rewrite filter_cons, decide_True, IH.
Qed.

Lemma list_find_snoc {A} (P : A → Prop) `{∀ x, Decision (P x)} (l : list A) (x : A) :
  Forall (λ y, ¬ P y) l → P x → list_find P (l ++ [x]) = Some (length l, x).
Proof.
  intros Hl Hx. induction Hl as [|y l Hy _ IH]; simpl.
  - by rewrite decide_True.
  - rewrite decide_False by done. by rewrite IH.
Qed.

(** Firing the timer that was armed last, when no other timer has its
    handle. *)
Lemma fire_newest_timer (t : Timer) (base : list Timer) (w : World) :
  timers w = base ++ [t] →
  Forall (λ u, timer_handle u ≠ timer_handle t) base →
  timers (clearTimeout (timer_handle t) w) = base ∧
  fire (timer_handle t) w =
    match timer_callback t with
    | retryCallback action => runRetry action (clearTimeout (timer_handle t) w)
    | immediateCallback action => runImmediate action (clearTimeout (timer_handle t) w)
    end.
Proof.
  intros Ht Hbase. split.
  - simpl. rewrite Ht, filter_app, filter_Forall_id by done.
    rewrite filter_cons, decide_False by (intros Hne; by apply Hne).
    by rewrite app_nil_r.
  - unfold fire. rewrite Ht, (list_find_snoc _ base t); [done| |done].
    eapply Forall_impl; [exact Hbase|]. done.
Qed.

(** X25.  Queued while online, an action of one of the four known types
    is in the queue until the timer armed for it fires; then the queue is
    what it was before, and so are the timers.  The state written to
    storage is the one with the action in the queue: its removal is not
    saved. *)
Theorem addPendingAction_online_processed (now : Z) (id : string) (type : ActionType)
    (data : string) (w : World) :
  isOnline (offline w) = true →
  isKnownType type = true →
  Forall (λ a, action_id a ≠ id) (pendingActions (offline w)) →
  Forall (λ t, timer_handle t ≠ nextHandle w) (timers w) →
  let action :=
    {| action_id := id; action_type := type; action_data := data;
       action_timestamp := now; retryCount := 0 |} in
  let w1 := addPendingAction now id type data w in
  let w2 := fire (nextHandle w) w1 in
  pendingActions (offline w1) = pendingActions (offline w) ++ [action] ∧
  pendingActions (offline w2) = pendingActions (offline w) ∧
  timers w2 = timers w ∧
  retryTimeouts w2 = retryTimeouts w ∧
  savedStates w2 = savedStates w ++ [offline w1] ∧
  last (savedStates w2) ≠ Some (offline w2).
Proof.
  intros Hon Hknown Hfresh Hhandles. cbv zeta.
  set (action := {| action_id := id; action_type := type; action_data := data;
                    action_timestamp := now; retryCount := 0 |}).
  set (t := {| timer_handle := nextHandle w; timer_delay := 0;
               timer_callback := immediateCallback action |}).
  assert (Hw1 : addPendingAction now id type data w =
    (setTimeout (immediateCallback action) 0
       (set_offline (with_pendingActions (pendingActions (offline w) ++ [action]) (offline w))
          (saveOfflineState
             (with_pendingActions (pendingActions (offline w) ++ [action]) (offline w))
             w))).2).
  { unfold addPendingAction. fold action. simpl. by rewrite Hon. }
  rewrite Hw1. set (w1 := (setTimeout _ _ _).2).
  destruct (fire_newest_timer t (timers w) w1) as [Htimers Hfire]; [done|done|].
  change (timer_handle t) with (nextHandle w) in Htimers, Hfire.
  rewrite Hfire. simpl timer_callback. cbv iota.
  unfold runImmediate.
  pose proof (processPendingAction_spec action (clearTimeout (nextHandle w) w1)) as Hp.
  cbv zeta in Hp.
  destruct (processPendingAction action (clearTimeout (nextHandle w) w1)) as [success wp].
  cbn [fst snd] in Hp. destruct Hp as (-> & Ho & Ht & Hr & _ & Hs).
  change (isKnownType type) with (isKnownType (action_type action)).
  simpl action_type. rewrite Hknown.
  cbn [offline timers retryTimeouts savedStates set_offline with_pendingActions
       pendingActions].
  rewrite Ho, Ht, Hr, Hs, Htimers. simpl.
  rewrite filter_app, filter_Forall_id by done.
  rewrite filter_cons, decide_False by (intros Hne; by apply Hne).
  rewrite app_nil_r. repeat split; try done.
  rewrite last_snoc. intros [= Heq].
  apply (f_equal length) in Heq. rewrite length_app in Heq. simpl in Heq. lia.
Qed.

Lemma addPendingAction_online_processed_witness :
  pendingActions
    (offline (fire 1 (addPendingAction 500 "1700000000500-p0o9i8u7y" action_answer
                        "{questionId:1}" Samples.onlineWorld)))
  = pendingActions (offline Samples.onlineWorld).
Proof.
  refine (proj1 (proj2 (addPendingAction_online_processed 500 "1700000000500-p0o9i8u7y"
                          action_answer "{questionId:1}" Samples.onlineWorld _ _ _ _))).
  - reflexivity.
  - reflexivity.
  - repeat constructor. discriminate.
  - constructor.
Defined.

(** X26.  [clearPending] empties the queue and the map of retry timers,
    cancels exactly the timers that the map held, and saves the emptied
    state; a timer that the map did not hold stays armed. *)
Theorem clearPending_cancels_registered (w : World) :
  let w' := clearPending w in
  offline w' = with_pendingActions [] (offline w) ∧
  retryTimeouts w' = ∅ ∧
  timers w' =
    filter (λ t, timer_handle t ∉ (map_img (retryTimeouts w) : gset nat)) (timers w) ∧
  savedStates w' = savedStates w ++ [offline w'].
Proof.
  cbv zeta. unfold clearPending.
  pose proof (map_fold_weak_ind
    (λ (r : World) (m : gmap string nat),
       offline r = offline w ∧ savedStates r = savedStates w ∧
       timers r = filter (λ t, timer_handle t ∉ (map_img m : gset nat)) (timers w))
    (λ (_ : string) (timeout : nat) (acc : World), clearTimeout timeout acc) w) as Hind.
  destruct (Hind) with (m := retryTimeouts w) as (Ho & Hs & Ht).
  - repeat split; try done. rewrite map_img_empty_L.
    symmetry. apply filter_Forall_id, Forall_forall. set_solver.
  - intros i x m r Hi (Ho & Hs & Ht). repeat split; try done. simpl.
    rewrite Ht, list_filter_filter, map_img_insert_notin_L by done.
    apply filter_ext_elem_of. intros t _. set_solver.
  - simpl. rewrite Ho, Hs, Ht. done.
Qed.

(** X27.  [removePendingAction] takes the action with the given id out of
    the queue and saves the new queue; the retry timer registered for the
    id is cancelled, so that firing it afterwards does nothing. *)
Theorem removePendingAction_cancels_retry (actionId : string) (w : World) :
  let w' := removePendingAction actionId w in
  pendingActions (offline w') =
    filter (λ a, action_id a ≠ actionId) (pendingActions (offline w)) ∧
  Forall (λ a, action_id a ≠ actionId) (pendingActions (offline w')) ∧
  retryTimeouts w' = delete actionId (retryTimeouts w) ∧
  (∀ timeout, retryTimeouts w !! actionId = Some timeout → fire timeout w' = w') ∧
  savedStates w' = savedStates w ++ [offline w'].
Proof.
  cbv zeta. unfold removePendingAction.
  destruct (retryTimeouts w !! actionId) as [timeout|] eqn:Hget; simpl.
  - repeat split; try done.
    + apply Forall_forall. by intros a [Ha _]%list_elem_of_filter.
    + intros ? [= <-]. unfold fire. simpl.
      replace (list_find _ _) with (@None (nat * Timer)); [done|].
      symmetry. apply list_find_None, Forall_forall.
      by intros t [Ht _]%list_elem_of_filter.
  - repeat split; try done.
    + apply Forall_forall. by intros a [Ha _]%list_elem_of_filter.
    + by rewrite delete_id.
Qed.

Lemma removePendingAction_cancels_retry_witness :
  fire 1 (removePendingAction "1700000000000-k3j9x2m1q" Samples.afterFirstAttempt)
  = removePendingAction "1700000000000-k3j9x2m1q" Samples.afterFirstAttempt.
Proof.
  refine (proj1 (proj2 (proj2 (proj2
    (removePendingAction_cancels_retry "1700000000000-k3j9x2m1q"
       Samples.afterFirstAttempt)))) 1%nat _).
  by vm_compute.
Defined.

(** X28.  When the connection returns, [handleOnline] sets the store online
    and syncs at once: with no two queued actions sharing an id, the
    actions of the four known types leave the queue, whether the store was
    online or offline before.  The time of the sync is recorded only if
    the queue was not empty. *)
Theorem handleOnline_syncs (now : Z) (w : World) :
  NoDup (action_id <$> pendingActions (offline w)) →
  let w' := handleOnline now w in
  isOnline (offline w') = true ∧
  pendingActions (offline w') =
    filter (λ a, isKnownType (action_type a) = false) (pendingActions (offline w)) ∧
  lastSyncTime (offline w') =
    match pendingActions (offline w) with
    | [] => lastSyncTime (offline w)
    | _ :: _ => Some now
    end ∧
  (Forall (λ a, isKnownType (action_type a) = true) (pendingActions (offline w)) →
   syncStatus (offline w') = status_synced).
Proof.
  intros Hnd. cbv zeta. unfold handleOnline.
  set (w1 := set_offline _ _).
  assert (Hq : pendingActions (offline w1) = pendingActions (offline w)) by done.
  assert (Hon : isOnline (offline w1) = true) by done.
  assert (Hlast : lastSyncTime (offline w1) = lastSyncTime (offline w)) by done.
  destruct (pendingActions (offline w)) as [|a rest] eqn:Hqueue.
  - unfold syncPendingActions. rewrite Hon, Hq. simpl.
    rewrite Hqueue. repeat split; try done.
    intros _. unfold syncStatus. simpl. by rewrite Hqueue.
  - assert (Hne : pendingActions (offline w1) ≠ []) by (by rewrite Hq).
    assert (Hnd1 : NoDup (action_id <$> pendingActions (offline w1))) by (by rewrite Hq).
    destruct (syncPendingActions_queue now w1 Hon Hne Hnd1) as [Ho _].
    rewrite Ho, Hq. repeat split; try done.
    intros Hall. unfold syncStatus. simpl isOnline. simpl pendingActions.
    by rewrite (filter_unknown_nil _ Hall).
Qed.

Lemma handleOnline_syncs_witness :
  isOnline (offline (handleOffline Samples.twoActionsWorld)) = false ∧
  pendingActions (offline (handleOnline 60000 (handleOffline Samples.twoActionsWorld)))
  = [Samples.stuckAction].
Proof.
  split; [reflexivity|].
  refine (proj1 (proj2 (handleOnline_syncs 60000 (handleOffline Samples.twoActionsWorld) _))).
  apply (bool_decide_unpack _). by vm_compute.
Defined.

(** A retry timer fires for an action that cannot be processed: the
    count of the queued action goes up by one, and the next retry is armed
    if the new count is below 3. *)
Lemma fire_failed_retry (action : PendingAction) (base : list Timer) (handle : nat)
    (delay : Z) (w : World) :
  isKnownType (action_type action) = false →
  timers w = base ++ [{| timer_handle := handle; timer_delay := delay;
                         timer_callback := retryCallback action |}] →
  Forall (λ u, timer_handle u ≠ handle) base →
  let w' := fire handle w in
  let next := with_retryCount (retryCount action + 1) action in
  pendingActions (offline w') =
    map (λ a, if bool_decide (action_id a = action_id action)
              then with_retryCount (retryCount a + 1) a else a)
      (pendingActions (offline w)) ∧
  savedStates w' = savedStates w ∧
  if retryCount action + 1 <? 3 then
    timers w' = base ++ [{| timer_handle := nextHandle w;
                            timer_delay := retryDelay (retryCount action + 1);
                            timer_callback := retryCallback next |}] ∧
    nextHandle w' = S (nextHandle w)
  else
    timers w' = base ∧ nextHandle w' = nextHandle w ∧
    last (console w') =
      Some (console_warn ("Max retries reached for action: " +:+ action_id action)).
Proof.
  intros Hunknown Htimers Hbase. cbv zeta.
  set (t := {| timer_handle := handle; timer_delay := delay;
               timer_callback := retryCallback action |}).
  destruct (fire_newest_timer t base w Htimers Hbase) as [Hcleared Hfire].
  change (timer_handle t) with handle in Hcleared, Hfire.
  rewrite Hfire. simpl timer_callback. cbv iota. unfold runRetry.
  pose proof (processPendingAction_spec action (clearTimeout handle w)) as Hp.
  cbv zeta in Hp.
  destruct (processPendingAction action (clearTimeout handle w)) as [success wp].
  cbn [fst snd] in Hp. destruct Hp as (-> & Ho & Ht & _ & Hn & Hs).
  rewrite Hunknown. cbv zeta. unfold scheduleRetry.
  cbn [retryCount with_retryCount action_id].
  rewrite Z.leb_antisym.
  destruct (retryCount action + 1 <? 3); cbn [negb].
  - cbn [setTimeout offline timers nextHandle savedStates set_offline set_retryTimeouts
         with_pendingActions pendingActions fst snd].
    rewrite Ho, Ht, Hn, Hs, Hcleared. done.
  - cbn [offline timers nextHandle savedStates set_offline print console
         with_pendingActions pendingActions].
    rewrite Ho, Ht, Hn, Hs, Hcleared. repeat split; try done. apply last_snoc.
Qed.

(** X29.  An action that cannot be processed is retried three times and
    then left alone.  From a count of 0, [scheduleRetry] arms the first
    retry 1 second ahead; as each retry fires and fails, the next is
    armed 2 and then 4 seconds ahead; when the third has failed no timer
    is armed.  The queue then holds the same actions, the count of the
    action raised by 3, and nothing has been written to storage. *)
Theorem failed_action_retried_three_times (action : PendingAction) (w : World) :
  isKnownType (action_type action) = false →
  retryCount action = 0 →
  Forall (λ t, (timer_handle t < nextHandle w)%nat) (timers w) →
  let h := nextHandle w in
  let w0 := scheduleRetry action w in
  let w1 := fire h w0 in
  let w2 := fire (S h) w1 in
  let w3 := fire (S (S h)) w2 in
  timer_delay <$> drop (length (timers w)) (timers w0) = [1000] ∧
  timer_delay <$> drop (length (timers w)) (timers w1) = [2000] ∧
  timer_delay <$> drop (length (timers w)) (timers w2) = [4000] ∧
  timers w3 = timers w ∧
  pendingActions (offline w3) =
    map (λ a, if bool_decide (action_id a = action_id action)
              then with_retryCount (retryCount a + 3) a else a)
      (pendingActions (offline w)) ∧
  savedStates w3 = savedStates w ∧
  last (console w3) =
    Some (console_warn ("Max retries reached for action: " +:+ action_id action)).
Proof.
  intros Hunknown Hcount Hhandles. cbv zeta.
  assert (Hbase : ∀ k, Forall (λ u, timer_handle u ≠ (k + nextHandle w)%nat) (timers w)).
  { intros k. eapply Forall_impl; [exact Hhandles|]. simpl. lia. }
  set (w0 := scheduleRetry action w).
  assert (H0 : timers w0 = timers w ++ [{| timer_handle := nextHandle w;
                 timer_delay := 1000; timer_callback := retryCallback action |}] ∧
               nextHandle w0 = S (nextHandle w) ∧ offline w0 = offline w ∧
               savedStates w0 = savedStates w).
  { subst w0. unfold scheduleRetry, retryDelay. by rewrite Hcount. }
  destruct H0 as (Ht0 & Hn0 & Ho0 & Hs0).
  pose proof (fire_failed_retry action (timers w) (nextHandle w) 1000 w0 Hunknown Ht0
                (Hbase 0%nat)) as H1.
  cbv zeta in H1. rewrite Hcount in H1. change (0 + 1 <? 3) with true in H1. cbv iota in H1.
  set (w1 := fire (nextHandle w) w0) in *.
  destruct H1 as (Hq1 & Hs1 & Ht1 & Hn1). rewrite Hn0 in Ht1, Hn1.
  set (a1 := with_retryCount (0 + 1) action) in *.
  pose proof (fire_failed_retry a1 (timers w) (S (nextHandle w)) _ w1 Hunknown Ht1
                (Hbase 1%nat)) as H2.
  cbv zeta in H2. change (retryCount a1 + 1 <? 3) with true in H2. cbv iota in H2.
  set (w2 := fire (S (nextHandle w)) w1) in *.
  destruct H2 as (Hq2 & Hs2 & Ht2 & Hn2). rewrite Hn1 in Ht2, Hn2.
  set (a2 := with_retryCount (retryCount a1 + 1) a1) in *.
  pose proof (fire_failed_retry a2 (timers w) (S (S (nextHandle w))) _ w2 Hunknown Ht2
                (Hbase 2%nat)) as H3.
  cbv zeta in H3. change (retryCount a2 + 1 <? 3) with false in H3. cbv iota in H3.
  set (w3 := fire (S (S (nextHandle w))) w2) in *.
  destruct H3 as (Hq3 & Hs3 & Ht3 & _ & Hlast).
  rewrite Ht0, Ht1, Ht2, Ht3, !drop_app_length.
  repeat split; try done.
  - rewrite Hq3, Hq2, Hq1, Ho0, !map_map. apply map_ext. intros a.
    change (action_id a2) with (action_id action).
    change (action_id a1) with (action_id action).
    destruct (decide (action_id a = action_id action)) as [Hid|Hid].
    + rewrite (bool_decide_true _ Hid). cbn [action_id with_retryCount].
      rewrite (bool_decide_true _ Hid). cbn [action_id with_retryCount].
      rewrite (bool_decide_true _ Hid).
      unfold with_retryCount. simpl. f_equal. lia.
    + by rewrite !(bool_decide_false _ Hid).
  - congruence.
Qed.

Lemma failed_action_retried_three_times_witness :
  timers (fire 3 (fire 2 (fire 1 (scheduleRetry Samples.stuckAction Samples.onlineWorld))))
  = timers Samples.onlineWorld.
Proof.
  refine (proj1 (proj2 (proj2 (proj2
    (failed_action_retried_three_times Samples.stuckAction Samples.onlineWorld _ _ _))))).
  - reflexivity.
  - reflexivity.
  - constructor.
Defined.

End offline_extras.
